(** * Wikipedia-to-Notion importer (WTNI.py): content partitioning and page reassembly

    A shallow embedding of the pipeline of [WTNI.py]:
    block encoding ([parse_html_to_blocks], with its local [safe_chunk_text]
    and its paginating loop), metadata extraction ([extract_infobox]), the
    append-validation guard ([validate_blocks]) and the reassembly engine
    ([combine_pages_into_single]) over a model of the destination store.

    Conventions of the model.
    - Python [str] is [string]; one character of the model is one [ascii],
      the characters of a document being the code points 0 to 255.
      The emoji of the source's literals are written as their UTF-8 bytes,
      so each counts four characters instead of one; the literals stay far
      below every length test of the code.
    - [len], indices and slice bounds are [nat] (the code only builds
      non-negative ones); caller-supplied integers and part numbers are [Z].
    - Console output ([print]) is modelled only for [validate_blocks], whose
      warnings are returned as a list of lines.
    - A Python exception is a value [Raise e] of [result]. *)

From Stdlib Require Import ZArith Ascii String DecimalString.
From stdpp Require Import base list strings gmap sorting.
From Stdlib Require Decimal DecimalFacts DecimalNat.

Local Open Scope nat_scope.

(** ** Python results *)

Inductive exn : Type :=
| ValueError
| IndexError
| APIError.

Inductive result (A : Type) : Type :=
| Ok (a : A)
| Raise (e : exn).
Arguments Ok {A} a.
Arguments Raise {A} e.

(** ** Python sequence primitives *)

Module Py.

(** [l[i:j]] for [0 <= i], [0 <= j]. *)
Definition slice {A} (l : list A) (i j : nat) : list A :=
  take (j - i) (drop i l).

(** [range(start, stop, step)] for [step > 0]; [fuel] bounds the number of
    iterations and [stop - start] always suffices. *)
Fixpoint range_from (fuel start stop step : nat) : list nat :=
  match fuel with
  | 0 => []
  | S fuel' =>
      if start <? stop
      then start :: range_from fuel' (start + step) stop step
      else []
  end.

Definition range (stop step : nat) : list nat :=
  range_from stop 0 stop step.

(** [s[:n]] and [s[n:]] on strings. *)
Fixpoint str_take (n : nat) (s : string) : string :=
  match n, s with
  | S n', String c s' => String c (str_take n' s')
  | _, _ => ""
  end.

Fixpoint str_drop (n : nat) (s : string) : string :=
  match n, s with
  | S n', String _ s' => str_drop n' s'
  | _, _ => s
  end.

(** [s[i:j]]. *)
Definition str_slice (s : string) (i j : nat) : string :=
  str_take (j - i) (str_drop i s).

(** [sep.join(parts)]. *)
Fixpoint join (sep : string) (parts : list string) : string :=
  match parts with
  | [] => ""
  | [p] => p
  | p :: ps => p +:+ sep +:+ join sep ps
  end.

(** [s.startswith(p)]. *)
Fixpoint startswith (p s : string) : bool :=
  match p, s with
  | EmptyString, _ => true
  | String a p', String b s' => if Ascii.eqb a b then startswith p' s' else false
  | String _ _, EmptyString => false
  end.

(** [sub in s]. *)
Fixpoint contains (sub s : string) : bool :=
  startswith sub s ||
  match s with
  | EmptyString => false
  | String _ s' => contains sub s'
  end.

(** [s.split(sep)] for a non-empty [sep]: the pieces between the
    non-overlapping occurrences of [sep], scanned left to right.
    [skip] counts the characters of a matched separator still to pass,
    [cur] is the piece under construction, reversed. *)
Fixpoint split_go (sep : string) (skip : nat) (cur : string) (s : string) : list string :=
  match s with
  | EmptyString => [String.rev cur]
  | String c s' =>
      match skip with
      | S k => split_go sep k cur s'
      | 0 =>
          if startswith sep s
          then String.rev cur :: split_go sep (String.length sep - 1) "" s'
          else split_go sep 0 (String c cur) s'
      end
  end.

Definition split (sep s : string) : list string := split_go sep 0 "" s.

(** [s.replace(old, new)] for a non-empty [old]: every non-overlapping
    occurrence, left to right, which is [new.join(s.split(old))]. *)
Definition replace (old new s : string) : string := join new (split old s).

(** Stripping the characters that pass a test from the left end, from the
    right end and from both ends of a string. *)
Fixpoint lstrip_by (space : ascii → bool) (s : string) : string :=
  match s with
  | String c s' => if space c then lstrip_by space s' else s
  | EmptyString => ""
  end.

Fixpoint rstrip_by (space : ascii → bool) (s : string) : string :=
  match s with
  | EmptyString => ""
  | String c s' =>
      match rstrip_by space s' with
      | EmptyString => if space c then "" else String c ""
      | r => String c r
      end
  end.

Definition strip_by (space : ascii → bool) (s : string) : string :=
  rstrip_by space (lstrip_by space s).

(** Whitespace of [str.strip()] among the characters 0 to 255: tab, line
    feed, vertical tab, form feed, carriage return, the separators 28..31,
    space, next line (133) and the no-break space (160). *)
Definition isspace (c : ascii) : bool :=
  let n := nat_of_ascii c in
  ((9 <=? n) && (n <=? 13)) || ((28 <=? n) && (n <=? 32))
  || (n =? 133) || (n =? 160).

Definition lstrip (s : string) : string := lstrip_by isspace s.
Definition rstrip (s : string) : string := rstrip_by isspace s.

(** [s.strip()]. *)
Definition strip (s : string) : string := rstrip (lstrip s).

(** Truthiness of a string: [if text]. *)
Definition truthy (s : string) : bool :=
  match s with EmptyString => false | _ => true end.

(** [str(n)] for a non-negative integer. *)
Definition str_of_nat (n : nat) : string :=
  NilEmpty.string_of_uint (Nat.to_uint n).

End Py.

(** ** Blocks

    A block is the dict [{"object": "block", "type": t, t: content}].  Every
    block the program builds has one of seven types; its content holds either
    a ["rich_text"] list with exactly one text item, or no ["rich_text"] key
    at all (a divider), and a callout also carries an icon.  [rich_text] is
    the content of that single item, [None] when the key is absent. *)

Inductive block_type : Type :=
| paragraph
| heading_2
| heading_3
| bulleted_list_item
| numbered_list_item
| callout
| divider.

Definition block_type_name (t : block_type) : string :=
  match t with
  | paragraph => "paragraph"
  | heading_2 => "heading_2"
  | heading_3 => "heading_3"
  | bulleted_list_item => "bulleted_list_item"
  | numbered_list_item => "numbered_list_item"
  | callout => "callout"
  | divider => "divider"
  end.

Record block : Type := Block {
  type : block_type;
  rich_text : option string;
  icon : option string
}.

Global Instance block_type_eq_dec : EqDecision block_type.
Proof. solve_decision. Defined.

Global Instance block_eq_dec : EqDecision block.
Proof. solve_decision. Defined.

Definition MAX_LENGTH : nat := 2000.

Definition make_block (text : string) (block_type : block_type) : block :=
  {| type := block_type; rich_text := Some text; icon := None |}.

Definition make_callout (text : string) (icon : string) : block :=
  let text :=
    if MAX_LENGTH <? String.length text
    then Py.str_take 1997 text +:+ "..."
    else text in
  {| type := callout; rich_text := Some text; icon := Some icon |}.

Definition make_divider : block :=
  {| type := divider; rich_text := None; icon := None |}.

(** ** The parsed document (BeautifulSoup)

    The tree [BeautifulSoup(html, "html.parser")] returns: strings and tags
    with a name, the CSS classes of their [class] attribute and their
    children.  A string is a [NavigableString] when it is ordinary text and
    an object of a subclass otherwise: a comment, a CDATA section, a
    declaration, a doctype, a processing instruction, and the text the
    parser reads inside a [style], [script], [template], [rt] or [rp]
    element, which gets the class of that container. *)

Inductive string_class : Type :=
| CData
| Comment
| Declaration
| Doctype
| ProcessingInstruction
| Stylesheet
| Script
| TemplateString
| RubyTextString
| RubyParenthesisString.

Global Instance string_class_eq_dec : EqDecision string_class.
Proof. solve_decision. Defined.

#[local] Set Warnings "-register-all".
Inductive node : Type :=
| NavigableString (s : string)
| TypedString (cls : string_class) (s : string)
| Tag (name : string) (class_ : list string) (contents : list node).
#[local] Set Warnings "+register-all".

Module Soup.

(** [el.descendants]: every node below [el], in document order. *)
Fixpoint descendants (el : node) : list node :=
  match el with
  | Tag _ _ contents => flat_map (fun c => c :: descendants c) contents
  | _ => []
  end.

Definition name_in (names : list string) (n : node) : bool :=
  match n with
  | Tag name _ _ => existsb (String.eqb name) names
  | _ => false
  end.

(** [el.find_all(names)]. *)
Definition find_all (names : list string) (el : node) : list node :=
  List.filter (name_in names) (descendants el).

(** [el.find(name)]: the first match, [None] when there is none. *)
Definition find (name : string) (el : node) : option node :=
  head (find_all [name] el).

Definition has_class (c : string) (n : node) : bool :=
  match n with
  | Tag _ class_ _ => existsb (String.eqb c) class_
  | _ => false
  end.

(** [el.find(name, class_=c)]. *)
Definition find_class (name c : string) (el : node) : option node :=
  head (List.filter (has_class c) (find_all [name] el)).

(** [HTMLTreeBuilder.DEFAULT_STRING_CONTAINERS]: the class the parser gives
    to the text inside an element of that name. *)
Definition string_container (name : string) : option string_class :=
  if String.eqb name "rt" then Some RubyTextString
  else if String.eqb name "rp" then Some RubyParenthesisString
  else if String.eqb name "style" then Some Stylesheet
  else if String.eqb name "script" then Some Script
  else if String.eqb name "template" then Some TemplateString
  else None.

(** The strings of [el] in document order, itself included, each with its
    class, [None] standing for [NavigableString].  Text inside a container
    has the class of the innermost container around it, so a
    [NavigableString] found below a container of [el] is read as a string of
    that class; what encloses [el] shows only in the class the strings
    carry. *)
Fixpoint typed_strings (container : option string_class) (el : node)
  : list (option string_class * string) :=
  match el with
  | NavigableString s => [(container, s)]
  | TypedString cls s => [(Some cls, s)]
  | Tag name _ contents =>
      let container :=
        match string_container name with
        | Some cls => Some cls
        | None => container
        end in
      flat_map (typed_strings container) contents
  end.

(** [Tag.interesting_string_types]: the classes [get_text] keeps, which are
    [NavigableString] and [CData], or the class of the container when the
    tag is one. *)
Definition interesting_string_types (el : node) (cls : option string_class) : bool :=
  let default :=
    match cls with
    | None | Some CData => true
    | Some _ => false
    end in
  match el with
  | Tag name _ _ =>
      match string_container name with
      | Some container => bool_decide (cls = Some container)
      | None => default
      end
  | _ => default
  end.

(** [el._all_strings()]: the strings of an interesting class, in document
    order. *)
Definition strings (el : node) : list string :=
  map snd
      (List.filter (fun x => interesting_string_types el (fst x))
                   (typed_strings None el)).

(** [el.get_text(separator, strip=True)]: every such string stripped, the
    empty ones left out, the rest joined by [separator]. *)
Definition get_text (separator : string) (el : node) : string :=
  Py.join separator (List.filter Py.truthy (map Py.strip (strings el))).

Definition name_is (name : string) (el : node) : bool := name_in [name] el.

End Soup.

(** ** Block encoder and paginator: [parse_html_to_blocks] *)

Definition LF : string := String "010"%char "".

(** The local function [safe_chunk_text]. *)
Definition safe_chunk_text (text : string) (block_type : block_type) : list block :=
  if String.length text <=? MAX_LENGTH
  then [make_block text block_type]
  else
    map (fun i =>
           let chunk := Py.str_slice text i (i + 1800) in
           let chunk :=
             if MAX_LENGTH <? String.length chunk
             then Py.str_take MAX_LENGTH chunk
             else chunk in
           make_block chunk block_type)
        (Py.range (String.length text) 1800).

Definition summary_callout : block :=
  make_callout
    "📖 This is a comprehensive Wikipedia article imported into Notion. Content is split across multiple pages for better organization."
    "📚".

(** The body of the loop over [li] items of a [ul] or [ol]. *)
Definition list_item_blocks (block_type : block_type) (li : node) : list block :=
  let text := Soup.get_text " " li in
  if Py.truthy text && (10 <? String.length text)
  then
    if String.length text <=? MAX_LENGTH
    then [make_block text block_type]
    else safe_chunk_text text block_type
  else [].

(** The serialization of a table, one line per row. *)
Definition table_rows_text (element : node) : string :=
  fold_left
    (fun table_text row =>
       let cols := map (Soup.get_text " ") (Soup.find_all ["th"; "td"] row) in
       table_text +:+ Py.join " | " cols +:+ LF)
    (Soup.find_all ["tr"] element) "".

(** The body of the loop over the content elements. *)
Definition element_blocks (element : node) : list block :=
  if Soup.name_is "h2" element then
    let text := Py.replace "[edit]" "" (Soup.get_text " " element) in
    if Py.truthy text && (String.length text <=? MAX_LENGTH)
    then [make_divider; make_block text heading_2]
    else []
  else if Soup.name_is "h3" element then
    let text := Py.replace "[edit]" "" (Soup.get_text " " element) in
    if Py.truthy text && (String.length text <=? MAX_LENGTH)
    then [make_block text heading_3]
    else []
  else if Soup.name_is "p" element then
    let text := Soup.get_text " " element in
    if Py.truthy text && (50 <? String.length text)
    then safe_chunk_text text paragraph
    else []
  else if Soup.name_is "ul" element then
    flat_map (list_item_blocks bulleted_list_item) (Soup.find_all ["li"] element)
  else if Soup.name_is "ol" element then
    flat_map (list_item_blocks numbered_list_item) (Soup.find_all ["li"] element)
  else if Soup.name_is "table" element then
    let table_text := table_rows_text element in
    if Py.truthy (Py.strip table_text)
    then
      let table_text := Py.strip table_text in
      let table_text :=
        if 1900 <? String.length table_text
        then Py.str_take 1900 table_text +:+ LF +:+ LF +:+ "[Table truncated...]"
        else table_text in
      [make_callout ("📊 Table Data:" +:+ LF +:+ LF +:+ table_text) "📊"]
    else []
  else [].

Definition content_elements : list string := ["h2"; "h3"; "p"; "ul"; "ol"; "table"].

(** The flat sequence [all_blocks] at the end of the encoding loop. *)
Definition all_blocks (soup : node) : list block :=
  [summary_callout; make_divider]
  ++ flat_map element_blocks (Soup.find_all content_elements soup).

(** The paginating loop: [page_chunks] for a given [all_blocks].
    [range] raises on a zero step and is empty on a negative one. *)
Definition page_chunks (all_blocks : list block) (max_blocks_per_page : Z)
  : result (list (list block)) :=
  if (max_blocks_per_page =? 0)%Z then Raise ValueError
  else if (max_blocks_per_page <? 0)%Z then Ok []
  else
    let step := Z.to_nat max_blocks_per_page in
    Ok (map (fun i => Py.slice all_blocks i (i + step))
            (Py.range (length all_blocks) step)).

Definition parse_html_to_blocks (soup : node) (max_blocks_per_page : Z)
  : result (list (list block)) :=
  page_chunks (all_blocks soup) max_blocks_per_page.

(** ** Structured-field extractor: [extract_infobox] *)

(** The body of the loop over the rows of the infobox: [data[key] = value]
    when the row has a [th] and a [td] whose texts are both non-empty. *)
Definition infobox_row (data : gmap string string) (row : node) : gmap string string :=
  match Soup.find "th" row, Soup.find "td" row with
  | Some th, Some td =>
      let key := Soup.get_text " " th in
      let value := Soup.get_text " " td in
      if Py.truthy key && Py.truthy value then <[key := value]> data else data
  | _, _ => data
  end.

Definition extract_infobox (soup : node) : gmap string string :=
  match Soup.find_class "table" "infobox" soup with
  | Some infobox => fold_left infobox_row (Soup.find_all ["tr"] infobox) ∅
  | None => ∅
  end.

(** ** Append-validation guard: [validate_blocks]

    The source truncates the text of a block in place and collects the same
    objects; the blocks of a page are distinct objects, so the result is the
    list of the updated values.  The second component is what the loop
    prints, one line per truncated block. *)

Definition truncation_warning (block_type : block_type) (len : nat) : string :=
  "Warning: Truncating " +:+ block_type_name block_type +:+ " block from "
  +:+ Py.str_of_nat len +:+ " to " +:+ Py.str_of_nat MAX_LENGTH +:+ " characters".

(** The body of the loop, for one block. *)
Definition validate_block (blk : block) : block * list string :=
  match rich_text blk with
  | Some text_content =>
      if MAX_LENGTH <? String.length text_content
      then ({| type := type blk;
               rich_text := Some (Py.str_take MAX_LENGTH text_content);
               icon := icon blk |},
            [truncation_warning (type blk) (String.length text_content)])
      else (blk, [])
  | None => (blk, [])
  end.

Fixpoint validate_blocks (blocks : list block) : list block * list string :=
  match blocks with
  | [] => ([], [])
  | blk :: blocks' =>
      let '(validated, printed) := validate_block blk in
      let '(validated_blocks, printed') := validate_blocks blocks' in
      (validated :: validated_blocks, printed ++ printed')
  end.

(** ** The destination store (the Notion client)

    The pages of the database of the run, the calls issued so far, and a
    script of outcomes: every request consumes one entry, [true] making the
    request fail with an [APIError] before it has any effect; an exhausted
    script means that every further request is served. *)

Record page : Type := Page {
  page_id : string;
  page_title : string;
  children : list block;
  archived : bool
}.

Inductive call : Type :=
| DatabasesQuery (database_id title : string)
| BlocksChildrenList (block_id : string)
| BlocksChildrenAppend (block_id : string) (children : list block)
| PagesUpdateArchived (page_id : string).

Record notion : Type := Notion {
  db_pages : list page;
  calls : list call;
  faults : list bool
}.

Global Instance page_eq_dec : EqDecision page.
Proof. solve_decision. Defined.

(** Computations over the store that may raise. *)
Definition M (A : Type) : Type := notion → result A * notion.

Definition ret {A} (a : A) : M A := fun w => (Ok a, w).

Definition raise {A} (e : exn) : M A := fun w => (Raise e, w).

Definition bind {A B} (m : M A) (k : A → M B) : M B :=
  fun w =>
    match m w with
    | (Ok a, w') => k a w'
    | (Raise e, w') => (Raise e, w')
    end.

(** [try: m  except Exception as e: handler e]. *)
Definition try_except {A} (m : M A) (handler : exn → M A) : M A :=
  fun w =>
    match m w with
    | (Ok a, w') => (Ok a, w')
    | (Raise e, w') => handler e w'
    end.

Definition lift {A} (r : result A) : M A := fun w => (r, w).

Global Instance M_ret : MRet M := @ret.
Global Instance M_bind : MBind M := λ A B k m, bind m k.

(** [for x in l: body x]. *)
Fixpoint for_each {X} (l : list X) (body : X → M unit) : M unit :=
  match l with
  | [] => ret tt
  | x :: l' => body x;; for_each l' body
  end.

Module Store.

Definition has_id (i : string) (p : page) : bool := String.eqb (page_id p) i.

Definition lookup_page (i : string) (ps : list page) : option page :=
  head (List.filter (has_id i) ps).

Definition update_page (i : string) (f : page → page) (ps : list page) : list page :=
  map (fun p => if has_id i p then f p else p) ps.

Definition extend_children (blocks : list block) (p : page) : page :=
  {| page_id := page_id p; page_title := page_title p;
     children := children p ++ blocks; archived := archived p |}.

Definition set_archived (p : page) : page :=
  {| page_id := page_id p; page_title := page_title p;
     children := children p; archived := true |}.

(** One request: logged, failed when the script says so, else served. *)
Definition request {A} (c : call) (serve : list page → result (A * list page)) : M A :=
  fun w =>
    let w' := {| db_pages := db_pages w;
                 calls := calls w ++ [c];
                 faults := tail (faults w) |} in
    if default false (head (faults w)) then (Raise APIError, w')
    else
      match serve (db_pages w) with
      | Ok (a, ps) =>
          (Ok a, {| db_pages := ps; calls := calls w'; faults := faults w' |})
      | Raise e => (Raise e, w')
      end.

(** [notion.databases.query] with the filter [Name contains title]; pages
    in the trash are not listed. *)
Definition databases_query (database_id title : string) : M (list page) :=
  request (DatabasesQuery database_id title)
    (fun ps =>
       Ok (List.filter
             (fun p => negb (archived p) && Py.contains title (page_title p)) ps,
           ps)).

(** [notion.blocks.children.list]. *)
Definition blocks_children_list (block_id : string) : M (list block) :=
  request (BlocksChildrenList block_id)
    (fun ps =>
       match lookup_page block_id ps with
       | Some p => Ok (children p, ps)
       | None => Raise APIError
       end).

(** [notion.blocks.children.append]: the new children go after the ones
    the page already has. *)
Definition blocks_children_append (block_id : string) (blocks : list block) : M unit :=
  request (BlocksChildrenAppend block_id blocks)
    (fun ps =>
       match lookup_page block_id ps with
       | Some _ => Ok (tt, update_page block_id (extend_children blocks) ps)
       | None => Raise APIError
       end).

(** [notion.pages.update(page_id=..., archived=True)]. *)
Definition pages_update_archived (i : string) : M unit :=
  request (PagesUpdateArchived i)
    (fun ps =>
       match lookup_page i ps with
       | Some _ => Ok (tt, update_page i set_archived ps)
       | None => Raise APIError
       end).

End Store.

Definition get_database_pages (database_id title : string) : M (list page) :=
  try_except (Store.databases_query database_id title) (fun _ => ret []).

Definition get_page_blocks (page_id : string) : M (list block) :=
  try_except (Store.blocks_children_list page_id) (fun _ => ret []).

(** ** Reassembly engine: [combine_pages_into_single] *)

(** [int(s)] on a string: surrounding whitespace stripped, an optional sign,
    then decimal digits, single underscores allowed between digits.  [int]
    reads a next-line character and a no-break space as a space and strips
    tab, line feed, vertical tab, form feed, carriage return and space; the
    separators 28..31, which [str.strip()] removes, it rejects. *)
Definition int_space (c : ascii) : bool :=
  let n := nat_of_ascii c in
  ((9 <=? n) && (n <=? 13)) || (n =? 32) || (n =? 133) || (n =? 160).

Definition digit_value (c : ascii) : option Z :=
  let n := nat_of_ascii c in
  if (48 <=? n) && (n <=? 57) then Some (Z.of_nat (n - 48)) else None.

Fixpoint int_digits (acc : Z) (after_digit : bool) (s : string) : option Z :=
  match s with
  | EmptyString => if after_digit then Some acc else None
  | String c s' =>
      match digit_value c with
      | Some d => int_digits (10 * acc + d) true s'
      | None =>
          if Ascii.eqb c "_" && after_digit then int_digits acc false s' else None
      end
  end.

Definition int (s : string) : result Z :=
  let parse digits sign :=
    match int_digits 0 false digits with
    | Some n => Ok (sign * n)%Z
    | None => Raise ValueError
    end in
  match Py.strip_by int_space s with
  | String "-" digits => parse digits (-1)%Z
  | String "+" digits => parse digits 1%Z
  | digits => parse digits 1%Z
  end.

(** [l[i]] for [0 <= i]. *)
Definition index {A} (l : list A) (i : nat) : result A :=
  match l !! i with
  | Some x => Ok x
  | None => Raise IndexError
  end.

Definition result_bind {A B} (r : result A) (k : A → result B) : result B :=
  match r with
  | Ok a => k a
  | Raise e => Raise e
  end.

(** The sort key:
    [int(title.split("(Part ")[1].split(")")[0])]. *)
Definition part_number (x : page) : result Z :=
  result_bind (index (Py.split "(Part " (page_title x)) 1) (fun after =>
  result_bind (index (Py.split ")" after) 0) (fun digits =>
  int digits)).

(** [list.sort(key=...)]: the keys are computed first, in list order, and
    the first failing one raises; the sort is stable. *)
Fixpoint keys_of {A} (key : A → result Z) (l : list A) : result (list (Z * A)) :=
  match l with
  | [] => Ok []
  | x :: l' =>
      result_bind (key x) (fun k =>
      result_bind (keys_of key l') (fun kl =>
      Ok ((k, x) :: kl)))
  end.

Fixpoint insert_keyed {A} (x : Z * A) (l : list (Z * A)) : list (Z * A) :=
  match l with
  | [] => [x]
  | y :: l' => if (x.1 <=? y.1)%Z then x :: l else y :: insert_keyed x l'
  end.

Definition sort_keyed {A} (l : list (Z * A)) : list (Z * A) :=
  foldr insert_keyed [] l.

Definition sort_by_key {A} (key : A → result Z) (l : list A) : result (list A) :=
  result_bind (keys_of key l) (fun kl => Ok (map snd (sort_keyed kl))).

(** The classification loop: the state is [(main_page, part_pages)]. *)
Definition classify (title : string) (pages : list page) : option page * list page :=
  fold_left
    (fun '(main_page, part_pages) page =>
       if String.eqb (page_title page) title then (Some page, part_pages)
       else if Py.contains (title +:+ " (Part") (page_title page)
            then (main_page, part_pages ++ [page])
            else (main_page, part_pages))
    pages (None, []).

(** The collection loop over the part pages, extending [all_blocks]. *)
Fixpoint collect_blocks (all_blocks : list block) (part_pages : list page)
  : M (list block) :=
  match part_pages with
  | [] => mret all_blocks
  | part_page :: part_pages' =>
      part_blocks ← get_page_blocks (page_id part_page);
      collect_blocks (all_blocks ++ part_blocks) part_pages'
  end.

Definition batch_size : nat := 50.

(** The re-append loop over
    [range(0, total_blocks, batch_size)]. *)
Definition append_batches (block_id : string) (all_blocks : list block) : M unit :=
  for_each (Py.range (length all_blocks) batch_size)
    (fun i =>
       let batch := Py.slice all_blocks i (i + batch_size) in
       Store.blocks_children_append block_id batch).

(** The retirement loop: a failure to archive is reported and passed over. *)
Definition archive_parts (part_pages : list page) : M unit :=
  for_each part_pages
    (fun part_page =>
       try_except (Store.pages_update_archived (page_id part_page))
                  (fun _ => mret tt)).

(** The [try] block: re-append, retire, return the id of the main page;
    any exception raised inside is caught and turned into [None]. *)
Definition merge_into_main
    (main_page : page) (part_pages : list page) (all_blocks : list block)
  : M (option string) :=
  try_except
    (append_batches (page_id main_page) all_blocks;;
     archive_parts part_pages;;
     mret (Some (page_id main_page)))
    (fun _ => mret None).

Definition combine_pages_into_single
    (database_id title : string) (infobox_data : gmap string string)
  : M (option string) :=
  pages ← get_database_pages database_id title;
  match pages with
  | [] => mret None
  | _ =>
      let '(main_page, part_pages) := classify title pages in
      part_pages ← lift (sort_by_key part_number part_pages);
      match main_page with
      | None => mret None
      | Some main_page =>
          main_blocks ← get_page_blocks (page_id main_page);
          all_blocks ← collect_blocks ([] ++ main_blocks) part_pages;
          merge_into_main main_page part_pages all_blocks
      end
  end.

(** ** Vocabulary of the statements *)

(** Number of iterations of [range(start, stop, step)] for [step > 0]. *)
Definition range_len (start stop step : nat) : nat :=
  (stop - start + step - 1) / step.

(** The slices a loop [for i in range(0, len(l), step): l[i:i + step]]
    collects. *)
Definition chunks {A} (l : list A) (step : nat) : list (list A) :=
  map (λ i, Py.slice l i (i + step)) (Py.range (length l) step).

(** The text a block carries, when it carries one. *)
Definition text_len_ok (b : block) : Prop :=
  match rich_text b with
  | Some text => String.length text ≤ MAX_LENGTH
  | None => True
  end.

(** [str * n]. *)
Fixpoint str_repeat (s : string) (n : nat) : string :=
  match n with
  | 0 => ""
  | S n' => s +:+ str_repeat s n'
  end.

Definition block_text (b : block) : string := default "" (rich_text b).

(** A block whose text is longer than [MAX_LENGTH]. *)
Definition over_length (b : block) : bool :=
  match rich_text b with
  | Some text => MAX_LENGTH <? String.length text
  | None => false
  end.

(** The block [validate_blocks] is expected to put in the place of [b]:
    the same type and icon, the text cut to its first [MAX_LENGTH]
    characters. *)
Definition clamped (b : block) : block :=
  {| type := type b;
     rich_text := Py.str_take MAX_LENGTH <$> rich_text b;
     icon := icon b |}.

(** A tag of a given name, and an infobox table: a [table] tag whose
    [class] attribute lists [infobox]. *)
Definition is_tag (name : string) (n : node) : bool :=
  match n with
  | Tag name' _ _ => String.eqb name' name
  | _ => false
  end.

Definition is_infobox (n : node) : bool :=
  match n with
  | Tag name class_ _ => String.eqb name "table" && bool_decide ("infobox" ∈ class_)
  | _ => false
  end.

(** The first tag of a given name below [el], in document order. *)
Definition first_tag (name : string) (el : node) : option node :=
  head (List.filter (is_tag name) (Soup.descendants el)).

(** The field a row of the metadata table contributes: the texts of the
    first header cell and of the first data cell below it, when the row has
    both and both texts are non-empty. *)
Definition row_field (row : node) : option (string * string) :=
  th ← first_tag "th" row;
  td ← first_tag "td" row;
  let key := Soup.get_text " " th in
  let value := Soup.get_text " " td in
  if decide (key ≠ "" ∧ value ≠ "") then Some (key, value) else None.

(** The fields of a metadata table, in the order of its rows: every [tr]
    below it, in document order. *)
Definition infobox_fields (infobox : node) : list (string * string) :=
  omap row_field (List.filter (is_tag "tr") (Soup.descendants infobox)).

(** A metadata table with one row per pair, and the document of the
    scenario with rows [Born], an empty key, [Died]. *)
Definition infobox_table (rows : list (string * string)) : node :=
  Tag "table" ["infobox"]
    (map (λ '(k, v), Tag "tr" [] [Tag "th" [] [NavigableString k];
                                  Tag "td" [] [NavigableString v]]) rows).

Definition born_died_document : node :=
  Tag "[document]" []
    [Tag "p" [] [NavigableString "A person."];
     infobox_table [("Born", "1 Jan 1900"); ("", "ignored"); ("Died", "2 Feb 2000")]].

(** Not empty, and no whitespace at either end. *)
Definition trimmed (s : string) : Prop :=
  ∃ c t u d, s = String c t ∧ Py.isspace c = false
             ∧ s = u +:+ String d "" ∧ Py.isspace d = false.

(** The no-break space. *)
Definition NBSP : string := String "160"%char "".

(** A document whose only table is not an infobox. *)
Definition wikitable_document : node :=
  Tag "[document]" []
    [Tag "table" ["wikitable"]
       [Tag "tr" [] [Tag "th" [] [NavigableString "Year"];
                     Tag "td" [] [NavigableString "1999"]]]].

(** A document with a plain table, then an infobox inside a [div], then a
    second infobox.  The rows of the first infobox: a header with spaces
    around it and a data cell holding a style sheet, text in pieces and a
    comment; a row without data cell; a row without header cell; a header
    of one no-break space; a data cell of blanks; the key [Name] twice, the
    second time with two data cells. *)
Definition mixed_document : node :=
  Tag "[document]" []
    [Tag "table" ["wikitable"]
       [Tag "tr" [] [Tag "th" [] [NavigableString "Year"];
                     Tag "td" [] [NavigableString "1999"]]];
     Tag "div" []
       [Tag "table" ["infobox"; "vcard"]
          [Tag "tbody" []
             [Tag "tr" []
                [Tag "th" [] [NavigableString "  Born "];
                 Tag "td" []
                   [Tag "style" [] [TypedString Stylesheet ".x{color:red}"];
                    NavigableString " 1 Jan ";
                    Tag "b" [] [NavigableString "1900 "];
                    TypedString Comment "note"]];
              Tag "tr" [] [Tag "th" [] [NavigableString "Only header"]];
              Tag "tr" [] [Tag "td" [] [NavigableString "only data"]];
              Tag "tr" [] [Tag "th" [] [NavigableString NBSP];
                           Tag "td" [] [NavigableString "ignored"]];
              Tag "tr" [] [Tag "th" [] [NavigableString "Empty"];
                           Tag "td" [] [NavigableString "  "]];
              Tag "tr" [] [Tag "th" [] [NavigableString "Name"];
                           Tag "td" [] [NavigableString "first"]];
              Tag "tr" [] [Tag "th" [] [NavigableString "Name"];
                           Tag "td" [] [NavigableString "second"];
                           Tag "td" [] [NavigableString "third"]]]]];
     Tag "table" ["infobox"]
       [Tag "tr" [] [Tag "th" [] [NavigableString "Other"];
                     Tag "td" [] [NavigableString "x"]]]].

(** A document without any recognized content element. *)
Definition bare_document : node :=
  Tag "[document]" [] [Tag "div" [] [NavigableString "hello"]].

(** A store holding one page, with the given children. *)
Definition single_page_store (i title : string) (blocks : list block) : notion :=
  {| db_pages := [ {| page_id := i; page_title := title;
                      children := blocks; archived := false |} ];
     calls := [];
     faults := [] |}.

(** The pages the discovery query of a run hands to the engine. *)
Definition discovered (database_id title : string) (w : notion) : list page :=
  match (get_database_pages database_id title w).1 with
  | Ok pages => pages
  | Raise _ => []
  end.

(** A primary page and its second part, one block each; the same store
    with the fourth request (the first append) failing. *)
Definition block_zero : block := make_block "zero" paragraph.
Definition block_one : block := make_block "one" paragraph.

Definition two_page_store : notion :=
  {| db_pages :=
       [ {| page_id := "p1"; page_title := "T";
            children := [block_zero]; archived := false |};
         {| page_id := "p2"; page_title := "T (Part 2)";
            children := [block_one]; archived := false |} ];
     calls := [];
     faults := [] |}.

Definition two_page_store_append_fails : notion :=
  {| db_pages := db_pages two_page_store;
     calls := [];
     faults := [false; false; false; true] |}.

(** The collected block sequence and the store at the entry of the [try]
    block, for the main page and the sorted part pages of a run. *)
Definition collection (database_id title : string) (main_page : page)
    (sorted : list page) (w : notion) : list block * notion :=
  let w1 := (get_database_pages database_id title w).2 in
  let main_run := get_page_blocks (page_id main_page) w1 in
  let main_blocks := match main_run.1 with Ok bs => bs | Raise _ => [] end in
  let collect_run := collect_blocks ([] ++ main_blocks) sorted main_run.2 in
  (match collect_run.1 with Ok bs => bs | Raise _ => [] end, collect_run.2).

(** Ordered by key: every element's key is at most the keys after it. *)
Definition key_le {A} (x y : Z * A) : Prop := (x.1 ≤ y.1)%Z.

(** The elements of a keyed list that carry the key [k], in list order. *)
Definition with_key {A} (k : Z) (l : list (Z * A)) : list (Z * A) :=
  List.filter (λ x, (x.1 =? k)%Z) l.

(** A page known by its title only. *)
Definition titled (title : string) (blocks : list block) : page :=
  {| page_id := title; page_title := title; children := blocks; archived := false |}.

(** A group whose title itself holds a part marker, listed by the store
    with the third part before the second. *)
Definition block_two : block := make_block "two" paragraph.
Definition block_three : block := make_block "three" paragraph.

Definition marked_title_store : notion :=
  {| db_pages :=
       [ titled "A (Part 1)" [block_zero];
         titled "A (Part 1) (Part 3)" [block_three];
         titled "A (Part 1) (Part 2)" [block_two] ];
     calls := [];
     faults := [] |}.

(** * The upload side: fetching, the database, the pages *)

(** ** [fetch_wikipedia_html]

    [get] stands for the HTTP request followed by [raise_for_status] and
    the parsing of the body: it maps the endpoint to the document or to the
    exception raised. *)
Definition fetch_wikipedia_html (url : string) (get : string → result node)
  : result (string * node) :=
  if negb (Py.contains "wikipedia.org/wiki/" url) then Raise ValueError
  else
    result_bind
      (match last (Py.split "/wiki/" url) with
       | Some title => Ok title
       | None => Raise IndexError
       end)
      (fun title =>
         let endpoint := "https://en.wikipedia.org/api/rest_v1/page/html/" +:+ title in
         result_bind (get endpoint) (fun html =>
         Ok (Py.replace "_" " " title, html))).

(** ** The workspace

    The store of the database in use together with the two module globals
    and the requests of the upload phase.  Those requests consume the
    outcome script of the store like every other request. *)

Inductive property_schema : Type :=
| title_schema
| rich_text_schema.

Inductive property_value : Type :=
| title_value (content : string)
| rich_text_value (content : string).

Inductive upload_call : Type :=
| DatabasesCreate (parent_page_id name : string)
    (properties : gmap string property_schema)
| PagesCreate (database_id : string)
    (properties : gmap string property_value) (children : list block).

Record workspace : Type := Workspace {
  store : notion;
  NOTION_PARENT_PAGE : string;
  NOTION_DATABASE_ID : option string;
  uploads : list upload_call
}.

Definition W (A : Type) : Type := workspace → result A * workspace.

Definition retW {A} (a : A) : W A := fun w => (Ok a, w).

Definition bindW {A B} (m : W A) (k : A → W B) : W B :=
  fun w =>
    match m w with
    | (Ok a, w') => k a w'
    | (Raise e, w') => (Raise e, w')
    end.

Definition try_exceptW {A} (m : W A) (handler : exn → W A) : W A :=
  fun w =>
    match m w with
    | (Ok a, w') => (Ok a, w')
    | (Raise e, w') => handler e w'
    end.

Global Instance W_ret : MRet W := @retW.
Global Instance W_bind : MBind W := λ A B k m, bindW m k.

Fixpoint for_eachW {X} (l : list X) (body : X → W unit) : W unit :=
  match l with
  | [] => retW tt
  | x :: l' => bindW (body x) (fun _ => for_eachW l' body)
  end.

(** A computation over the store, run on the store of the workspace. *)
Definition lift_store {A} (m : M A) : W A :=
  fun w =>
    let '(r, s) := m (store w) in
    (r, {| store := s; NOTION_PARENT_PAGE := NOTION_PARENT_PAGE w;
           NOTION_DATABASE_ID := NOTION_DATABASE_ID w; uploads := uploads w |}).

Definition set_database_id (i : string) : W unit :=
  fun w =>
    (Ok tt, {| store := store w; NOTION_PARENT_PAGE := NOTION_PARENT_PAGE w;
               NOTION_DATABASE_ID := Some i; uploads := uploads w |}).

Module Upload.

(** An id no page of the store has: one character longer than the longest. *)
Definition fresh_page_id (ps : list page) : string :=
  str_repeat "p" (S (list_max (map (fun p => String.length (page_id p)) ps))).

(** The display name of a created page: the text of its title property. *)
Definition title_of (properties : gmap string property_value) : string :=
  match properties !! "Name" with
  | Some (title_value content) => content
  | _ => ""
  end.

Definition with_store (w : workspace) (s : notion) (c : upload_call) : workspace :=
  {| store := s; NOTION_PARENT_PAGE := NOTION_PARENT_PAGE w;
     NOTION_DATABASE_ID := NOTION_DATABASE_ID w; uploads := uploads w ++ [c] |}.

(** One request of the upload phase: logged, failed when the script says
    so, else served on the pages. *)
Definition request {A} (c : upload_call) (serve : list page → A * list page) : W A :=
  fun w =>
    let s := store w in
    if default false (head (faults s))
    then (Raise APIError,
          with_store w {| db_pages := db_pages s; calls := calls s;
                          faults := tail (faults s) |} c)
    else
      let '(a, ps) := serve (db_pages s) in
      (Ok a,
       with_store w {| db_pages := ps; calls := calls s;
                       faults := tail (faults s) |} c).

(** [notion.databases.create]: the new database has no page; its id is
    assigned by the store. *)
Definition databases_create (parent_page_id name : string)
    (properties : gmap string property_schema) : W string :=
  fun w =>
    request (DatabasesCreate parent_page_id name properties)
      (fun _ => ("database-" +:+ Py.str_of_nat (length (uploads w)), [])) w.

(** [notion.pages.create]: a new page, after the pages the database has. *)
Definition pages_create (database_id : string)
    (properties : gmap string property_value) (blocks : list block) : W unit :=
  request (PagesCreate database_id properties blocks)
    (fun ps =>
       (tt, ps ++ [ {| page_id := fresh_page_id ps;
                       page_title := title_of properties;
                       children := blocks;
                       archived := false |} ])).

End Upload.

(** ** [create_database] *)

(** The [properties] dict: the title column, then one text column per
    infobox key, a later assignment replacing an earlier one. *)
Definition database_properties (columns : list string) : gmap string property_schema :=
  fold_left (fun properties col => <[col := rich_text_schema]> properties)
            columns {[ "Name" := title_schema ]}.

Definition create_database (name : string) (columns : list string) : W string :=
  fun w =>
    Upload.databases_create (NOTION_PARENT_PAGE w) name
      (database_properties columns) w.

(** ** [add_article_to_database] *)

(** The display name of the page holding the [i]-th chunk, [i >= 2]:
    [f"{title} (Part {i})"]. *)
Definition part_title (title : string) (i : nat) : string :=
  title +:+ " (Part " +:+ Py.str_of_nat i +:+ ")".

(** [enumerate(l, start)]. *)
Definition enumerate {A} (l : list A) (start : nat) : list (nat * A) :=
  zip (seq start (length l)) l.

(** The [page_properties] dict of the main page. *)
Definition main_page_properties (title : string) (infobox_data : gmap string string)
  : gmap string property_value :=
  fold_left (fun properties kv => <[kv.1 := rich_text_value kv.2]> properties)
            (map_to_list infobox_data) {[ "Name" := title_value title ]}.

(** The creation of the pages: the main page with the first chunk (or with
    no block when there is no chunk), then one page per further chunk. *)
Definition create_pages (database_id title : string)
    (page_properties : gmap string property_value)
    (page_chunks : list (list block)) : W unit :=
  let first_page_blocks :=
    match page_chunks with
    | chunk :: _ => (validate_blocks chunk).1
    | [] => []
    end in
  bindW (Upload.pages_create database_id page_properties first_page_blocks) (fun _ =>
  for_eachW (enumerate (tail page_chunks) 2)
    (fun '(i, chunk) =>
       let additional_page_properties :=
         {[ "Name" := title_value (part_title title i) ]} in
       let chunk_blocks := (validate_blocks chunk).1 in
       Upload.pages_create database_id additional_page_properties chunk_blocks)).

(** The part of the function after the database is known. *)
Definition import_pages (database_id title : string) (html : node)
    (infobox_data : gmap string string) : W unit :=
  fun w =>
    match parse_html_to_blocks html 90 with
    | Raise e => (Raise e, w)
    | Ok page_chunks =>
        let page_properties := main_page_properties title infobox_data in
        try_exceptW
          (bindW (create_pages database_id title page_properties page_chunks) (fun _ =>
           bindW (lift_store (combine_pages_into_single database_id title infobox_data))
                 (fun combined_page_id => retW tt)))
          (fun _ => retW tt) w
    end.

Definition add_article_to_database (url : string) (get : string → result node)
  : W unit :=
  fun w =>
    match fetch_wikipedia_html url get with
    | Raise e => (Raise e, w)
    | Ok (title, html) =>
        let infobox_data := extract_infobox html in
        match NOTION_DATABASE_ID w with
        | Some database_id => import_pages database_id title html infobox_data w
        | None =>
            let db_name := "Wikipedia: " +:+ title in
            let columns := (map_to_list infobox_data).*1 in
            match create_database db_name columns w with
            | (Raise _, w') => (Ok tt, w')
            | (Ok database_id, w') =>
                bindW (set_database_id database_id) (fun _ =>
                import_pages database_id title html infobox_data) w'
            end
        end
    end.

(** * Further vocabulary *)

(** Every character of a string passes a test. *)
Fixpoint str_forall (P : ascii → bool) (s : string) : bool :=
  match s with
  | EmptyString => true
  | String c s' => P c && str_forall P s'
  end.

(** In a block sequence every major heading comes right after a divider. *)
Definition headings_follow_dividers (l : list block) : Prop :=
  ∀ i b, l !! i = Some b → type b = heading_2 →
         ∃ j, i = S j ∧ l !! j = Some make_divider.

(** The two tests of the classification loop. *)
Definition is_main (title : string) (p : page) : bool :=
  String.eqb (page_title p) title.

Definition is_part (title : string) (p : page) : bool :=
  negb (is_main title p) && Py.contains (title +:+ " (Part") (page_title p).

(** Ascending part numbers, on pages. *)
Definition part_le (p q : page) : Prop :=
  ∃ a b, part_number p = Ok a ∧ part_number q = Ok b ∧ (a ≤ b)%Z.

(** The pages of a list whose part number is [k], in list order. *)
Definition with_part_number (k : Z) (l : list page) : list page :=
  List.filter (λ p, match part_number p with
                    | Ok a => (a =? k)%Z
                    | Raise _ => false
                    end) l.

Definition is_archive_call (c : call) : bool :=
  match c with PagesUpdateArchived _ => true | _ => false end.

Definition is_write_call (c : call) : bool :=
  match c with
  | BlocksChildrenAppend _ _ | PagesUpdateArchived _ => true
  | _ => false
  end.

(** What a run that completes on a healthy store makes of a page [q]: the
    main page gets the collected blocks after its children, the sorted part
    pages are archived, every other page is left as it is. *)
Definition merged_page (m : page) (sorted : list page) (all_blocks : list block)
    (q : page) : page :=
  let q' := if Store.has_id (page_id m) q
            then Store.extend_children all_blocks q else q in
  if bool_decide (page_id q ∈ map page_id sorted)
  then Store.set_archived q' else q'.

(** The requests of such a run, in the order they are issued. *)
Definition merge_requests (database_id title : string) (m : page)
    (sorted : list page) (all_blocks : list block) : list call :=
  [DatabasesQuery database_id title; BlocksChildrenList (page_id m)]
  ++ map (λ p, BlocksChildrenList (page_id p)) sorted
  ++ map (BlocksChildrenAppend (page_id m)) (chunks all_blocks batch_size)
  ++ map (λ p, PagesUpdateArchived (page_id p)) sorted.

(** ** The input check of the GUI: [validate_inputs] (gui.py)

    The three arguments are the contents of the form fields; the result is
    the message shown in the error box, or [Valid] when the function
    returns [True]. *)
Inductive validation : Type :=
| Valid
| Invalid (message : string).

Definition validate_inputs (url_var token_var page_id_var : string) : validation :=
  let url := Py.strip url_var in
  let token := Py.strip token_var in
  let page_id := Py.strip page_id_var in
  if negb (Py.truthy url) then Invalid "Please enter a Wikipedia URL"
  else if negb (Py.startswith "https://en.wikipedia.org/wiki/" url)
  then Invalid "Please enter a valid Wikipedia URL (https://en.wikipedia.org/wiki/...)"
  else if negb (Py.truthy token)
  then Invalid "Please enter your Notion integration token"
  else if negb (Py.truthy page_id)
  then Invalid "Please enter your Notion parent page ID"
  else Valid.

(** No character of the string is [c]. *)
Definition without_char (c : ascii) (s : string) : bool :=
  str_forall (λ a, negb (Ascii.eqb c a)) s.

(** The page a served [pages.create] adds to the pages [ps]. *)
Definition created_page (ps : list page)
    (item : gmap string property_value * list block) : page :=
  {| page_id := Upload.fresh_page_id ps;
     page_title := Upload.title_of item.1;
     children := item.2;
     archived := false |}.

(** The pages after a series of served creations. *)
Fixpoint add_pages (ps : list page)
    (items : list (gmap string property_value * list block)) : list page :=
  match items with
  | [] => ps
  | item :: items' => add_pages (ps ++ [created_page ps item]) items'
  end.

(** The properties and children of the pages [create_pages] asks for. *)
Definition page_items (title : string)
    (page_properties : gmap string property_value)
    (page_chunks : list (list block))
  : list (gmap string property_value * list block) :=
  (page_properties,
   match page_chunks with
   | chunk :: _ => (validate_blocks chunk).1
   | [] => []
   end)
  :: map (λ '(i, chunk),
            ({[ "Name" := title_value (part_title title i) ]},
             (validate_blocks chunk).1))
         (enumerate (tail page_chunks) 2).

Definition create_call (database_id : string)
    (item : gmap string property_value * list block) : upload_call :=
  PagesCreate database_id item.1 item.2.

(** The column type a property value needs. *)
Definition schema_of (v : property_value) : property_schema :=
  match v with
  | title_value _ => title_schema
  | rich_text_value _ => rich_text_schema
  end.

(** A document of one hundred minor headings: 102 blocks, two pages. *)
Definition hundred_headings : node :=
  Tag "[document]" [] (replicate 100 (Tag "h3" [] [NavigableString "Section"])).

(** * Properties *)

(** ** The primitives on concrete inputs *)

Example split_part_marker :
  Py.split "(Part " "Alan Turing (Part 10)" = ["Alan Turing "; "10)"].
Proof. reflexivity. Qed.

Example split_overlapping : Py.split "aa" "aaaaa" = [""; ""; "a"].
Proof. reflexivity. Qed.

Example split_no_separator : Py.split "(Part " "T (Partial)" = ["T (Partial)"].
Proof. reflexivity. Qed.

Example replace_edit_markers :
  Py.replace "[edit]" "" "History[edit] of [edit]x" = "History of x".
Proof. reflexivity. Qed.

Example strip_both_ends :
  Py.strip "  a  b " = "a  b"
  ∧ Py.strip (NBSP +:+ "a" +:+ NBSP +:+ "b " +:+ NBSP) = "a" +:+ NBSP +:+ "b"
  ∧ Py.strip NBSP = "".
Proof. repeat split; reflexivity. Qed.

Example range_200_90 : Py.range 200 90 = [0; 90; 180].
Proof. reflexivity. Qed.

Example slice_past_the_end : Py.slice [1; 2; 3; 4; 5] 3 10 = [4; 5].
Proof. reflexivity. Qed.

Example int_examples :
  int " 12 " = Ok 12%Z ∧ int "-1_0" = Ok (-10)%Z ∧ int "007" = Ok 7%Z
  ∧ int "" = Raise ValueError ∧ int "1__0" = Raise ValueError
  ∧ int "2a" = Raise ValueError ∧ int (NBSP +:+ "12") = Ok 12%Z
  ∧ int (String "028" "7") = Raise ValueError.
Proof. repeat split; reflexivity. Qed.

Example get_text_heading :
  Soup.get_text " "
    (Tag "h2" [] [NavigableString " History ";
                  Tag "span" [] [NavigableString "[edit]"]])
  = "History [edit]".
Proof. reflexivity. Qed.

Example get_text_string_classes :
  Soup.get_text " "
    (Tag "td" []
       [Tag "style" [] [TypedString Stylesheet ".x{color:red}"];
        TypedString Comment "a comment";
        NavigableString (NBSP +:+ "1900" +:+ NBSP);
        NavigableString NBSP;
        Tag "script" [] [NavigableString "f()"];
        TypedString CData " born "])
  = "1900 born"
  ∧ Soup.get_text " " (Tag "style" [] [TypedString Stylesheet ".x{color:red}"])
    = ".x{color:red}"
  ∧ Soup.get_text " " (Tag "p" [] [TypedString TemplateString "in a template"])
    = "".
Proof. repeat split; reflexivity. Qed.

Example truncation_warning_text :
  truncation_warning paragraph 2500
  = "Warning: Truncating paragraph block from 2500 to 2000 characters".
Proof. by vm_compute. Qed.

(** ** Facts about the sequence primitives *)

Section range_facts.

Lemma range_len_0 start stop step :
  0 < step → stop ≤ start → range_len start stop step = 0.
Proof.
  intros Hs Hle. unfold range_len.
  replace (stop - start + step - 1) with (step - 1) by lia.
  apply Nat.div_small. lia.
Qed.

Lemma range_len_S start stop step :
  0 < step → start < stop →
  range_len start stop step = S (range_len (start + step) stop step).
Proof.
  intros Hs Hlt. unfold range_len.
  destruct (decide (step ≤ stop - start)) as [Hge|Hsmall].
  - replace (stop - start + step - 1)
      with ((stop - (start + step) + step - 1) + 1 * step) by lia.
    rewrite Nat.div_add by lia. lia.
  - replace (stop - (start + step) + step - 1) with (step - 1) by lia.
    rewrite (Nat.div_small (step - 1)) by lia.
    replace (stop - start + step - 1)
      with ((stop - start - 1) + 1 * step) by lia.
    rewrite Nat.div_add by lia.
    rewrite Nat.div_small by lia. lia.
Qed.

Lemma range_from_seq fuel start stop step :
  0 < step → stop - start ≤ fuel →
  Py.range_from fuel start stop step
  = map (λ k, start + k * step) (seq 0 (range_len start stop step)).
Proof.
  intros Hs. revert start.
  induction fuel as [|fuel IH]; intros start Hfuel.
  - rewrite range_len_0 by lia. done.
  - cbn [Py.range_from].
    destruct (Nat.ltb_spec start stop) as [Hlt|Hge].
    + rewrite range_len_S by done. cbn [seq map].
      rewrite IH by lia. f_equal; [lia|].
      rewrite <- seq_shift, map_map.
      apply map_ext. intros k. lia.
    + rewrite range_len_0 by lia. done.
Qed.

Lemma range_seq stop step :
  0 < step →
  Py.range stop step = map (λ k, k * step) (seq 0 ((stop + step - 1) / step)).
Proof.
  intros Hs. unfold Py.range. rewrite range_from_seq by lia.
  unfold range_len. rewrite Nat.sub_0_r. done.
Qed.

(** The count is the rounded-up quotient. *)
Lemma div_up_bounds n step :
  0 < step →
  let c := (n + step - 1) / step in
  n ≤ c * step ∧ (0 < n → (c - 1) * step < n).
Proof.
  intros Hs c.
  pose proof (Nat.div_mod (n + step - 1) step ltac:(lia)) as Hdm.
  pose proof (Nat.mod_upper_bound (n + step - 1) step ltac:(lia)) as Hm.
  fold c in Hdm. split; [nia|]. intros Hn.
  destruct c as [|c']; [nia|]. cbn [Nat.sub]. rewrite Nat.sub_0_r. nia.
Qed.

End range_facts.

Section chunk_facts.
Context {A : Type}.
Implicit Types l : list A.

Lemma slice_step l i step : Py.slice l i (i + step) = take step (drop i l).
Proof. unfold Py.slice. f_equal. lia. Qed.

Lemma chunks_seq l step :
  0 < step →
  chunks l step
  = map (λ k, take step (drop (k * step) l))
        (seq 0 ((length l + step - 1) / step)).
Proof.
  intros Hs. unfold chunks. rewrite range_seq by done.
  rewrite map_map. apply map_ext. intros k. apply slice_step.
Qed.

Lemma concat_take_drop l step n :
  concat (map (λ k, take step (drop (k * step) l)) (seq 0 n))
  = take (n * step) l.
Proof.
  induction n as [|n IH]; [done|].
  rewrite seq_S, map_app, concat_app, IH. cbn [map concat Nat.add].
  rewrite app_nil_r, take_take_drop. f_equal. lia.
Qed.

Lemma chunks_concat l step : 0 < step → concat (chunks l step) = l.
Proof.
  intros Hs. rewrite chunks_seq, concat_take_drop by done.
  apply take_ge. by apply div_up_bounds.
Qed.

Lemma chunks_length l step :
  0 < step → length (chunks l step) = (length l + step - 1) / step.
Proof. intros Hs. by rewrite chunks_seq, length_map, length_seq. Qed.

Lemma chunks_lookup l step k :
  0 < step → k < (length l + step - 1) / step →
  chunks l step !! k = Some (Py.slice l (k * step) (k * step + step)).
Proof.
  intros Hs Hk. rewrite chunks_seq by done.
  rewrite list_lookup_fmap, lookup_seq_lt by done.
  cbn. by rewrite slice_step.
Qed.

Lemma chunks_bounded l step :
  Forall (λ c, length c ≤ step) (chunks l step).
Proof.
  unfold chunks. apply Forall_fmap, Forall_forall. intros i _. cbn.
  unfold Py.slice. rewrite length_take. lia.
Qed.

(** Every slice but the last is full, and the last is not empty. *)
Lemma chunks_sizes l step k :
  0 < step → k < (length l + step - 1) / step →
  length (Py.slice l (k * step) (k * step + step))
  = if decide (S k = (length l + step - 1) / step)
    then length l - k * step else step.
Proof.
  intros Hs Hk. rewrite slice_step, length_take, length_drop.
  pose proof (div_up_bounds (length l) step Hs) as [Hub Hlb].
  cbn zeta in Hub, Hlb.
  set (c := (length l + step - 1) / step) in *.
  assert (0 < length l) as Hn.
  { destruct (length l); [|lia]. subst c.
    rewrite Nat.div_small in Hk by lia. lia. }
  specialize (Hlb Hn).
  case_decide as Hlast.
  - assert (c - 1 = k) as Hc by lia. rewrite Hc in Hlb. nia.
  - assert (S k * step ≤ (c - 1) * step) by (apply Nat.mul_le_mono_r; lia).
    lia.
Qed.

Lemma sum_lengths_concat (ls : list (list A)) :
  sum_list (map length ls) = length (concat ls).
Proof.
  induction ls as [|x ls IH]; [done|].
  cbn. rewrite length_app. lia.
Qed.

End chunk_facts.

Section string_facts.
Implicit Types s t : string.

Lemma str_app_cons c s t : String c s +:+ t = String c (s +:+ t).
Proof. done. Qed.

Lemma str_length_app s t :
  String.length (s +:+ t) = String.length s + String.length t.
Proof.
  induction s as [|c s IH]; [done|]. rewrite str_app_cons. cbn. by rewrite IH.
Qed.

Lemma str_app_nil_r s : s +:+ "" = s.
Proof. induction s as [|c s IH]; [done|]. by rewrite str_app_cons, IH. Qed.

Lemma str_app_assoc s t u : (s +:+ t) +:+ u = s +:+ t +:+ u.
Proof. induction s as [|c s IH]; [done|]. by rewrite !str_app_cons, IH. Qed.

Lemma str_take_length n s :
  String.length (Py.str_take n s) = n `min` String.length s.
Proof.
  revert s. induction n as [|n IH]; intros [|c s]; cbn; try done.
  by rewrite IH.
Qed.

Lemma str_drop_length n s :
  String.length (Py.str_drop n s) = String.length s - n.
Proof.
  revert s. induction n as [|n IH]; intros [|c s]; cbn; try done.
Qed.

Lemma str_take_ge n s : String.length s ≤ n → Py.str_take n s = s.
Proof.
  revert s. induction n as [|n IH]; intros [|c s]; cbn; try done; [lia|].
  intros Hle. rewrite IH; [done|lia].
Qed.

Lemma str_take_take_drop n m s :
  Py.str_take n s +:+ Py.str_take m (Py.str_drop n s) = Py.str_take (n + m) s.
Proof.
  revert s. induction n as [|n IH]; intros s; [done|].
  destruct s as [|c s]; cbn; [by destruct m|].
  by rewrite str_app_cons, IH.
Qed.

Lemma str_take_idemp n s : Py.str_take n (Py.str_take n s) = Py.str_take n s.
Proof. apply str_take_ge. rewrite str_take_length. lia. Qed.

Lemma str_slice_step s i step :
  Py.str_slice s i (i + step) = Py.str_take step (Py.str_drop i s).
Proof. unfold Py.str_slice. f_equal. lia. Qed.

Lemma join_empty (parts : list string) :
  Py.join "" parts = foldr String.app "" parts.
Proof.
  induction parts as [|p [|q parts] IH]; [done| |].
  - cbn. by rewrite str_app_nil_r.
  - change (Py.join "" (p :: q :: parts))
      with (p +:+ "" +:+ Py.join "" (q :: parts)).
    rewrite IH. done.
Qed.

Lemma foldr_app_take_drop s step n :
  foldr String.app ""
    (map (λ k, Py.str_take step (Py.str_drop (k * step) s)) (seq 0 n))
  = Py.str_take (n * step) s.
Proof.
  induction n as [|n IH]; [done|].
  rewrite seq_S, map_app, foldr_app. cbn [map foldr Nat.add].
  rewrite str_app_nil_r.
  transitivity
    (foldr String.app "" (map (λ k, Py.str_take step (Py.str_drop (k * step) s)) (seq 0 n))
     +:+ Py.str_take step (Py.str_drop (n * step) s)).
  - generalize (Py.str_take step (Py.str_drop (n * step) s)) as last.
    generalize (map (λ k, Py.str_take step (Py.str_drop (k * step) s)) (seq 0 n)) as l.
    induction l as [|x l IHl]; intros last; [done|].
    cbn [foldr]. by rewrite IHl, str_app_assoc.
  - rewrite IH, str_take_take_drop. f_equal. lia.
Qed.

End string_facts.

#[local] Arguments Py.str_take : simpl never.
#[local] Arguments Py.str_drop : simpl never.
#[local] Arguments MAX_LENGTH : simpl never.

(** ** Block encoder: chunking *)

Lemma safe_chunk_text_seq (text : string) (bt : block_type) :
  MAX_LENGTH < String.length text →
  safe_chunk_text text bt
  = map (λ k, make_block (Py.str_slice text (k * 1800) (k * 1800 + 1800)) bt)
        (seq 0 ((String.length text + 1799) / 1800)).
Proof.
  intros Hlong. unfold safe_chunk_text.
  destruct (Nat.leb_spec (String.length text) MAX_LENGTH) as [Hle|_]; [lia|].
  rewrite range_seq by lia.
  replace (String.length text + 1800 - 1) with (String.length text + 1799) by lia.
  rewrite map_map. apply map_ext. intros k. cbn beta zeta.
  destruct (Nat.ltb_spec MAX_LENGTH
              (String.length (Py.str_slice text (k * 1800) (k * 1800 + 1800))))
    as [Hover|_]; [|done].
  rewrite str_slice_step, str_take_length in Hover. unfold MAX_LENGTH in Hover. lia.
Qed.

(** C5. For every text longer than [MAX_LENGTH] (2000) [safe_chunk_text]
    cuts it at the fixed stride 1800: the k-th block holds
    [text[1800k : 1800k + 1800]], there are ceil(len/1800) of them, all of
    the requested kind, each text is at most 2000 characters long, and the
    texts joined in order give the original string back; a text of 4500
    characters yields exactly 3 blocks. *)
Theorem safe_chunk_text_long (text : string) (bt : block_type) :
  MAX_LENGTH < String.length text →
  let blocks := safe_chunk_text text bt in
  blocks
  = map (λ k, make_block (Py.str_slice text (k * 1800) (k * 1800 + 1800)) bt)
        (seq 0 ((String.length text + 1799) / 1800))
  ∧ length blocks = (String.length text + 1799) / 1800
  ∧ Forall (λ b, type b = bt ∧ is_Some (rich_text b)
                 ∧ String.length (block_text b) ≤ MAX_LENGTH) blocks
  ∧ Py.join "" (map block_text blocks) = text
  ∧ (String.length text = 4500 → length blocks = 3).
Proof.
  intros Hlong blocks. subst blocks.
  rewrite safe_chunk_text_seq by done.
  split; [done|].
  assert (length
            (map (λ k, make_block (Py.str_slice text (k * 1800) (k * 1800 + 1800)) bt)
                 (seq 0 ((String.length text + 1799) / 1800)))
          = (String.length text + 1799) / 1800) as Hlen.
  { by rewrite length_map, length_seq. }
  split; [done|]. split; [|split].
  - apply Forall_fmap, Forall_forall. intros k _. cbn.
    split; [done|]. split; [by eexists|].
    rewrite str_slice_step, str_take_length. unfold MAX_LENGTH. lia.
  - rewrite join_empty, map_map. cbn.
    erewrite map_ext; [|intros k; apply str_slice_step].
    rewrite foldr_app_take_drop. apply str_take_ge.
    pose proof (div_up_bounds (String.length text) 1800 ltac:(lia)) as [Hub _].
    cbn zeta in Hub.
    replace (String.length text + 1800 - 1) with (String.length text + 1799) in Hub by lia.
    done.
  - intros H4500. rewrite Hlen, H4500. by vm_compute.
Qed.

Lemma safe_chunk_text_long_witness :
  length (safe_chunk_text (str_repeat "x" 4500) paragraph) = 3.
Proof.
  assert (MAX_LENGTH < String.length (str_repeat "x" 4500)) as Hlong.
  { apply Nat.ltb_lt. by vm_compute. }
  apply (safe_chunk_text_long (str_repeat "x" 4500) paragraph Hlong).
  by vm_compute.
Defined.

(** ** Paginator *)

Lemma page_chunks_chunks (blocks : list block) (max_blocks_per_page : Z) :
  (0 < max_blocks_per_page)%Z →
  page_chunks blocks max_blocks_per_page
  = Ok (chunks blocks (Z.to_nat max_blocks_per_page)).
Proof.
  intros Hpos. unfold page_chunks.
  destruct (Z.eqb_spec max_blocks_per_page 0) as [->|_]; [lia|].
  destruct (Z.ltb_spec max_blocks_per_page 0) as [Hneg|_]; [lia|].
  done.
Qed.

(** C2. For every flat block sequence and every positive
    [max_blocks_per_page] the paginating loop of [parse_html_to_blocks]
    returns pages (it does not raise) such that every page has at most
    [max_blocks_per_page] blocks, the page lengths sum to the length of the
    sequence, and the pages concatenated in order are the sequence itself;
    200 blocks with [max_blocks_per_page = 90] give pages of sizes
    90, 90, 20. *)
Theorem page_chunks_partition (blocks : list block) (max_blocks_per_page : Z) :
  (0 < max_blocks_per_page)%Z →
  ∃ pages,
    page_chunks blocks max_blocks_per_page = Ok pages
    ∧ Forall (λ p, (Z.of_nat (length p) ≤ max_blocks_per_page)%Z) pages
    ∧ sum_list (map length pages) = length blocks
    ∧ concat pages = blocks
    ∧ (length blocks = 200 → max_blocks_per_page = 90%Z →
       map length pages = [90; 90; 20]).
Proof.
  intros Hpos. exists (chunks blocks (Z.to_nat max_blocks_per_page)).
  assert (0 < Z.to_nat max_blocks_per_page) as Hstep by lia.
  split; [by apply page_chunks_chunks|]. split; [|split; [|split]].
  - eapply Forall_impl; [apply chunks_bounded|]. cbn. intros p Hp. lia.
  - by rewrite sum_lengths_concat, chunks_concat.
  - by apply chunks_concat.
  - intros H200 ->. rewrite chunks_seq by done. rewrite H200.
    change (Z.to_nat 90) with 90.
    change ((200 + 90 - 1) / 90) with 3.
    cbn [seq map]. rewrite !length_take, !length_drop, H200.
    repeat f_equal; lia.
Qed.

Lemma page_chunks_partition_witness :
  ∃ pages,
    page_chunks (replicate 200 make_divider) 90 = Ok pages
    ∧ map length pages = [90; 90; 20].
Proof.
  destruct (page_chunks_partition (replicate 200 make_divider) 90 ltac:(lia))
    as (pages & Hrun & _ & _ & _ & Hsizes).
  exists pages. split; [exact Hrun|].
  apply Hsizes; [by vm_compute|done].
Defined.

Corollary parse_html_to_blocks_pages (soup : node) (max_blocks_per_page : Z) :
  (0 < max_blocks_per_page)%Z →
  ∃ pages,
    parse_html_to_blocks soup max_blocks_per_page = Ok pages
    ∧ concat pages = all_blocks soup
    ∧ Forall (λ p, length p ≤ Z.to_nat max_blocks_per_page) pages.
Proof.
  intros Hpos. exists (chunks (all_blocks soup) (Z.to_nat max_blocks_per_page)).
  split; [by apply page_chunks_chunks|].
  split; [apply chunks_concat; lia|apply chunks_bounded].
Qed.

(** ** Append-validation guard *)

Lemma validate_block_clamped (b : block) :
  (validate_block b).1 = clamped b.
Proof.
  unfold validate_block, clamped. destruct b as [t [text|] i]; cbn [rich_text type icon]; [|done].
  destruct (Nat.ltb_spec MAX_LENGTH (String.length text)) as [Hlong|Hshort]; [done|].
  cbn [fst fmap option_fmap option_map]. by rewrite str_take_ge.
Qed.

Lemma validate_block_printed (b : block) :
  (validate_block b).2
  = if over_length b
    then [truncation_warning (type b) (String.length (block_text b))]
    else [].
Proof.
  unfold validate_block, over_length, block_text.
  destruct (rich_text b) as [text|]; [|done].
  by destruct (MAX_LENGTH <? String.length text).
Qed.

Lemma validate_block_ok (b : block) :
  text_len_ok b → validate_block b = (b, []).
Proof.
  unfold validate_block, text_len_ok. destruct (rich_text b) as [text|]; [|done].
  intros Hle. by destruct (Nat.ltb_spec MAX_LENGTH (String.length text)); [lia|].
Qed.

Lemma clamped_ok (b : block) : text_len_ok (clamped b).
Proof.
  unfold text_len_ok, clamped. cbn. destruct (rich_text b) as [text|]; [|done].
  cbn. rewrite str_take_length. lia.
Qed.

Lemma validate_blocks_fst (blocks : list block) :
  (validate_blocks blocks).1 = map clamped blocks.
Proof.
  induction blocks as [|b blocks IH]; [done|].
  cbn [validate_blocks map].
  pose proof (validate_block_clamped b) as Hb.
  destruct (validate_block b) as [v p], (validate_blocks blocks) as [vs ps].
  cbn in *. by rewrite Hb, IH.
Qed.

Lemma validate_blocks_snd (blocks : list block) :
  (validate_blocks blocks).2
  = map (λ b, truncation_warning (type b) (String.length (block_text b)))
        (List.filter over_length blocks).
Proof.
  induction blocks as [|b blocks IH]; [done|].
  cbn [validate_blocks List.filter].
  pose proof (validate_block_printed b) as Hb.
  destruct (validate_block b) as [v p], (validate_blocks blocks) as [vs ps].
  cbn in *. rewrite Hb, IH. by destruct (over_length b).
Qed.

(** C4. For every list of blocks, no block is dropped by [validate_blocks];
    the i-th output block is the i-th input block with the same type and
    icon; every output block that carries rich text has a text of at most
    [MAX_LENGTH] (2000) characters; the text of an over-length block is cut
    to its first 2000 characters, hence to exactly 2000, a shorter one is
    kept as it is; and one warning is printed per over-length block, in
    order. *)
Theorem validate_blocks_bound (blocks : list block) :
  let validated := (validate_blocks blocks).1 in
  let printed := (validate_blocks blocks).2 in
  length validated = length blocks
  ∧ Forall text_len_ok validated
  ∧ (∀ i b, blocks !! i = Some b →
       ∃ v, validated !! i = Some v
            ∧ type v = type b ∧ icon v = icon b
            ∧ (rich_text b = None → rich_text v = None)
            ∧ (∀ text, rich_text b = Some text →
                 if MAX_LENGTH <? String.length text
                 then rich_text v = Some (Py.str_take MAX_LENGTH text)
                      ∧ String.length (block_text v) = MAX_LENGTH
                 else rich_text v = Some text))
  ∧ printed
    = map (λ b, truncation_warning (type b) (String.length (block_text b)))
          (List.filter over_length blocks).
Proof.
  cbn zeta. rewrite validate_blocks_fst, validate_blocks_snd.
  split; [by rewrite length_map|]. split; [|split; [|done]].
  - apply Forall_fmap, Forall_forall. intros b _. apply clamped_ok.
  - intros i b Hi. exists (clamped b). rewrite list_lookup_fmap, Hi.
    split; [done|]. split; [done|]. split; [done|]. split.
    + unfold clamped. cbn. by intros ->.
    + intros text Htext. unfold clamped, block_text.
      cbn [rich_text]. rewrite Htext.
      cbn [fmap option_fmap option_map from_option id].
      destruct (Nat.ltb_spec MAX_LENGTH (String.length text)) as [Hlong|Hshort].
      * split; [done|]. rewrite str_take_length. lia.
      * by rewrite str_take_ge.
Qed.

Lemma validate_blocks_bound_witness :
  (validate_blocks [make_block (str_repeat "x" 2001) paragraph; make_divider]).1
  !! 0 = Some (make_block (str_repeat "x" 2000) paragraph).
Proof.
  destruct (validate_blocks_bound
              [make_block (str_repeat "x" 2001) paragraph; make_divider])
    as (_ & _ & Hat & _).
  destruct (Hat 0 _ eq_refl) as (v & Hv & Hty & Hic & _ & Htext).
  specialize (Htext _ eq_refl).
  rewrite Hv. f_equal. destruct v as [t r i]. cbn in Hty, Hic, Htext.
  replace (MAX_LENGTH <? String.length (str_repeat "x" 2001)) with true in Htext
    by (by vm_compute).
  destruct Htext as [-> _]. rewrite Hty, Hic. by vm_compute.
Defined.

(** C10. [validate_blocks] preserves the structure and is idempotent: the
    output has the length of the input, its i-th block stands for the i-th
    input block (same type and icon), a block whose text is already at most
    2000 characters long comes out unchanged, and validating the output
    again returns it unchanged without printing any warning. *)
Theorem validate_blocks_idempotent (blocks : list block) :
  let validated := (validate_blocks blocks).1 in
  length validated = length blocks
  ∧ (∀ i b, blocks !! i = Some b →
       ∃ v, validated !! i = Some v ∧ type v = type b ∧ icon v = icon b
            ∧ (text_len_ok b → v = b))
  ∧ validate_blocks validated = (validated, []).
Proof.
  cbn zeta. rewrite validate_blocks_fst.
  split; [by rewrite length_map|]. split.
  - intros i b Hi. exists (clamped b). rewrite list_lookup_fmap, Hi.
    split; [done|]. split; [done|]. split; [done|].
    intros Hok. rewrite <- validate_block_clamped. by rewrite validate_block_ok.
  - induction blocks as [|b blocks IH]; [done|].
    cbn [map validate_blocks].
    rewrite (validate_block_ok (clamped b)) by apply clamped_ok.
    by rewrite IH.
Qed.

Lemma validate_blocks_idempotent_witness :
  let blocks := [make_block "short" paragraph;
                 make_block (str_repeat "x" 2001) heading_2] in
  (validate_blocks blocks).1 !! 0 = Some (make_block "short" paragraph)
  ∧ validate_blocks (validate_blocks blocks).1 = ((validate_blocks blocks).1, []).
Proof.
  intros blocks.
  destruct (validate_blocks_idempotent blocks) as (_ & Hat & Hidem).
  split; [|exact Hidem].
  destruct (Hat 0 _ eq_refl) as (v & Hv & _ & _ & Hsame).
  rewrite Hv. f_equal. apply Hsame. unfold text_len_ok. cbn. unfold MAX_LENGTH. lia.
Defined.

(** ** Structured-field extractor *)

Lemma truthy_nonempty (s : string) : Py.truthy s = true ↔ s ≠ "".
Proof. by destruct s. Qed.

Section strip_facts.
Implicit Types (s t u : string) (c d : ascii).

Lemma lstrip_cases s :
  Py.lstrip s = "" ∨ ∃ c t, Py.lstrip s = String c t ∧ Py.isspace c = false.
Proof.
  unfold Py.lstrip. induction s as [|c s IH]; [by left|]. cbn [Py.lstrip_by].
  destruct (Py.isspace c) eqn:Hc; [exact IH|]. right. by exists c, s.
Qed.

Lemma rstrip_cons c s :
  Py.isspace c = false → Py.rstrip (String c s) = String c (Py.rstrip s).
Proof.
  intros Hc. unfold Py.rstrip. cbn [Py.rstrip_by].
  destruct (Py.rstrip_by Py.isspace s); by rewrite ?Hc.
Qed.

Lemma rstrip_cases s :
  Py.rstrip s = ""
  ∨ ∃ t c, Py.rstrip s = t +:+ String c "" ∧ Py.isspace c = false.
Proof.
  unfold Py.rstrip. induction s as [|a s IH]; [by left|]. cbn [Py.rstrip_by].
  destruct IH as [->|(t & c & -> & Hc)].
  - destruct (Py.isspace a) eqn:Ha; [by left|]. right. by exists "", a.
  - right. exists (String a t), c. split; [|done]. by destruct t.
Qed.

Lemma rstrip_snoc s c :
  Py.isspace c = false → Py.rstrip (s +:+ String c "") = s +:+ String c "".
Proof.
  intros Hc. unfold Py.rstrip. induction s as [|a s IH].
  - change ("" +:+ String c "") with (String c ""). cbn [Py.rstrip_by].
    by rewrite Hc.
  - rewrite str_app_cons. cbn [Py.rstrip_by]. rewrite IH. by destruct s.
Qed.

Lemma strip_cases s : Py.strip s = "" ∨ trimmed (Py.strip s).
Proof.
  unfold Py.strip. destruct (lstrip_cases s) as [->|(c & t & -> & Hc)]; [by left|].
  right. destruct (rstrip_cases (String c t)) as [Hempty|(u & d & Hu & Hd)].
  - by rewrite rstrip_cons in Hempty.
  - exists c, (Py.rstrip t), u, d. by rewrite <- Hu, rstrip_cons.
Qed.

Lemma strip_trimmed s : trimmed s → Py.strip s = s.
Proof.
  intros (c & t & u & d & Hs & Hc & Hu & Hd). unfold Py.strip.
  assert (Py.lstrip s = s) as ->.
  { rewrite Hs. unfold Py.lstrip. cbn [Py.lstrip_by]. by rewrite Hc. }
  rewrite Hu. by apply rstrip_snoc.
Qed.

Lemma join_trimmed sep (p : string) (ps : list string) :
  Forall trimmed (p :: ps) → trimmed (Py.join sep (p :: ps)).
Proof.
  revert p. induction ps as [|q ps IH]; intros p Hall.
  - by apply Forall_cons in Hall as [Hp _].
  - apply Forall_cons in Hall as [(c & t & u & d & Hp & Hc & _ & _) Hrest].
    destruct (IH q Hrest) as (_ & _ & u' & d' & _ & _ & Hj & Hd').
    change (Py.join sep (p :: q :: ps)) with (p +:+ sep +:+ Py.join sep (q :: ps)).
    exists c, (t +:+ sep +:+ Py.join sep (q :: ps)), (p +:+ sep +:+ u'), d'.
    split; [by rewrite Hp at 1|]. split; [done|]. split; [|done].
    by rewrite Hj, !str_app_assoc.
Qed.

(** The text of an element has no whitespace at either end. *)
Lemma get_text_stripped sep (el : node) :
  Py.strip (Soup.get_text sep el) = Soup.get_text sep el.
Proof.
  unfold Soup.get_text.
  assert (Forall trimmed
            (List.filter Py.truthy (map Py.strip (Soup.strings el)))) as Hall.
  { apply Forall_forall. intros s Hs%list_elem_of_In.
    apply filter_In in Hs as [Hin Hs]. apply in_map_iff in Hin as (s0 & <- & _).
    destruct (strip_cases s0) as [Hempty|Htrimmed]; [|done].
    by rewrite Hempty in Hs. }
  destruct (List.filter Py.truthy (map Py.strip (Soup.strings el))) as [|p ps];
    [done|].
  by apply strip_trimmed, join_trimmed.
Qed.

End strip_facts.

Section infobox_facts.
Implicit Types (n el row : node) (l : list node).

Lemma name_in_is_tag (name : string) n : Soup.name_in [name] n = is_tag name n.
Proof. destruct n; [done..|]. cbn. by rewrite orb_false_r. Qed.

Lemma find_all_is_tag (name : string) el :
  Soup.find_all [name] el = List.filter (is_tag name) (Soup.descendants el).
Proof. apply filter_ext. intros n. apply name_in_is_tag. Qed.

Lemma find_first_tag (name : string) el : Soup.find name el = first_tag name el.
Proof. unfold Soup.find, first_tag. by rewrite find_all_is_tag. Qed.

Lemma existsb_eqb_elem (c : string) (class_ : list string) :
  existsb (String.eqb c) class_ = bool_decide (c ∈ class_).
Proof.
  induction class_ as [|a class_ IH]; cbn [existsb].
  - by rewrite bool_decide_eq_false_2 by apply not_elem_of_nil.
  - destruct (String.eqb_spec c a) as [->|Hne]; cbn [orb].
    + rewrite bool_decide_eq_true_2; [done|by left].
    + rewrite IH. apply bool_decide_ext. rewrite elem_of_cons.
      split; [by right|]. by intros [?|?].
Qed.

Lemma is_infobox_find n :
  is_infobox n = Soup.name_in ["table"] n && Soup.has_class "infobox" n.
Proof.
  destruct n as [| |name class_ contents]; [done..|].
  cbn [is_infobox Soup.name_in Soup.has_class existsb].
  by rewrite orb_false_r, existsb_eqb_elem.
Qed.

Lemma find_class_none l :
  Forall (λ n, is_infobox n = false) l →
  List.filter (Soup.has_class "infobox") (List.filter (Soup.name_in ["table"]) l)
  = [].
Proof.
  induction 1 as [|n l Hn _ IH]; [done|]. cbn [List.filter].
  rewrite is_infobox_find in Hn.
  destruct (Soup.name_in ["table"] n); [|done].
  cbn [List.filter]. cbn [andb] in Hn. by rewrite Hn.
Qed.

Lemma find_class_first (before : list node) (infobox : node) (after : list node) :
  Forall (λ n, is_infobox n = false) before →
  is_infobox infobox = true →
  head (List.filter (Soup.has_class "infobox")
          (List.filter (Soup.name_in ["table"]) (before ++ infobox :: after)))
  = Some infobox.
Proof.
  intros Hbefore Hinfobox. rewrite !List.filter_app, (find_class_none before Hbefore).
  cbn [app List.filter]. rewrite is_infobox_find in Hinfobox.
  apply andb_true_iff in Hinfobox as [-> Hclass]. cbn [List.filter].
  by rewrite Hclass.
Qed.

Lemma infobox_row_field (data : gmap string string) row :
  infobox_row data row
  = match row_field row with
    | Some (key, value) => <[key := value]> data
    | None => data
    end.
Proof.
  unfold infobox_row, row_field. rewrite !find_first_tag.
  destruct (first_tag "th" row) as [th|]; [|done].
  destruct (first_tag "td" row) as [td|]; [|done]. cbn.
  destruct (Py.truthy (Soup.get_text " " th)) eqn:Hk,
           (Py.truthy (Soup.get_text " " td)) eqn:Hv; cbn;
    case_decide as Hd; try done.
  - destruct Hd. by split; apply truthy_nonempty.
  - destruct Hd as [_ Hd%truthy_nonempty]. congruence.
  - destruct Hd as [Hd%truthy_nonempty _]. congruence.
  - destruct Hd as [Hd%truthy_nonempty _]. congruence.
Qed.

Lemma fold_infobox_rows (rows : list node) (data : gmap string string) :
  fold_left infobox_row rows data
  = fold_left (λ d kv, <[kv.1 := kv.2]> d) (omap row_field rows) data.
Proof.
  revert data. induction rows as [|row rows IH]; intros data; [done|].
  cbn [fold_left omap list_omap]. rewrite IH, infobox_row_field.
  by destruct (row_field row) as [[k v]|].
Qed.

(** A field of a row holds two texts, neither empty, neither with
    whitespace at an end. *)
Lemma row_field_stripped row (key value : string) :
  row_field row = Some (key, value) →
  key ≠ "" ∧ value ≠ "" ∧ Py.strip key = key ∧ Py.strip value = value.
Proof.
  unfold row_field.
  destruct (first_tag "th" row) as [th|]; [|done].
  destruct (first_tag "td" row) as [td|]; [|done]. cbn.
  case_decide as Hd; [|done]. intros [= <- <-].
  destruct Hd as [Hk Hv]. by rewrite !get_text_stripped.
Qed.

End infobox_facts.

(** Last write wins: a key maps to the value of its last occurrence. *)
Lemma fold_insert_lookup (fields : list (string * string))
    (data : gmap string string) (key value : string) :
  fold_left (λ d kv, <[kv.1 := kv.2]> d) fields data !! key = Some value
  ↔ (∃ i, fields !! i = Some (key, value)
          ∧ ∀ j value', i < j → fields !! j ≠ Some (key, value'))
    ∨ (data !! key = Some value ∧ ∀ j value', fields !! j ≠ Some (key, value')).
Proof.
  induction fields as [|[k v] fields IH] using rev_ind.
  - cbn [fold_left]. split.
    + intros Hd. right. split; [done|]. intros j v'. by rewrite lookup_nil.
    + intros [(i & Hi & _)|[Hd _]]; [by rewrite lookup_nil in Hi|done].
  - rewrite fold_left_app. cbn [fold_left fst snd].
    destruct (decide (k = key)) as [->|Hne].
    + rewrite lookup_insert_eq. split.
      * intros [= ->]. left. exists (length fields). split.
        { by rewrite lookup_app_r, Nat.sub_diag by lia. }
        intros j v' Hj. rewrite lookup_ge_None_2; [done|].
        rewrite length_app. cbn. lia.
      * intros [(i & Hi & Hlast)|[_ Hno]].
        -- destruct (decide (i = length fields)) as [->|Hi'].
           ++ rewrite lookup_app_r, Nat.sub_diag in Hi by lia. by injection Hi as ->.
           ++ exfalso. apply (Hlast (length fields) v).
              ** apply lookup_lt_Some in Hi. rewrite length_app in Hi. cbn in Hi. lia.
              ** by rewrite lookup_app_r, Nat.sub_diag by lia.
        -- exfalso. apply (Hno (length fields) v).
           by rewrite lookup_app_r, Nat.sub_diag by lia.
    + rewrite lookup_insert_ne by done. rewrite IH.
      assert (∀ j value', (fields ++ [(k, v)]) !! j = Some (key, value')
                          ↔ fields !! j = Some (key, value')) as Hsame.
      { intros j v'. destruct (decide (j < length fields)) as [Hj|Hj].
        - by rewrite lookup_app_l.
        - rewrite (lookup_ge_None_2 fields) by lia.
          rewrite lookup_app_r by lia.
          destruct (j - length fields) as [|n]; cbn; [|by destruct n].
          split; [|done]. intros [= ? ?]. congruence. }
      split.
      * intros [(i & Hi & Hlast)|[Hd Hno]].
        -- left. exists i. split; [by apply Hsame|].
           intros j v' Hj Hjv. by apply (Hlast j v' Hj), Hsame.
        -- right. split; [done|]. intros j v' Hjv. by apply (Hno j v'), Hsame.
      * intros [(i & Hi & Hlast)|[Hd Hno]].
        -- left. exists i. split; [by apply Hsame|].
           intros j v' Hj Hjv. by apply (Hlast j v' Hj), Hsame.
        -- right. split; [done|]. intros j v' Hjv. by apply (Hno j v'), Hsame.
Qed.

(** What [extract_infobox] returns for a given infobox table. *)
Lemma extract_infobox_lookup (soup infobox : node) (key value : string) :
  Soup.find_class "table" "infobox" soup = Some infobox →
  extract_infobox soup !! key = Some value
  ↔ ∃ i, infobox_fields infobox !! i = Some (key, value)
         ∧ ∀ j value', i < j → infobox_fields infobox !! j ≠ Some (key, value').
Proof.
  intros Hfind. unfold extract_infobox. rewrite Hfind.
  rewrite fold_infobox_rows, fold_insert_lookup, find_all_is_tag.
  fold (infobox_fields infobox). rewrite lookup_empty. split.
  - by intros [Hfield|[[=] _]].
  - intros Hfield. by left.
Qed.

(** C8. [extract_infobox] never raises.  It returns the empty mapping when
    no [table] of the document carries the class [infobox].  Otherwise the
    first such table in document order is the one read, whatever tables
    come before or after it, and a key is mapped to a value exactly when
    some row of that table contributes that key and value and no later row
    contributes the same key (last write wins); a row contributes the texts
    of its first header cell and of its first data cell when it has both
    and both texts are non-empty, and nothing otherwise.  Every key and
    every value of the result is non-empty and has no whitespace at either
    end.  The rows [Born], an empty key, [Died] give exactly the two fields
    [Born] and [Died]; a document whose only table is not an infobox gives
    the empty mapping; and in [mixed_document] the plain table and the
    second infobox are not read, the rows without a header or a data cell,
    with a header made of a no-break space or a data cell made of blanks
    are skipped, the style sheet and the comment of a cell are not part of
    its text, and the second [Name] row replaces the first. *)
Theorem extract_infobox_fields (soup : node) :
  (Forall (λ n, is_infobox n = false) (Soup.descendants soup) →
   extract_infobox soup = ∅)
  ∧ (∀ before infobox after,
       Soup.descendants soup = before ++ infobox :: after →
       Forall (λ n, is_infobox n = false) before →
       is_infobox infobox = true →
       ∀ key value,
         extract_infobox soup !! key = Some value
         ↔ ∃ i, infobox_fields infobox !! i = Some (key, value)
                ∧ ∀ j value', i < j →
                    infobox_fields infobox !! j ≠ Some (key, value'))
  ∧ (∀ key value,
       extract_infobox soup !! key = Some value →
       key ≠ "" ∧ value ≠ "" ∧ Py.strip key = key ∧ Py.strip value = value)
  ∧ infobox_fields
      (infobox_table [("Born", "1 Jan 1900"); ("", "ignored"); ("Died", "2 Feb 2000")])
    = [("Born", "1 Jan 1900"); ("Died", "2 Feb 2000")]
  ∧ extract_infobox born_died_document
    = {[ "Born" := "1 Jan 1900"; "Died" := "2 Feb 2000" ]}
  ∧ extract_infobox wikitable_document = ∅
  ∧ extract_infobox mixed_document
    = {[ "Born" := "1 Jan 1900"; "Name" := "second" ]}.
Proof.
  split; [|split; [|split; [|repeat split; vm_compute; reflexivity]]].
  - intros Hnone. unfold extract_infobox, Soup.find_class, Soup.find_all.
    by rewrite (find_class_none _ Hnone).
  - intros before infobox after Hdesc Hbefore Hinfobox key value.
    apply extract_infobox_lookup. unfold Soup.find_class, Soup.find_all.
    rewrite Hdesc. by apply find_class_first.
  - intros key value Hlookup.
    destruct (Soup.find_class "table" "infobox" soup) as [infobox|] eqn:Hfind.
    + destruct (proj1 (extract_infobox_lookup soup infobox key value Hfind) Hlookup)
        as (i & Hi & _).
      apply list_elem_of_lookup_2 in Hi.
      apply list_elem_of_omap in Hi as (row & _ & Hrow).
      by apply (row_field_stripped row).
    + unfold extract_infobox in Hlookup. rewrite Hfind in Hlookup.
      by rewrite lookup_empty in Hlookup.
Qed.

Lemma extract_infobox_fields_witness :
  extract_infobox
    (Tag "[document]" [] [Tag "p" [] [NavigableString "No table here."]])
  = ∅.
Proof.
  apply (proj1 (extract_infobox_fields
                  (Tag "[document]" [] [Tag "p" [] [NavigableString "No table here."]]))).
  apply (bool_decide_unpack _). by vm_compute.
Defined.

(** ** Block encoder: documents without content elements *)

(** C3, as stated, fails: a document with no [h2], [h3], [p], [ul], [ol]
    or [table] does not encode to an empty block sequence; the page
    returned holds the leading summary callout and divider. *)
Lemma parse_html_to_blocks_bare_not_empty :
  Soup.find_all content_elements bare_document = []
  ∧ all_blocks bare_document ≠ []
  ∧ parse_html_to_blocks bare_document 90 = Ok [[summary_callout; make_divider]]
  ∧ parse_html_to_blocks bare_document 90 ≠ Ok []
  ∧ parse_html_to_blocks bare_document 90 ≠ Ok [[]].
Proof. repeat split; by vm_compute. Qed.

(** C3, amended. For every document with no recognized content element and
    every positive [max_blocks_per_page], [parse_html_to_blocks] raises no
    error and returns pages whose blocks are exactly the two leading ones,
    the summary callout followed by a divider; they form a single page when
    [max_blocks_per_page] is at least 2. *)
Theorem parse_html_to_blocks_no_content (soup : node) (max_blocks_per_page : Z) :
  Soup.find_all content_elements soup = [] →
  (0 < max_blocks_per_page)%Z →
  all_blocks soup = [summary_callout; make_divider]
  ∧ ∃ pages,
      parse_html_to_blocks soup max_blocks_per_page = Ok pages
      ∧ concat pages = [summary_callout; make_divider]
      ∧ ((2 ≤ max_blocks_per_page)%Z → pages = [[summary_callout; make_divider]]).
Proof.
  intros Hnone Hpos.
  assert (all_blocks soup = [summary_callout; make_divider]) as Hall.
  { unfold all_blocks. by rewrite Hnone. }
  split; [done|]. unfold parse_html_to_blocks. rewrite Hall.
  exists (chunks [summary_callout; make_divider] (Z.to_nat max_blocks_per_page)).
  split; [by apply page_chunks_chunks|]. split; [apply chunks_concat; lia|].
  intros Hmax. rewrite chunks_seq by lia. cbn [length].
  replace ((2 + Z.to_nat max_blocks_per_page - 1) / Z.to_nat max_blocks_per_page)
    with 1.
  - cbn [seq map]. rewrite Nat.mul_0_l, drop_0, take_ge; [done|cbn; lia].
  - apply (Nat.div_unique _ _ 1 1); lia.
Qed.

Lemma parse_html_to_blocks_no_content_witness :
  parse_html_to_blocks bare_document 90 = Ok [[summary_callout; make_divider]].
Proof.
  destruct (parse_html_to_blocks_no_content bare_document 90)
    as (_ & pages & Hrun & _ & Hone).
  - by vm_compute.
  - lia.
  - rewrite Hrun. f_equal. apply Hone. lia.
Defined.

(** ** The store: requests and loops *)

Lemma run_bind {A B} (m : M A) (k : A → M B) (w : notion) :
  (m ≫= k) w
  = match m w with
    | (Ok a, w') => k a w'
    | (Raise e, w') => (Raise e, w')
    end.
Proof. done. Qed.

Lemma for_each_map {X Y} (f : X → Y) (l : list X) (body : Y → M unit) :
  for_each (map f l) body = for_each l (λ x, body (f x)).
Proof.
  induction l as [|x l IH]; [done|]. cbn [map for_each]. by rewrite IH.
Qed.

Lemma append_batches_chunks (block_id : string) (all_blocks : list block) :
  append_batches block_id all_blocks
  = for_each (chunks all_blocks batch_size)
             (Store.blocks_children_append block_id).
Proof. unfold append_batches, chunks. by rewrite for_each_map. Qed.

Section store_facts.
Implicit Types (ps : list page) (w : notion) (p : page).

Lemma extend_children_nil p : Store.extend_children [] p = p.
Proof. destruct p. unfold Store.extend_children. cbn. by rewrite app_nil_r. Qed.

Lemma extend_children_app p (xs ys : list block) :
  Store.extend_children ys (Store.extend_children xs p)
  = Store.extend_children (xs ++ ys) p.
Proof. unfold Store.extend_children. cbn. by rewrite app_assoc. Qed.

Lemma update_page_id i ps : Store.update_page i (Store.extend_children []) ps = ps.
Proof.
  unfold Store.update_page. induction ps as [|p ps IH]; [done|].
  cbn [map]. rewrite IH, extend_children_nil. by destruct (Store.has_id i p).
Qed.

Lemma update_page_extend_twice i ps (xs ys : list block) :
  Store.update_page i (Store.extend_children ys)
    (Store.update_page i (Store.extend_children xs) ps)
  = Store.update_page i (Store.extend_children (xs ++ ys)) ps.
Proof.
  unfold Store.update_page. rewrite map_map. apply map_ext. intros p.
  destruct (Store.has_id i p) eqn:Hid.
  - change (Store.has_id i (Store.extend_children xs p)) with (Store.has_id i p).
    by rewrite Hid, extend_children_app.
  - by rewrite Hid.
Qed.

Lemma lookup_page_update i ps (f : page → page) :
  (∀ p, page_id (f p) = page_id p) →
  is_Some (Store.lookup_page i ps) →
  is_Some (Store.lookup_page i (Store.update_page i f ps)).
Proof.
  intros Hf. unfold Store.lookup_page, Store.update_page.
  induction ps as [|p ps IH]; [done|]. cbn [List.filter map].
  destruct (Store.has_id i p) eqn:Hid.
  - intros _. unfold Store.has_id in *. rewrite Hf, Hid. by eexists.
  - rewrite Hid. apply IH.
Qed.

Lemma lookup_page_elem i p ps :
  p ∈ ps → page_id p = i → is_Some (Store.lookup_page i ps).
Proof.
  intros Hin <-. unfold Store.lookup_page.
  induction Hin as [p ps|p q ps Hin IH]; cbn [List.filter].
  - unfold Store.has_id at 1. rewrite String.eqb_refl. by eexists.
  - destruct (Store.has_id (page_id p) q); [by eexists|done].
Qed.

Lemma request_calls {A} (c : call) (serve : list page → result (A * list page)) w :
  calls (Store.request c serve w).2 = calls w ++ [c].
Proof.
  unfold Store.request. destruct (default false (head (faults w))); [done|].
  by destruct (serve (db_pages w)) as [[a ps']|e].
Qed.

(** The calls issued by the re-append loop are the batches, in order, up
    to the first request that fails. *)
Lemma append_loop_prefix i (batches : list (list block)) w :
  ∃ n, n ≤ length batches
       ∧ calls (for_each batches (Store.blocks_children_append i) w).2
         = calls w ++ map (BlocksChildrenAppend i) (take n batches)
       ∧ ((for_each batches (Store.blocks_children_append i) w).1 = Ok tt →
          n = length batches).
Proof.
  revert w. induction batches as [|b bs IH]; intros w.
  - exists 0. cbn. by rewrite app_nil_r.
  - cbn [for_each]. rewrite run_bind.
    pose proof (request_calls (BlocksChildrenAppend i b)
                  (λ ps, match Store.lookup_page i ps with
                         | Some _ => Ok ((), Store.update_page i (Store.extend_children b) ps)
                         | None => Raise APIError
                         end) w) as Hcall.
    fold (Store.blocks_children_append i b) in Hcall.
    destruct (Store.blocks_children_append i b w) as [[[]|e] w1].
    + destruct (IH w1) as (n & Hn & Hcalls & Hok).
      exists (S n). cbn [length take map]. split; [lia|].
      rewrite Hcalls. cbn [snd] in Hcall. rewrite Hcall.
      split; [by rewrite <- app_assoc|]. intros Hrun. by rewrite Hok.
    + exists 1. cbn [length take map snd fst] in *. split; [lia|].
      rewrite Hcall, take_0. done.
Qed.

(** On a store that serves every request the loop completes. *)
Lemma append_loop_served i (batches : list (list block)) w :
  faults w = [] →
  is_Some (Store.lookup_page i (db_pages w)) →
  for_each batches (Store.blocks_children_append i) w
  = (Ok tt,
     {| db_pages :=
          Store.update_page i (Store.extend_children (concat batches)) (db_pages w);
        calls := calls w ++ map (BlocksChildrenAppend i) batches;
        faults := [] |}).
Proof.
  revert w. induction batches as [|b bs IH]; intros w Hfaults Hpage.
  - cbn. rewrite update_page_id, app_nil_r. destruct w; cbn in *. by subst.
  - cbn [for_each]. rewrite run_bind.
    unfold Store.blocks_children_append at 1. unfold Store.request.
    rewrite Hfaults. cbn [head default from_option id tail].
    destruct Hpage as [p Hp]. rewrite Hp. cbn [calls faults].
    rewrite IH; cbn [faults db_pages calls]; [|done|].
    + rewrite update_page_extend_twice. cbn [concat map].
      by rewrite <- app_assoc.
    + apply lookup_page_update; [done|by eexists].
Qed.

End store_facts.

Lemma chunks_nonempty {A} (l : list A) (step : nat) :
  0 < step → Forall (λ c, 0 < length c) (chunks l step).
Proof.
  intros Hs. apply Forall_lookup. intros k c Hk.
  assert (k < (length l + step - 1) / step) as Hlt.
  { apply lookup_lt_Some in Hk. by rewrite chunks_length in Hk. }
  rewrite chunks_lookup in Hk by done. injection Hk as <-.
  rewrite chunks_sizes by done.
  pose proof (div_up_bounds (length l) step Hs) as [Hub Hlb]. cbn zeta in Hub, Hlb.
  case_decide as Hlast; [|done].
  assert (0 < length l) as Hn.
  { destruct (length l); [|lia]. rewrite Nat.div_small in Hlt by lia. lia. }
  specialize (Hlb Hn). rewrite <- Hlast in Hlb. cbn in Hlb.
  rewrite Nat.sub_0_r in Hlb. lia.
Qed.

(** ** Reassembly: the re-append step *)

(** C7. For every collected block sequence of length N the batches of the
    re-append step are the ceil(N/50) contiguous slices
    [all_blocks[50k : 50k + 50]], each non-empty and of at most 50 blocks,
    which concatenate to the sequence; the loop issues one append call per
    batch, in that order, stopping at the first call that fails, and issues
    all of them on a store that serves every request; 237 blocks give
    batches of sizes 50, 50, 50, 50, 37. *)
Theorem append_batches_calls (block_id : string) (all_blocks : list block) (w : notion) :
  let batches := chunks all_blocks batch_size in
  let run := append_batches block_id all_blocks w in
  length batches = (length all_blocks + 49) / 50
  ∧ (∀ k, k < length batches →
          batches !! k = Some (Py.slice all_blocks (k * 50) (k * 50 + 50)))
  ∧ Forall (λ batch, 0 < length batch ≤ 50) batches
  ∧ concat batches = all_blocks
  ∧ (∃ n, n ≤ length batches
          ∧ calls run.2
            = calls w ++ map (BlocksChildrenAppend block_id) (take n batches)
          ∧ (run.1 = Ok tt → n = length batches))
  ∧ (faults w = [] → is_Some (Store.lookup_page block_id (db_pages w)) →
     run.1 = Ok tt
     ∧ calls run.2 = calls w ++ map (BlocksChildrenAppend block_id) batches)
  ∧ (length all_blocks = 237 → map length batches = [50; 50; 50; 50; 37]).
Proof.
  cbn zeta. rewrite append_batches_chunks. unfold batch_size.
  assert (length (chunks all_blocks 50) = (length all_blocks + 49) / 50) as Hlen.
  { rewrite chunks_length by lia. f_equal. lia. }
  split; [done|]. split; [|split; [|split; [|split; [|split]]]].
  - intros k Hk. apply chunks_lookup; [lia|].
    rewrite Hlen in Hk. replace (length all_blocks + 50 - 1) with (length all_blocks + 49) by lia.
    done.
  - pose proof (chunks_bounded all_blocks 50) as Hle.
    pose proof (chunks_nonempty all_blocks 50 ltac:(lia)) as Hpos.
    rewrite Forall_forall in Hle, Hpos. apply Forall_forall. intros batch Hin.
    split; [by apply Hpos|by apply Hle].
  - apply chunks_concat. lia.
  - apply append_loop_prefix.
  - intros Hfaults Hpage. by rewrite append_loop_served.
  - intros H237. rewrite chunks_seq by lia. rewrite H237.
    change ((237 + 50 - 1) / 50) with 5.
    cbn [seq map]. rewrite !length_take, !length_drop, H237.
    repeat f_equal; lia.
Qed.

Lemma append_batches_calls_witness :
  let all_blocks := replicate 237 make_divider in
  let run := append_batches "p1" all_blocks (single_page_store "p1" "T" []) in
  run.1 = Ok tt
  ∧ calls run.2 = map (BlocksChildrenAppend "p1") (chunks all_blocks batch_size)
  ∧ map length (chunks all_blocks batch_size) = [50; 50; 50; 50; 37].
Proof.
  intros all_blocks run.
  destruct (append_batches_calls "p1" all_blocks (single_page_store "p1" "T" []))
    as (_ & _ & _ & _ & _ & Hserved & Hsizes).
  destruct Hserved as [Hok Hcalls]; [done|by eexists|].
  split; [exact Hok|]. split; [exact Hcalls|].
  apply Hsizes. by vm_compute.
Defined.

(** ** Reassembly: results *)

Section combine_facts.
Implicit Types (w : notion) (pages : list page).

Lemma get_database_pages_run database_id title w :
  ∃ pages w',
    get_database_pages database_id title w = (Ok pages, w')
    ∧ db_pages w' = db_pages w
    ∧ faults w' = tail (faults w)
    ∧ ∀ p, p ∈ pages → p ∈ db_pages w.
Proof.
  unfold get_database_pages, try_except, Store.databases_query, Store.request.
  destruct (default false (head (faults w))).
  - eexists [], _. cbn. repeat split; try done. intros p Hp. by apply elem_of_nil in Hp.
  - eexists _, _. cbn. repeat split; try done.
    intros p Hp%list_elem_of_In%filter_In. apply list_elem_of_In. tauto.
Qed.

Lemma get_page_blocks_run i w :
  ∃ blocks w',
    get_page_blocks i w = (Ok blocks, w')
    ∧ db_pages w' = db_pages w
    ∧ faults w' = tail (faults w).
Proof.
  unfold get_page_blocks, try_except, Store.blocks_children_list, Store.request.
  destruct (default false (head (faults w))); [by eexists [], _|].
  destruct (Store.lookup_page i (db_pages w)); by eexists _, _.
Qed.

Lemma collect_blocks_run (acc : list block) (parts : list page) w :
  ∃ blocks w',
    collect_blocks acc parts w = (Ok blocks, w')
    ∧ db_pages w' = db_pages w
    ∧ (faults w = [] → faults w' = []).
Proof.
  revert acc w. induction parts as [|part parts IH]; intros acc w.
  - by eexists acc, w.
  - cbn [collect_blocks]. rewrite run_bind.
    destruct (get_page_blocks_run (page_id part) w) as (bs & w1 & -> & Hdb & Hf).
    destruct (IH (acc ++ bs) w1) as (blocks & w2 & -> & Hdb2 & Hf2).
    eexists _, _. split; [done|]. split; [congruence|].
    intros Hnil. apply Hf2. by rewrite Hf, Hnil.
Qed.

Lemma archive_parts_run (parts : list page) w :
  ∃ w', archive_parts parts w = (Ok tt, w').
Proof.
  unfold archive_parts. revert w.
  induction parts as [|part parts IH]; intros w; [by eexists|].
  cbn [for_each]. rewrite run_bind. unfold try_except at 1.
  destruct (Store.pages_update_archived (page_id part) w) as [[[]|e] w1]; apply IH.
Qed.

(** The [try] block returns the id of the main page when the re-append
    loop completes and [None] when it raises. *)
Lemma merge_into_main_run (main_page : page) (parts : list page)
    (blocks : list block) w :
  (merge_into_main main_page parts blocks w).1
  = match (append_batches (page_id main_page) blocks w).1 with
    | Ok _ => Ok (Some (page_id main_page))
    | Raise _ => Ok None
    end.
Proof.
  unfold merge_into_main, try_except. rewrite run_bind.
  destruct (append_batches (page_id main_page) blocks w) as [[[]|e] w1]; [|done].
  rewrite run_bind.
  by destruct (archive_parts_run parts w1) as (w2 & ->).
Qed.

Lemma classify_main_elem title pages (acc : option page * list page) (m : page) :
  (fold_left
     (λ '(main_page, part_pages) page,
        if String.eqb (page_title page) title then (Some page, part_pages)
        else if Py.contains (title +:+ " (Part") (page_title page)
             then (main_page, part_pages ++ [page])
             else (main_page, part_pages))
     pages acc).1 = Some m →
  (m ∈ pages ∧ page_title m = title) ∨ acc.1 = Some m.
Proof.
  revert acc. induction pages as [|p pages IH]; intros [am ap]; [by right|].
  cbn [fold_left]. intros Hm. apply IH in Hm as [[Hin Ht]|Hacc].
  - left. split; [by right|done].
  - destruct (String.eqb_spec (page_title p) title) as [Heq|Hne].
    + cbn in Hacc. injection Hacc as ->. left. split; [by left|done].
    + right. by destruct (Py.contains (title +:+ " (Part") (page_title p)).
Qed.

Lemma classify_main title pages (m : page) :
  (classify title pages).1 = Some m → m ∈ pages ∧ page_title m = title.
Proof.
  intros Hm. by apply classify_main_elem in Hm as [?|[=]].
Qed.

Lemma classify_no_main_acc title pages (acc : option page * list page) :
  (∀ p, p ∈ pages → page_title p ≠ title) →
  acc.1 = None →
  (fold_left
     (λ '(main_page, part_pages) page,
        if String.eqb (page_title page) title then (Some page, part_pages)
        else if Py.contains (title +:+ " (Part") (page_title page)
             then (main_page, part_pages ++ [page])
             else (main_page, part_pages))
     pages acc).1 = None.
Proof.
  revert acc. induction pages as [|p pages IH]; intros [am ap] Hall Hacc; [done|].
  cbn [fold_left]. apply IH; [intros q Hq; apply Hall; by right|].
  destruct (String.eqb_spec (page_title p) title) as [Heq|Hne].
  - exfalso. by apply (Hall p); [left|].
  - by destruct (Py.contains (title +:+ " (Part") (page_title p)).
Qed.

Lemma classify_no_main title pages :
  (∀ p, p ∈ pages → page_title p ≠ title) → (classify title pages).1 = None.
Proof. intros Hall. by apply classify_no_main_acc. Qed.

(** The run of the whole function, once discovery has found pages and
    the part numbers of the candidates parse. *)
Lemma combine_run database_id title infobox_data w (sorted : list page) :
  discovered database_id title w ≠ [] →
  sort_by_key part_number (classify title (discovered database_id title w)).2
  = Ok sorted →
  (combine_pages_into_single database_id title infobox_data w).1
  = match (classify title (discovered database_id title w)).1 with
    | None => Ok None
    | Some main_page =>
        let c := collection database_id title main_page sorted w in
        (merge_into_main main_page sorted c.1 c.2).1
    end.
Proof.
  unfold discovered, collection, combine_pages_into_single. rewrite run_bind.
  destruct (get_database_pages_run database_id title w) as (pages & w1 & -> & _).
  cbn [fst snd]. intros Hne Hsort.
  destruct pages as [|p0 pages]; [done|].
  destruct (classify title (p0 :: pages)) as [main parts]. cbn [fst snd] in *.
  rewrite run_bind. unfold lift. rewrite Hsort.
  destruct main as [m|]; [|done].
  rewrite run_bind.
  destruct (get_page_blocks_run (page_id m) w1) as (bs & w2 & -> & _).
  rewrite run_bind. cbn [fst snd].
  by destruct (collect_blocks_run ([] ++ bs) sorted w2) as (all & w3 & -> & _).
Qed.

Lemma collection_store database_id title (m : page) (sorted : list page) w :
  db_pages (collection database_id title m sorted w).2 = db_pages w
  ∧ (faults w = [] → faults (collection database_id title m sorted w).2 = []).
Proof.
  unfold collection.
  destruct (get_database_pages_run database_id title w) as (pages & w1 & -> & Hdb1 & Hf1 & _).
  cbn [fst snd].
  destruct (get_page_blocks_run (page_id m) w1) as (bs & w2 & -> & Hdb2 & Hf2).
  cbn [fst snd].
  destruct (collect_blocks_run ([] ++ bs) sorted w2) as (all & w3 & -> & Hdb3 & Hf3).
  cbn [fst snd]. split; [congruence|].
  intros Hnil. apply Hf3. by rewrite Hf2, Hf1, Hnil.
Qed.

Lemma discovered_elem database_id title w (p : page) :
  p ∈ discovered database_id title w → p ∈ db_pages w.
Proof.
  unfold discovered.
  destruct (get_database_pages_run database_id title w) as (pages & w1 & -> & _ & _ & Hin).
  apply Hin.
Qed.

End combine_facts.

(** C9, as stated, fails: a request of the batch-append phase that fails
    does not propagate as an exception; the [try] block of the function
    catches it and the function returns [None]. *)
Lemma combine_append_failure_returns_none :
  let w := two_page_store_append_fails in
  let run := combine_pages_into_single "db" "T" ∅ w in
  (classify "T" (discovered "db" "T" w)).1
  = Some {| page_id := "p1"; page_title := "T";
            children := [block_zero]; archived := false |}
  ∧ last (calls run.2) = Some (BlocksChildrenAppend "p1" [block_zero; block_one])
  ∧ faults run.2 = []
  ∧ run.1 = Ok None
  ∧ ∀ e, run.1 ≠ Raise e.
Proof. repeat split; try (intros e); by vm_compute. Qed.

(** C9, amended. [combine_pages_into_single] returns [None], and does not
    raise, when the discovery query finds no pages.  When the part numbers
    of the candidate part pages parse, it returns [None] if no page has the
    title as its display name, and otherwise either the id of the main page
    or [None]: the id exactly when the re-append loop of the run completes,
    [None] when that loop raises, the failure being caught inside the
    function; on a store that serves every request it returns the id. *)
Theorem combine_pages_into_single_result
    (database_id title : string) (infobox_data : gmap string string) (w : notion) :
  let pages := discovered database_id title w in
  let main_page := (classify title pages).1 in
  let part_pages := (classify title pages).2 in
  let result := (combine_pages_into_single database_id title infobox_data w).1 in
  (pages = [] → result = Ok None)
  ∧ (∀ sorted, sort_by_key part_number part_pages = Ok sorted →
       ((∀ p, p ∈ pages → page_title p ≠ title) → result = Ok None)
       ∧ (∀ m, main_page = Some m →
            let c := collection database_id title m sorted w in
            m ∈ pages
            ∧ page_title m = title
            ∧ result
              = match (append_batches (page_id m) c.1 c.2).1 with
                | Ok _ => Ok (Some (page_id m))
                | Raise _ => Ok None
                end
            ∧ (faults w = [] → result = Ok (Some (page_id m))))).
Proof.
  cbn zeta. split.
  - unfold discovered, combine_pages_into_single. rewrite run_bind.
    destruct (get_database_pages_run database_id title w) as (pages & w1 & -> & _).
    cbn [fst]. by intros ->.
  - intros sorted Hsort.
    destruct (decide (discovered database_id title w = [])) as [Hnil|Hne].
    { rewrite Hnil. cbn. split; [|done]. intros _.
      revert Hnil. unfold discovered, combine_pages_into_single. rewrite run_bind.
      destruct (get_database_pages_run database_id title w) as (pages & w1 & -> & _).
      cbn [fst]. by intros ->. }
    rewrite (combine_run _ _ _ _ sorted Hne Hsort).
    split.
    { intros Hnone. by rewrite classify_no_main. }
    intros m Hm. rewrite Hm. cbn zeta.
    destruct (classify_main _ _ _ Hm) as [Hin Htitle].
    split; [done|]. split; [done|].
    rewrite merge_into_main_run. split; [done|].
    intros Hfaults.
    destruct (collection_store database_id title m sorted w) as [Hdb Hf].
    rewrite append_batches_chunks, append_loop_served; [done|by apply Hf|].
    rewrite Hdb. eapply lookup_page_elem; [|done]. by eapply discovered_elem.
Qed.

Lemma combine_pages_into_single_result_witness :
  (combine_pages_into_single "db" "T" ∅ two_page_store).1 = Ok (Some "p1").
Proof.
  destruct (combine_pages_into_single_result "db" "T" ∅ two_page_store)
    as [_ Hrun].
  destruct (Hrun [ {| page_id := "p2"; page_title := "T (Part 2)";
                      children := [block_one]; archived := false |} ])
    as [_ Hmain]; [by vm_compute|].
  destruct (Hmain {| page_id := "p1"; page_title := "T";
                     children := [block_zero]; archived := false |})
    as (_ & _ & _ & Hserved); [by vm_compute|].
  by apply Hserved.
Defined.

(** ** Reassembly: ordering of the part pages *)

Section sort_facts.
Context {A : Type}.
Implicit Types (x : Z * A) (l : list (Z * A)).

Lemma insert_keyed_perm x l : insert_keyed x l ≡ₚ x :: l.
Proof.
  induction l as [|y l IH]; [done|]. cbn [insert_keyed].
  destruct (x.1 <=? y.1)%Z; [done|]. rewrite IH. apply perm_swap.
Qed.

Lemma sort_keyed_perm l : sort_keyed l ≡ₚ l.
Proof.
  induction l as [|x l IH]; [done|].
  cbn [sort_keyed foldr]. rewrite insert_keyed_perm. by f_equiv.
Qed.

Lemma insert_keyed_sorted x l :
  StronglySorted key_le l → StronglySorted key_le (insert_keyed x l).
Proof.
  induction 1 as [|y l Hsorted IH Hall]; cbn [insert_keyed].
  - repeat constructor.
  - destruct (Z.leb_spec x.1 y.1) as [Hle|Hgt].
    + constructor; [by constructor|]. constructor; [done|].
      eapply Forall_impl; [exact Hall|]. unfold key_le. cbn. lia.
    + constructor; [done|]. rewrite insert_keyed_perm.
      constructor; [unfold key_le; lia|done].
Qed.

Lemma sort_keyed_sorted l : StronglySorted key_le (sort_keyed l).
Proof.
  induction l as [|x l IH]; [constructor|]. by apply insert_keyed_sorted.
Qed.

(** Stability: elements with equal keys keep their relative order. *)
Lemma insert_keyed_with_key k x l :
  StronglySorted key_le l →
  with_key k (insert_keyed x l) = with_key k (x :: l).
Proof.
  induction 1 as [|y l Hsorted IH Hall]; [done|]. cbn [insert_keyed].
  destruct (Z.leb_spec x.1 y.1) as [Hle|Hgt]; [done|].
  unfold with_key in *. cbn [List.filter] in *. rewrite IH.
  destruct (Z.eqb_spec x.1 k) as [Hx|Hx], (Z.eqb_spec y.1 k) as [Hy|Hy];
    try done. lia.
Qed.

Lemma sort_keyed_stable k l : with_key k (sort_keyed l) = with_key k l.
Proof.
  induction l as [|x l IH]; [done|]. cbn [sort_keyed foldr].
  rewrite insert_keyed_with_key by apply sort_keyed_sorted.
  unfold with_key in *. cbn [List.filter]. fold (sort_keyed l). by rewrite IH.
Qed.

Lemma keys_of_fmap (key : A → result Z) (l : list A) (kl : list (Z * A)) :
  keys_of key l = Ok kl →
  map snd kl = l ∧ Forall (λ x, key x.2 = Ok x.1) kl.
Proof.
  revert kl. induction l as [|a l IH]; intros kl.
  - intros [= <-]. by split.
  - cbn [keys_of]. destruct (key a) as [k|e] eqn:Hk; [|done]. cbn.
    destruct (keys_of key l) as [kl'|e]; [|done]. cbn. intros [= <-].
    destruct (IH kl' eq_refl) as [Hmap Hall]. split; [cbn; by rewrite Hmap|].
    by constructor.
Qed.

End sort_facts.

(** Whenever every key parses, [sort_by_key] returns a stable, ascending
    rearrangement of its argument. *)
Lemma sort_by_key_sorted {A} (key : A → result Z) (l : list A) (kl : list (Z * A)) :
  keys_of key l = Ok kl →
  ∃ sorted_kl,
    sort_by_key key l = Ok (map snd sorted_kl)
    ∧ sorted_kl ≡ₚ kl
    ∧ map snd sorted_kl ≡ₚ l
    ∧ StronglySorted key_le sorted_kl
    ∧ Forall (λ x, key x.2 = Ok x.1) sorted_kl
    ∧ ∀ k, with_key k sorted_kl = with_key k kl.
Proof.
  intros Hkeys. exists (sort_keyed kl). unfold sort_by_key. rewrite Hkeys. cbn.
  destruct (keys_of_fmap key l kl Hkeys) as [Hmap Hall].
  split; [done|]. split; [apply sort_keyed_perm|].
  split; [by rewrite sort_keyed_perm, Hmap|].
  split; [apply sort_keyed_sorted|]. split; [by rewrite sort_keyed_perm|].
  intros k. apply sort_keyed_stable.
Qed.

(** C6. The sort key is the integer after the first ["(Part "] of the
    display name, not the one of the ["(Part n)"] suffix.  For the title
    ["A (Part 1)"] the parts 3 and 2, listed in that order, both get the
    key 1 and the stable sort keeps them as they are, so the blocks are
    collected in the order main, part 3, part 2.  For a title without such
    a marker, the parts 2, 10, 3 are put in the order 2, 3, 10. *)
Theorem sort_part_pages_marked_title :
  let third := titled "A (Part 1) (Part 3)" [block_three] in
  let second := titled "A (Part 1) (Part 2)" [block_two] in
  let run := combine_pages_into_single "db" "A (Part 1)" ∅ marked_title_store in
  (classify "A (Part 1)" (discovered "db" "A (Part 1)" marked_title_store)).2
  = [third; second]
  ∧ part_number third = Ok 1%Z
  ∧ part_number second = Ok 1%Z
  ∧ sort_by_key part_number [third; second] = Ok [third; second]
  ∧ run.1 = Ok (Some "A (Part 1)")
  ∧ BlocksChildrenAppend "A (Part 1)" [block_zero; block_three; block_two]
    ∈ calls run.2
  ∧ sort_by_key part_number
      [titled "X (Part 2)" []; titled "X (Part 10)" []; titled "X (Part 3)" []]
    = Ok [titled "X (Part 2)" []; titled "X (Part 3)" []; titled "X (Part 10)" []].
Proof.
  cbn zeta. repeat split; try (by vm_compute).
  vm_compute. do 4 right. left.
Qed.

(** C1. The collected sequence starts with the children the main page
    already has, and appending it to that same page stores them a second
    time: for a main page holding [block_zero] and a second part holding
    [block_one], the main page ends with [block_zero; block_zero; block_one]
    and not with [block_zero; block_one]. *)
Theorem combine_repeats_main_children :
  let run := combine_pages_into_single "db" "T" ∅ two_page_store in
  run.1 = Ok (Some "p1")
  ∧ children <$> Store.lookup_page "p1" (db_pages two_page_store)
    = Some [block_zero]
  ∧ children <$> Store.lookup_page "p2" (db_pages two_page_store)
    = Some [block_one]
  ∧ children <$> Store.lookup_page "p1" (db_pages run.2)
    = Some [block_zero; block_zero; block_one]
  ∧ children <$> Store.lookup_page "p1" (db_pages run.2)
    ≠ Some [block_zero; block_one].
Proof. cbn zeta. repeat split; by vm_compute. Qed.

(** ** Reassembly: the children of the main page *)

Section children_facts.
Implicit Types (ps : list page) (w : notion) (p : page).

Lemma lookup_page_NoDup p ps :
  NoDup (map page_id ps) → p ∈ ps → Store.lookup_page (page_id p) ps = Some p.
Proof.
  unfold Store.lookup_page. induction ps as [|q ps IH]; intros Hnd Hin.
  - by apply elem_of_nil in Hin.
  - cbn [map] in Hnd. apply NoDup_cons in Hnd as [Hq Hnd].
    cbn [List.filter]. unfold Store.has_id at 1.
    destruct (String.eqb_spec (page_id q) (page_id p)) as [Heq|Hne].
    + apply elem_of_cons in Hin as [->|Hin]; [done|].
      exfalso. apply Hq. rewrite Heq. apply list_elem_of_fmap. by exists p.
    + apply elem_of_cons in Hin as [->|Hin]; [done|]. by apply IH.
Qed.

Lemma lookup_page_update_same i ps (f : page → page) :
  (∀ p, page_id (f p) = page_id p) →
  Store.lookup_page i (Store.update_page i f ps) = f <$> Store.lookup_page i ps.
Proof.
  intros Hf. unfold Store.lookup_page, Store.update_page.
  induction ps as [|p ps IH]; [done|]. cbn [List.filter map].
  destruct (Store.has_id i p) eqn:Hid.
  - unfold Store.has_id in *. by rewrite Hf, Hid.
  - by rewrite Hid.
Qed.

Lemma lookup_page_archived_children i j ps :
  children <$> Store.lookup_page i (Store.update_page j Store.set_archived ps)
  = children <$> Store.lookup_page i ps.
Proof.
  unfold Store.lookup_page, Store.update_page.
  induction ps as [|p ps IH]; [done|]. cbn [List.filter map].
  assert (Store.has_id i (if Store.has_id j p then Store.set_archived p else p)
          = Store.has_id i p) as -> by (by destruct (Store.has_id j p)).
  destruct (Store.has_id i p); [|done]. by destruct (Store.has_id j p).
Qed.

Lemma archive_parts_children i (parts : list page) w :
  children <$> Store.lookup_page i (db_pages (archive_parts parts w).2)
  = children <$> Store.lookup_page i (db_pages w).
Proof.
  unfold archive_parts. revert w. induction parts as [|part parts IH]; intros w; [done|].
  cbn [for_each]. rewrite run_bind.
  assert (children <$> Store.lookup_page i
            (db_pages (try_except (Store.pages_update_archived (page_id part))
                                  (λ _, mret ()) w).2)
          = children <$> Store.lookup_page i (db_pages w)) as Hstep.
  { unfold try_except, Store.pages_update_archived, Store.request.
    destruct (default false (head (faults w))); [done|].
    destruct (Store.lookup_page (page_id part) (db_pages w)); [|done].
    cbn [snd db_pages]. apply lookup_page_archived_children. }
  assert (∃ w1, try_except (Store.pages_update_archived (page_id part))
                           (λ _, mret ()) w = (Ok (), w1)) as [w1 Hw1].
  { unfold try_except.
    destruct (Store.pages_update_archived (page_id part) w) as [[[]|e] w1];
      by eexists. }
  rewrite Hw1 in *. cbn [snd] in Hstep. by rewrite IH.
Qed.

Lemma get_database_pages_served database_id title w :
  faults w = [] →
  ∃ w',
    get_database_pages database_id title w
    = (Ok (List.filter
             (λ p, negb (archived p) && Py.contains title (page_title p))
             (db_pages w)), w')
    ∧ db_pages w' = db_pages w ∧ faults w' = [].
Proof.
  intros Hf.
  unfold get_database_pages, try_except, Store.databases_query, Store.request.
  rewrite Hf. by eexists.
Qed.

Lemma get_page_blocks_served p w :
  faults w = [] →
  Store.lookup_page (page_id p) (db_pages w) = Some p →
  ∃ w',
    get_page_blocks (page_id p) w = (Ok (children p), w')
    ∧ db_pages w' = db_pages w ∧ faults w' = [].
Proof.
  intros Hf Hp.
  unfold get_page_blocks, try_except, Store.blocks_children_list, Store.request.
  rewrite Hf, Hp. by eexists.
Qed.

Lemma collect_blocks_served (acc : list block) (parts : list page) w :
  faults w = [] →
  (∀ p, p ∈ parts → Store.lookup_page (page_id p) (db_pages w) = Some p) →
  ∃ w',
    collect_blocks acc parts w = (Ok (acc ++ concat (map children parts)), w')
    ∧ db_pages w' = db_pages w ∧ faults w' = [].
Proof.
  revert acc w. induction parts as [|part parts IH]; intros acc w Hf Hparts.
  - exists w. cbn. by rewrite app_nil_r.
  - cbn [collect_blocks]. rewrite run_bind.
    destruct (get_page_blocks_served part w Hf) as (w1 & -> & Hdb1 & Hf1).
    { apply Hparts. by left. }
    destruct (IH (acc ++ children part) w1 Hf1) as (w2 & -> & Hdb2 & Hf2).
    { intros p Hp. rewrite Hdb1. apply Hparts. by right. }
    exists w2. cbn [map concat]. rewrite app_assoc. split; [done|].
    split; [congruence|done].
Qed.

Lemma classify_parts_elem title (pages : list page)
    (acc : option page * list page) (p : page) :
  p ∈ (fold_left
         (λ '(main_page, part_pages) page,
            if String.eqb (page_title page) title then (Some page, part_pages)
            else if Py.contains (title +:+ " (Part") (page_title page)
                 then (main_page, part_pages ++ [page])
                 else (main_page, part_pages))
         pages acc).2 →
  p ∈ pages ∨ p ∈ acc.2.
Proof.
  revert acc. induction pages as [|q pages IH]; intros [am ap]; [by right|].
  cbn [fold_left]. intros Hp. apply IH in Hp as [Hin|Hacc]; [left; by right|].
  destruct (String.eqb (page_title q) title); [by right|].
  destruct (Py.contains (title +:+ " (Part") (page_title q)); [|by right].
  cbn in Hacc. apply elem_of_app in Hacc as [Hacc|Hq%list_elem_of_singleton].
  - by right.
  - left. subst. by left.
Qed.

Lemma classify_parts title (pages : list page) (p : page) :
  p ∈ (classify title pages).2 → p ∈ pages.
Proof.
  intros Hp. apply classify_parts_elem in Hp as [Hp|Hp]; [done|].
  by apply elem_of_nil in Hp.
Qed.

Lemma sort_by_key_perm {A} (key : A → result Z) (l sorted : list A) :
  sort_by_key key l = Ok sorted → sorted ≡ₚ l.
Proof.
  unfold sort_by_key. destruct (keys_of key l) as [kl|e] eqn:Hkeys; [|done].
  cbn. intros [= <-].
  destruct (keys_of_fmap key l kl Hkeys) as [<- _].
  by rewrite sort_keyed_perm.
Qed.

(** On a store that serves every request and whose page ids are distinct,
    the run succeeds and leaves the main page with its former children
    followed by the whole collected sequence, which itself starts with
    those children. *)
Lemma combine_main_children database_id title infobox_data w
    (m : page) (sorted : list page) :
  faults w = [] →
  NoDup (map page_id (db_pages w)) →
  (classify title (discovered database_id title w)).1 = Some m →
  sort_by_key part_number (classify title (discovered database_id title w)).2
  = Ok sorted →
  let run := combine_pages_into_single database_id title infobox_data w in
  run.1 = Ok (Some (page_id m))
  ∧ children <$> Store.lookup_page (page_id m) (db_pages run.2)
    = Some (children m ++ (children m ++ concat (map children sorted))).
Proof.
  intros Hf Hnd Hmain Hsort. cbn zeta.
  assert (∀ p, p ∈ discovered database_id title w →
               Store.lookup_page (page_id p) (db_pages w) = Some p) as Hlook.
  { intros p Hp. apply lookup_page_NoDup; [done|]. by eapply discovered_elem. }
  revert Hmain Hsort Hlook.
  unfold discovered, combine_pages_into_single. rewrite run_bind.
  destruct (get_database_pages_served database_id title w Hf) as (w1 & -> & Hdb1 & Hf1).
  cbn [fst]. set (pages := List.filter _ (db_pages w)).
  intros Hmain Hsort Hlook.
  destruct pages as [|p0 pages'] eqn:Hpages; [done|]. rewrite <- Hpages in *.
  clear Hpages p0 pages'.
  pose proof (classify_main title pages m Hmain) as [Hm _].
  pose proof (sort_by_key_perm _ _ _ Hsort) as Hperm.
  destruct (classify title pages) as [main parts] eqn:Hclass.
  cbn [fst snd] in *. subst main.
  rewrite run_bind. unfold lift. rewrite Hsort. rewrite run_bind.
  destruct (get_page_blocks_served m w1 Hf1) as (w2 & -> & Hdb2 & Hf2).
  { rewrite Hdb1. by apply Hlook. }
  rewrite run_bind.
  destruct (collect_blocks_served ([] ++ children m) sorted w2 Hf2)
    as (w3 & -> & Hdb3 & Hf3).
  { intros p Hp. rewrite Hdb2, Hdb1. apply Hlook.
    apply (classify_parts title). rewrite Hclass. cbn. by rewrite <- Hperm. }
  unfold merge_into_main, try_except. rewrite run_bind.
  rewrite append_batches_chunks, append_loop_served; [|done|].
  2:{ rewrite Hdb3, Hdb2, Hdb1, Hlook by done. by eexists. }
  rewrite run_bind.
  match goal with
  | |- context [archive_parts sorted ?w4] =>
      pose proof (archive_parts_children (page_id m) sorted w4) as Harch;
      destruct (archive_parts_run sorted w4) as (w5 & Hw5)
  end.
  rewrite Hw5 in *. cbn [fst snd db_pages] in *. split; [done|].
  unfold mret, M_ret, ret. cbn [snd].
  rewrite Harch, lookup_page_update_same by done.
  rewrite chunks_concat by (unfold batch_size; lia).
  rewrite Hdb3, Hdb2, Hdb1, Hlook by done. done.
Qed.

End children_facts.

(** A candidate part page whose name holds no ["(Part "] makes the sort
    key raise before the main page is looked at. *)
Lemma combine_unparsed_part_raises :
  let w := {| db_pages := [titled "T (Partial)" []]; calls := []; faults := [] |} in
  (classify "T" (discovered "db" "T" w)).1 = None
  ∧ (combine_pages_into_single "db" "T" ∅ w).1 = Raise IndexError.
Proof. split; by vm_compute. Qed.

(** * Further properties *)

#[local] Arguments Py.str_take : simpl never.
#[local] Arguments Py.str_drop : simpl never.
#[local] Arguments MAX_LENGTH : simpl never.

(** ** Block encoder: every block respects the text limit *)

Lemma make_callout_text (text icon : string) :
  rich_text (make_callout text icon)
  = Some (if MAX_LENGTH <? String.length text
          then Py.str_take 1997 text +:+ "..." else text).
Proof. done. Qed.

(** X1. [make_callout] never builds a text longer than 2000 characters: a
    text of at most 2000 characters is kept as it is, a longer one becomes
    its first 1997 characters followed by three dots, 2000 characters in
    all; the block is a callout carrying the icon. *)
Theorem make_callout_bound (text icon_ : string) :
  let b := make_callout text icon_ in
  type b = callout
  ∧ icon b = Some icon_
  ∧ String.length (block_text b) ≤ MAX_LENGTH
  ∧ (String.length text ≤ MAX_LENGTH → rich_text b = Some text)
  ∧ (MAX_LENGTH < String.length text →
     rich_text b = Some (Py.str_take 1997 text +:+ "...")
     ∧ String.length (block_text b) = MAX_LENGTH).
Proof.
  cbn zeta. split; [done|]. split; [done|].
  unfold block_text. rewrite make_callout_text. cbn [default from_option id].
  destruct (Nat.ltb_spec MAX_LENGTH (String.length text)) as [Hlong|Hshort].
  - assert (String.length (Py.str_take 1997 text +:+ "...") = MAX_LENGTH) as Hlen.
    { rewrite str_length_app, str_take_length. unfold MAX_LENGTH in *.
      change (String.length "...") with 3. lia. }
    split; [lia|]. split; [lia|]. by intros _.
  - split; [done|]. split; [done|]. lia.
Qed.

Lemma make_callout_bound_witness :
  String.length (block_text (make_callout (str_repeat "x" 2500) "i")) = MAX_LENGTH.
Proof.
  apply (make_callout_bound (str_repeat "x" 2500) "i").
  apply Nat.ltb_lt. by vm_compute.
Defined.

Lemma make_callout_ok (text icon : string) : text_len_ok (make_callout text icon).
Proof.
  unfold text_len_ok. rewrite make_callout_text.
  destruct (Nat.ltb_spec MAX_LENGTH (String.length text)) as [Hlong|Hshort]; [|done].
  rewrite str_length_app, str_take_length. unfold MAX_LENGTH in *.
  change (String.length "...") with 3. lia.
Qed.

Lemma make_block_ok (text : string) (bt : block_type) :
  String.length text ≤ MAX_LENGTH → text_len_ok (make_block text bt).
Proof. done. Qed.

Lemma make_divider_ok : text_len_ok make_divider.
Proof. done. Qed.

Lemma safe_chunk_text_ok (text : string) (bt : block_type) :
  Forall text_len_ok (safe_chunk_text text bt).
Proof.
  destruct (Nat.leb_spec (String.length text) MAX_LENGTH) as [Hshort|Hlong].
  - unfold safe_chunk_text.
    destruct (Nat.leb_spec (String.length text) MAX_LENGTH); [|lia].
    constructor; [by apply make_block_ok|constructor].
  - rewrite safe_chunk_text_seq by done.
    apply Forall_fmap, Forall_forall. intros k _. unfold text_len_ok. cbn.
    rewrite str_slice_step, str_take_length. unfold MAX_LENGTH. lia.
Qed.

Lemma safe_chunk_text_type (text : string) (bt : block_type) :
  Forall (λ b, type b = bt) (safe_chunk_text text bt).
Proof.
  unfold safe_chunk_text. destruct (String.length text <=? MAX_LENGTH).
  - by repeat constructor.
  - apply Forall_fmap, Forall_forall. by intros k _.
Qed.

Lemma Forall_flat_map {A B} (P : B → Prop) (f : A → list B) (l : list A) :
  (∀ x, Forall P (f x)) → Forall P (flat_map f l).
Proof.
  intros Hf. induction l as [|x l IH]; [constructor|].
  cbn. apply Forall_app. by split.
Qed.

Lemma list_item_blocks_ok (bt : block_type) (li : node) :
  Forall text_len_ok (list_item_blocks bt li).
Proof.
  unfold list_item_blocks.
  destruct (Py.truthy (Soup.get_text " " li) && (10 <? String.length (Soup.get_text " " li)));
    [|constructor].
  destruct (Nat.leb_spec (String.length (Soup.get_text " " li)) MAX_LENGTH) as [Hshort|Hlong].
  - constructor; [by apply make_block_ok|constructor].
  - apply safe_chunk_text_ok.
Qed.

Lemma list_item_blocks_type (bt : block_type) (li : node) :
  Forall (λ b, type b = bt) (list_item_blocks bt li).
Proof.
  unfold list_item_blocks.
  destruct (Py.truthy (Soup.get_text " " li) && (10 <? String.length (Soup.get_text " " li)));
    [|constructor].
  destruct (String.length (Soup.get_text " " li) <=? MAX_LENGTH).
  - by repeat constructor.
  - apply safe_chunk_text_type.
Qed.

Lemma element_blocks_ok (element : node) : Forall text_len_ok (element_blocks element).
Proof.
  unfold element_blocks.
  destruct (Soup.name_is "h2" element).
  { destruct (Py.truthy _) eqn:Ht; cbn [andb]; [|constructor].
    destruct (Nat.leb_spec (String.length (Py.replace "[edit]" "" (Soup.get_text " " element)))
                MAX_LENGTH); [|constructor].
    constructor; [apply make_divider_ok|].
    constructor; [by apply make_block_ok|constructor]. }
  destruct (Soup.name_is "h3" element).
  { destruct (Py.truthy _) eqn:Ht; cbn [andb]; [|constructor].
    destruct (Nat.leb_spec (String.length (Py.replace "[edit]" "" (Soup.get_text " " element)))
                MAX_LENGTH); [|constructor].
    constructor; [by apply make_block_ok|constructor]. }
  destruct (Soup.name_is "p" element).
  { destruct (_ && _); [apply safe_chunk_text_ok|constructor]. }
  destruct (Soup.name_is "ul" element).
  { apply Forall_flat_map. intros li. apply list_item_blocks_ok. }
  destruct (Soup.name_is "ol" element).
  { apply Forall_flat_map. intros li. apply list_item_blocks_ok. }
  destruct (Soup.name_is "table" element); [|constructor].
  destruct (Py.truthy _); [|constructor].
  constructor; [apply make_callout_ok|constructor].
Qed.

Lemma all_blocks_ok (soup : node) : Forall text_len_ok (all_blocks soup).
Proof.
  unfold all_blocks. apply Forall_app. split.
  - constructor; [apply make_callout_ok|].
    constructor; [apply make_divider_ok|constructor].
  - apply Forall_flat_map, element_blocks_ok.
Qed.

Lemma validate_blocks_ok_id (blocks : list block) :
  Forall text_len_ok blocks → validate_blocks blocks = (blocks, []).
Proof.
  induction 1 as [|b blocks Hb _ IH]; [done|].
  cbn [validate_blocks]. by rewrite validate_block_ok, IH.
Qed.

Lemma page_chunks_cases (blocks : list block) (max_blocks_per_page : Z)
    (pages : list (list block)) :
  page_chunks blocks max_blocks_per_page = Ok pages →
  pages = [] ∨ pages = chunks blocks (Z.to_nat max_blocks_per_page).
Proof.
  unfold page_chunks.
  destruct (max_blocks_per_page =? 0)%Z; [done|].
  destruct (max_blocks_per_page <? 0)%Z; intros Hrun; [left|right];
    injection Hrun as Hpages; symmetry; exact Hpages.
Qed.

Lemma Forall_chunks {A} (P : A → Prop) (l : list A) (step : nat) :
  Forall P l → Forall (Forall P) (chunks l step).
Proof.
  intros Hl. unfold chunks. apply Forall_fmap, Forall_forall. intros i _. cbn.
  unfold Py.slice. by apply Forall_take, Forall_drop.
Qed.

(** X2. Text-length invariant of the encoder: for every document, every
    block of the flat sequence built by [parse_html_to_blocks] that carries
    a text has one of at most 2000 characters, and so has every block of
    every page it returns, whatever [max_blocks_per_page]. *)
Theorem parse_html_to_blocks_text_bound (soup : node) (max_blocks_per_page : Z) :
  Forall text_len_ok (all_blocks soup)
  ∧ ∀ pages, parse_html_to_blocks soup max_blocks_per_page = Ok pages →
             Forall (Forall text_len_ok) pages.
Proof.
  split; [apply all_blocks_ok|]. intros pages Hrun.
  apply page_chunks_cases in Hrun as [->| ->]; [constructor|].
  apply Forall_chunks, all_blocks_ok.
Qed.

Lemma parse_html_to_blocks_text_bound_witness :
  Forall (Forall text_len_ok) [[summary_callout; make_divider]].
Proof.
  apply (parse_html_to_blocks_text_bound bare_document 90).
  by vm_compute.
Defined.

(** X3. The guard has nothing to do on the encoder's output: for every
    document, [validate_blocks] returns every page of
    [parse_html_to_blocks] unchanged and prints no warning. *)
Theorem validate_blocks_parse_html_to_blocks
    (soup : node) (max_blocks_per_page : Z) (pages : list (list block)) :
  parse_html_to_blocks soup max_blocks_per_page = Ok pages →
  Forall (λ chunk, validate_blocks chunk = (chunk, [])) pages.
Proof.
  intros Hrun. apply page_chunks_cases in Hrun as [->| ->]; [constructor|].
  eapply Forall_impl; [apply Forall_chunks, all_blocks_ok|].
  intros chunk. apply validate_blocks_ok_id.
Qed.

Lemma validate_blocks_parse_html_to_blocks_witness :
  Forall (λ chunk, validate_blocks chunk = (chunk, []))
         [[summary_callout; make_divider]].
Proof.
  apply (validate_blocks_parse_html_to_blocks bare_document 90).
  by vm_compute.
Defined.

(** ** Paginator: shape of the pages *)

Lemma chunks_full {A} (l : list A) (step k : nat) (c : list A) :
  0 < step → chunks l step !! k = Some c → S k < length (chunks l step) →
  length c = step.
Proof.
  intros Hs Hk Hlast. rewrite chunks_length in Hlast by done.
  rewrite chunks_lookup in Hk by lia. injection Hk as <-.
  rewrite chunks_sizes by lia. case_decide; [lia|done].
Qed.

(** X4. Shape of the pages, for every block sequence.  With a positive
    [max_blocks_per_page] the paginating loop returns
    ceil(len/max_blocks_per_page) pages, none of them empty, and every page
    but the last holds exactly [max_blocks_per_page] blocks; an empty
    sequence gives no page.  With [max_blocks_per_page = 0] it raises
    [ValueError], and with a negative one it returns no page at all,
    whatever the blocks. *)
Theorem page_chunks_shape (blocks : list block) (max_blocks_per_page : Z) :
  ((0 < max_blocks_per_page)%Z →
   ∃ pages,
     page_chunks blocks max_blocks_per_page = Ok pages
     ∧ length pages
       = (length blocks + Z.to_nat max_blocks_per_page - 1)
         / Z.to_nat max_blocks_per_page
     ∧ Forall (λ p, 0 < length p) pages
     ∧ (∀ k p, pages !! k = Some p → S k < length pages →
               length p = Z.to_nat max_blocks_per_page)
     ∧ (blocks = [] ↔ pages = []))
  ∧ (max_blocks_per_page = 0%Z →
     page_chunks blocks max_blocks_per_page = Raise ValueError)
  ∧ ((max_blocks_per_page < 0)%Z →
     page_chunks blocks max_blocks_per_page = Ok []).
Proof.
  split; [|split].
  - intros Hpos. exists (chunks blocks (Z.to_nat max_blocks_per_page)).
    assert (0 < Z.to_nat max_blocks_per_page) as Hstep by lia.
    split; [by apply page_chunks_chunks|].
    split; [by apply chunks_length|].
    split; [by apply chunks_nonempty|].
    split; [intros k p; by apply chunks_full|].
    split.
    + by intros ->.
    + intros Hnil. pose proof (chunks_concat blocks _ Hstep) as Hcat.
      rewrite Hnil in Hcat. done.
  - by intros ->.
  - intros Hneg. unfold page_chunks.
    destruct (Z.eqb_spec max_blocks_per_page 0); [lia|].
    by destruct (Z.ltb_spec max_blocks_per_page 0); [|lia].
Qed.

Lemma page_chunks_shape_witness :
  ∃ pages,
    page_chunks (replicate 200 make_divider) 90 = Ok pages
    ∧ length pages = 3
    ∧ Forall (λ p, 0 < length p) pages.
Proof.
  destruct (page_chunks_shape (replicate 200 make_divider) 90) as [Hpos _].
  destruct Hpos as (pages & Hrun & Hlen & Hne & _); [lia|].
  exists pages. split; [exact Hrun|]. split; [|exact Hne].
  rewrite Hlen. by vm_compute.
Defined.

(** X5. For every document and every positive [max_blocks_per_page],
    [parse_html_to_blocks] returns at least one page, and the first block
    of the first page is the summary callout: the flat sequence always
    starts with the summary callout and a divider. *)
Theorem parse_html_to_blocks_first_page (soup : node) (max_blocks_per_page : Z) :
  (0 < max_blocks_per_page)%Z →
  (∃ rest, all_blocks soup = summary_callout :: make_divider :: rest)
  ∧ ∃ first pages,
      parse_html_to_blocks soup max_blocks_per_page
      = Ok ((summary_callout :: first) :: pages).
Proof.
  intros Hpos. split; [by eexists|].
  unfold parse_html_to_blocks. rewrite page_chunks_chunks by done.
  assert (0 < Z.to_nat max_blocks_per_page) as Hstep by lia.
  rewrite chunks_seq by done.
  assert (0 < (length (all_blocks soup) + Z.to_nat max_blocks_per_page - 1)
              / Z.to_nat max_blocks_per_page) as Hcount.
  { apply Nat.div_str_pos. unfold all_blocks. cbn [length app]. lia. }
  destruct ((length (all_blocks soup) + Z.to_nat max_blocks_per_page - 1)
            / Z.to_nat max_blocks_per_page) as [|n]; [lia|].
  cbn [seq map]. rewrite Nat.mul_0_l, drop_0.
  destruct (Z.to_nat max_blocks_per_page) as [|step]; [lia|].
  unfold all_blocks. cbn [app take]. by eexists _, _.
Qed.

Lemma parse_html_to_blocks_first_page_witness :
  ∃ first pages,
    parse_html_to_blocks bare_document 1 = Ok ((summary_callout :: first) :: pages).
Proof.
  apply (parse_html_to_blocks_first_page bare_document 1). lia.
Defined.

(** ** Block encoder: headings and dividers *)

Lemma headings_follow_dividers_app (l1 l2 : list block) :
  headings_follow_dividers l1 → headings_follow_dividers l2 →
  headings_follow_dividers (l1 ++ l2).
Proof.
  intros H1 H2 i b Hi Hty.
  destruct (decide (i < length l1)) as [Hlt|Hge].
  - rewrite lookup_app_l in Hi by done.
    destruct (H1 i b Hi Hty) as (j & -> & Hj). exists j. split; [done|].
    rewrite lookup_app_l by lia. done.
  - rewrite lookup_app_r in Hi by lia.
    destruct (H2 _ b Hi Hty) as (j & Hij & Hj).
    exists (length l1 + j). split; [lia|].
    rewrite lookup_app_r by lia. rewrite <- Hj. f_equal. lia.
Qed.

Lemma headings_follow_dividers_none (l : list block) :
  Forall (λ b, type b ≠ heading_2) l → headings_follow_dividers l.
Proof.
  intros Hl i b Hi Hty. rewrite Forall_forall in Hl.
  exfalso. apply (Hl b); [|done]. by eapply list_elem_of_lookup_2.
Qed.

Lemma headings_follow_dividers_flat_map {A} (f : A → list block) (l : list A) :
  (∀ x, headings_follow_dividers (f x)) →
  headings_follow_dividers (flat_map f l).
Proof.
  intros Hf. induction l as [|x l IH].
  - intros i b Hi. cbn [flat_map] in Hi. by rewrite lookup_nil in Hi.
  - cbn [flat_map]. by apply headings_follow_dividers_app.
Qed.

Lemma Forall_type_not_heading (bt : block_type) (l : list block) :
  bt ≠ heading_2 → Forall (λ b, type b = bt) l → Forall (λ b, type b ≠ heading_2) l.
Proof. intros Hbt Hl. eapply Forall_impl; [exact Hl|]. by intros b ->. Qed.

Lemma element_blocks_headings (element : node) :
  headings_follow_dividers (element_blocks element).
Proof.
  unfold element_blocks.
  destruct (Soup.name_is "h2" element).
  { destruct (_ && _).
    - intros [|[|i]] b Hi Hty; cbn in Hi.
      + injection Hi as <-. done.
      + by exists 0.
      + done.
    - intros i b Hi. by destruct i. }
  apply headings_follow_dividers_none.
  destruct (Soup.name_is "h3" element).
  { destruct (_ && _); by repeat constructor. }
  destruct (Soup.name_is "p" element).
  { destruct (_ && _); [|constructor].
    eapply Forall_type_not_heading; [|apply safe_chunk_text_type]. done. }
  destruct (Soup.name_is "ul" element).
  { apply Forall_flat_map. intros li.
    eapply Forall_type_not_heading; [|apply list_item_blocks_type]. done. }
  destruct (Soup.name_is "ol" element).
  { apply Forall_flat_map. intros li.
    eapply Forall_type_not_heading; [|apply list_item_blocks_type]. done. }
  destruct (Soup.name_is "table" element); [|constructor].
  destruct (Py.truthy _); by repeat constructor.
Qed.

(** X6. For every document, every major heading ([heading_2]) of the flat
    block sequence stands right after a divider: it is never the first
    block and the block before it is a divider. *)
Theorem all_blocks_headings_follow_dividers (soup : node) :
  headings_follow_dividers (all_blocks soup).
Proof.
  unfold all_blocks. apply headings_follow_dividers_app.
  - apply headings_follow_dividers_none. by repeat constructor.
  - apply headings_follow_dividers_flat_map, element_blocks_headings.
Qed.

Lemma all_blocks_headings_follow_dividers_witness :
  all_blocks (Tag "[document]" [] [Tag "h2" [] [NavigableString "History"]]) !! 2
  = Some make_divider.
Proof.
  destruct (all_blocks_headings_follow_dividers
              (Tag "[document]" [] [Tag "h2" [] [NavigableString "History"]])
              3 (make_block "History" heading_2) eq_refl eq_refl)
    as (j & Hj & Hdiv).
  injection Hj as <-. exact Hdiv.
Defined.

(** ** Reassembly: classification and ordering *)

Lemma classify_snoc (title : string) (pages : list page) (p : page) :
  classify title (pages ++ [p])
  = let '(main_page, part_pages) := classify title pages in
    if String.eqb (page_title p) title then (Some p, part_pages)
    else if Py.contains (title +:+ " (Part") (page_title p)
         then (main_page, part_pages ++ [p])
         else (main_page, part_pages).
Proof.
  unfold classify. rewrite fold_left_app. cbn [fold_left].
  by destruct (fold_left _ pages (None, [])).
Qed.

Lemma classify_spec (title : string) (pages : list page) :
  (classify title pages).1 = last (List.filter (is_main title) pages)
  ∧ (classify title pages).2 = List.filter (is_part title) pages.
Proof.
  induction pages as [|p pages [IHm IHp]] using rev_ind; [done|].
  rewrite classify_snoc, !List.filter_app.
  destruct (classify title pages) as [main parts]. cbn [fst snd] in *.
  cbn [List.filter].
  assert (is_part title p
          = negb (is_main title p) && Py.contains (title +:+ " (Part") (page_title p))
    as -> by done.
  change ((page_title p =? title)%string) with (is_main title p).
  destruct (is_main title p); cbn [negb andb fst snd].
  - rewrite last_snoc, app_nil_r. done.
  - destruct (Py.contains (title +:+ " (Part") (page_title p)); cbn [fst snd];
      rewrite ?app_nil_r; by subst.
Qed.

(** X7. The classification loop splits the discovered pages as follows:
    the main page is the last page whose display name equals the title
    ([None] when there is none), and the part pages are, in their order,
    the pages whose name differs from the title and contains
    [title + " (Part"]; every other page is ignored. *)
Theorem classify_filter (title : string) (pages : list page) :
  (classify title pages).1 = last (List.filter (is_main title) pages)
  ∧ (classify title pages).2 = List.filter (is_part title) pages.
Proof. apply classify_spec. Qed.

Lemma keys_of_ok {A} (key : A → result Z) (l : list A) :
  Forall (λ x, ∃ k, key x = Ok k) l → ∃ kl, keys_of key l = Ok kl.
Proof.
  induction 1 as [|x l [k Hk] _ [kl IH]]; [by eexists|].
  cbn [keys_of]. rewrite Hk, IH. by eexists.
Qed.

Lemma keys_of_raise {A} (key : A → result Z) (l : list A) (e : exn) :
  keys_of key l = Raise e → ∃ x, x ∈ l ∧ key x = Raise e.
Proof.
  induction l as [|x l IH]; [done|]. cbn [keys_of].
  destruct (key x) as [k|e'] eqn:Hk; cbn.
  - destruct (keys_of key l) as [kl|e'']; [done|]. cbn. intros [= ->].
    destruct IH as (y & Hy & Hkey); [done|]. exists y. split; [by right|done].
  - intros [= ->]. exists x. split; [by left|done].
Qed.

Lemma with_key_snd (k : Z) (kl : list (Z * page)) :
  Forall (λ x, part_number x.2 = Ok x.1) kl →
  with_part_number k (map snd kl) = map snd (with_key k kl).
Proof.
  unfold with_part_number, with_key.
  induction 1 as [|[a p] kl Hp _ IH]; [done|].
  cbn [map List.filter fst snd] in *. rewrite Hp, IH.
  by destruct (a =? k)%Z.
Qed.

Lemma StronglySorted_part_le (kl : list (Z * page)) :
  Forall (λ x, part_number x.2 = Ok x.1) kl →
  StronglySorted key_le kl → StronglySorted part_le (map snd kl).
Proof.
  intros Hkeys Hsorted. induction Hsorted as [|x kl Hsorted IH Hall]; [constructor|].
  apply Forall_cons in Hkeys as [Hx Hkeys]. cbn [map]. constructor; [by apply IH|].
  apply Forall_fmap, Forall_forall. intros y Hy. cbn.
  rewrite Forall_forall in Hall, Hkeys.
  exists x.1, y.1. split; [done|]. split; [by apply Hkeys|]. by apply Hall.
Qed.

(** X8. Ordering of the part pages.  When the part number of every part
    page parses, the sort returns a rearrangement of the part pages in
    ascending order of the parsed numbers, and pages with equal numbers
    keep their relative order (the sort is stable); when some part number
    does not parse, the sort raises what parsing that name raises. *)
Theorem sort_part_pages (part_pages : list page) :
  (Forall (λ p, ∃ k, part_number p = Ok k) part_pages →
   ∃ sorted,
     sort_by_key part_number part_pages = Ok sorted
     ∧ sorted ≡ₚ part_pages
     ∧ StronglySorted part_le sorted
     ∧ ∀ k, with_part_number k sorted = with_part_number k part_pages)
  ∧ (∀ e, sort_by_key part_number part_pages = Raise e →
          ∃ p, p ∈ part_pages ∧ part_number p = Raise e).
Proof.
  split.
  - intros Hparse. destruct (keys_of_ok _ _ Hparse) as [kl Hkl].
    destruct (sort_by_key_sorted _ _ _ Hkl)
      as (skl & Hrun & Hperm & Hperm' & Hsorted & Hkeys & Hstable).
    destruct (keys_of_fmap _ _ _ Hkl) as [Hmap Hkeys'].
    exists (map snd skl). split; [done|]. split; [done|].
    split; [by apply StronglySorted_part_le|].
    intros k. rewrite with_key_snd, Hstable, <- with_key_snd, Hmap; done.
  - intros e. unfold sort_by_key.
    destruct (keys_of part_number part_pages) as [kl|e'] eqn:Hkl; [done|].
    cbn. intros [= ->]. by apply keys_of_raise.
Qed.

Lemma sort_part_pages_witness :
  ∃ sorted,
    sort_by_key part_number
      [titled "X (Part 2)" []; titled "X (Part 10)" []; titled "X (Part 3)" []]
    = Ok sorted
    ∧ StronglySorted part_le sorted.
Proof.
  destruct (sort_part_pages
              [titled "X (Part 2)" []; titled "X (Part 10)" []; titled "X (Part 3)" []])
    as [Hsorted _].
  destruct Hsorted as (sorted & Hrun & _ & Hasc & _).
  - repeat constructor; eexists; by vm_compute.
  - by exists sorted.
Defined.

(** ** Strings: splitting and parsing *)

Section split_facts.
Implicit Types (s t sep pre cur rest : string) (c : ascii).

Lemma str_app_nil_l s : "" +:+ s = s.
Proof. done. Qed.

Lemma rev_app_app s t u :
  String.rev_app (String.rev_app s t) u = String.rev_app t (s +:+ u).
Proof.
  revert t u. induction s as [|c s IH]; intros t u; [done|].
  cbn [String.rev_app]. rewrite IH. done.
Qed.

Lemma rev_rev_app s : String.rev (String.rev_app s "") = s.
Proof. unfold String.rev. rewrite rev_app_app. cbn. apply str_app_nil_r. Qed.

Lemma startswith_app sep rest : Py.startswith sep (sep +:+ rest) = true.
Proof.
  induction sep as [|c sep IH]; [done|].
  rewrite str_app_cons. cbn [Py.startswith]. by rewrite Ascii.eqb_refl.
Qed.

Lemma split_go_end sep cur : Py.split_go sep 0 cur "" = [String.rev cur].
Proof. done. Qed.

(** The characters of a matched separator are passed over. *)
Lemma split_go_skip sep t rest cur :
  Py.split_go sep (String.length t) cur (t +:+ rest) = Py.split_go sep 0 cur rest
  ∨ rest = "".
Proof.
  induction t as [|c t IH]; [by left|].
  rewrite str_app_cons. cbn [String.length Py.split_go]. exact IH.
Qed.

Lemma split_go_skip_end sep t cur :
  Py.split_go sep (String.length t) cur t = [String.rev cur].
Proof. induction t as [|c t IH]; [done|]. cbn [String.length Py.split_go]. exact IH. Qed.

Lemma split_go_skip_all sep t rest cur :
  Py.split_go sep (String.length t) cur (t +:+ rest) = Py.split_go sep 0 cur rest.
Proof.
  destruct (split_go_skip sep t rest cur) as [H| ->]; [done|].
  rewrite str_app_nil_r. apply split_go_skip_end.
Qed.

(** A piece before which the separator does not start is scanned whole. *)
Lemma split_go_prefix sep pre s cur :
  (∀ n, n < String.length pre →
        Py.startswith sep (Py.str_drop n pre +:+ s) = false) →
  Py.split_go sep 0 cur (pre +:+ s)
  = Py.split_go sep 0 (String.rev_app pre cur) s.
Proof.
  revert cur. induction pre as [|c pre IH]; intros cur Hno; [done|].
  rewrite str_app_cons. cbn [Py.split_go].
  pose proof (Hno 0 ltac:(cbn; lia)) as H0.
  change (Py.str_drop 0 (String c pre)) with (String c pre) in H0.
  rewrite str_app_cons in H0. rewrite H0.
  cbn [String.rev_app]. apply IH. intros n Hn.
  apply (Hno (S n)). cbn. lia.
Qed.

Lemma split_go_sep sep rest cur :
  sep ≠ "" →
  Py.split_go sep 0 cur (sep +:+ rest)
  = String.rev cur :: Py.split_go sep 0 "" rest.
Proof.
  intros Hsep. pose proof (startswith_app sep rest) as Hstart.
  destruct sep as [|c sep]; [done|].
  rewrite str_app_cons in *. cbn [Py.split_go]. rewrite Hstart.
  f_equal. cbn [String.length].
  replace (S (String.length sep) - 1) with (String.length sep) by lia.
  apply split_go_skip_all.
Qed.

(** Splitting at the first occurrence of the separator. *)
Lemma split_first sep pre rest :
  sep ≠ "" →
  (∀ n, n < String.length pre →
        Py.startswith sep (Py.str_drop n pre +:+ sep +:+ rest) = false) →
  Py.split sep (pre +:+ sep +:+ rest) = pre :: Py.split sep rest.
Proof.
  intros Hsep Hno. unfold Py.split.
  rewrite split_go_prefix by done. rewrite split_go_sep by done.
  by rewrite rev_rev_app.
Qed.

Lemma startswith_first_char sep c t :
  str_forall (λ a, negb (Ascii.eqb c a)) t = true →
  ∀ n s, n < String.length t →
         Py.startswith (String c sep) (Py.str_drop n t +:+ s) = false.
Proof.
  revert t. intros t Ht n. revert t Ht.
  induction n as [|n IH]; intros [|a t] Ht s Hn; cbn in Hn; try lia.
  - cbn in Ht. apply andb_true_iff in Ht as [Ha _].
    change (Py.str_drop 0 (String a t)) with (String a t).
    rewrite str_app_cons. cbn [Py.startswith].
    by destruct (Ascii.eqb c a).
  - cbn in Ht. apply andb_true_iff in Ht as [_ Ht].
    change (Py.str_drop (S n) (String a t)) with (Py.str_drop n t).
    apply IH; [done|lia].
Qed.

(** A string without the first character of the separator is one piece. *)
Lemma split_one_piece sep c t :
  str_forall (λ a, negb (Ascii.eqb c a)) t = true →
  Py.split (String c sep) t = [t].
Proof.
  intros Ht. unfold Py.split.
  rewrite <- (str_app_nil_r t) at 1.
  rewrite split_go_prefix.
  - cbn [Py.split_go]. by rewrite rev_rev_app.
  - intros n Hn. by apply startswith_first_char.
Qed.

Lemma contains_drop sep s n :
  Py.contains sep s = false → Py.startswith sep (Py.str_drop n s) = false.
Proof.
  revert s. induction n as [|n IH]; intros s Hs.
  - destruct s; cbn in Hs; by apply orb_false_iff in Hs as [? _].
  - destruct s as [|a s]; [by destruct sep|].
    cbn in Hs. apply orb_false_iff in Hs as [_ Hs].
    change (Py.str_drop (S n) (String a s)) with (Py.str_drop n s). by apply IH.
Qed.

Lemma str_drop_app n s t :
  n ≤ String.length s → Py.str_drop n (s +:+ t) = Py.str_drop n s +:+ t.
Proof.
  revert s. induction n as [|n IH]; intros [|a s] Hn; cbn in Hn; try done; try lia.
  rewrite str_app_cons.
  change (Py.str_drop (S n) (String a (s +:+ t))) with (Py.str_drop n (s +:+ t)).
  change (Py.str_drop (S n) (String a s)) with (Py.str_drop n s).
  apply IH. lia.
Qed.

End split_facts.

Lemma part_marker_border (t rest : string) :
  Py.startswith "(Part " ((t +:+ " ") +:+ "(Part " +:+ rest)
  = Py.startswith "(Part " (t +:+ " ").
Proof.
  destruct t as [|c1 [|c2 [|c3 [|c4 [|c5 [|c6 t]]]]]];
    repeat (rewrite ?str_app_cons, ?str_app_nil_l);
    cbn [Py.startswith];
    repeat match goal with
           | |- context [Ascii.eqb ?a ?b] =>
               let H := fresh in destruct (Ascii.eqb a b) eqn:H; try discriminate H
           end;
    try done.
Qed.

Section decimal_facts.

Lemma str_forall_uint (P : ascii → bool) (d : Decimal.uint) :
  P "0"%char = true → P "1"%char = true → P "2"%char = true →
  P "3"%char = true → P "4"%char = true → P "5"%char = true →
  P "6"%char = true → P "7"%char = true → P "8"%char = true →
  P "9"%char = true →
  str_forall P (NilEmpty.string_of_uint d) = true.
Proof.
  intros H0 H1 H2 H3 H4 H5 H6 H7 H8 H9.
  induction d as [|d IH|d IH|d IH|d IH|d IH|d IH|d IH|d IH|d IH|d IH];
    cbn [NilEmpty.string_of_uint str_forall]; rewrite ?IH, ?H0, ?H1, ?H2, ?H3,
      ?H4, ?H5, ?H6, ?H7, ?H8, ?H9; done.
Qed.

Lemma str_forall_str_of_nat (P : ascii → bool) (n : nat) :
  P "0"%char = true → P "1"%char = true → P "2"%char = true →
  P "3"%char = true → P "4"%char = true → P "5"%char = true →
  P "6"%char = true → P "7"%char = true → P "8"%char = true →
  P "9"%char = true →
  str_forall P (Py.str_of_nat n) = true.
Proof. apply str_forall_uint. Qed.

Lemma to_uint_nonnil (n : nat) : Nat.to_uint n ≠ Decimal.Nil.
Proof.
  rewrite <- (DecimalNat.Unsigned.of_to n) at 1.
  rewrite DecimalNat.Unsigned.to_of. apply DecimalFacts.unorm_nonnil.
Qed.

Lemma lstrip_id (space : ascii → bool) (s : string) :
  str_forall (λ c, negb (space c)) s = true → Py.lstrip_by space s = s.
Proof.
  destruct s as [|c s]; [done|]. cbn [str_forall Py.lstrip_by].
  intros [Hc _]%andb_true_iff. by destruct (space c).
Qed.

Lemma rstrip_id (space : ascii → bool) (s : string) :
  str_forall (λ c, negb (space c)) s = true → Py.rstrip_by space s = s.
Proof.
  induction s as [|c s IH]; [done|]. cbn [str_forall Py.rstrip_by].
  intros [Hc Hs]%andb_true_iff. rewrite IH by done.
  destruct s; [|done]. by destruct (space c).
Qed.

Lemma strip_id (space : ascii → bool) (s : string) :
  str_forall (λ c, negb (space c)) s = true → Py.strip_by space s = s.
Proof. intros Hs. unfold Py.strip_by. by rewrite lstrip_id, rstrip_id. Qed.

Lemma int_digits_uint (d : Decimal.uint) (acc : nat) :
  int_digits (Z.of_nat acc) true (NilEmpty.string_of_uint d)
  = Some (Z.of_nat (Nat.of_uint_acc d acc)).
Proof.
  revert acc.
  induction d as [|d IH|d IH|d IH|d IH|d IH|d IH|d IH|d IH|d IH|d IH];
    intros acc; [done|..];
    cbn [NilEmpty.string_of_uint int_digits Nat.of_uint_acc];
    match goal with
    | |- context [digit_value ?c] =>
        let v := eval vm_compute in (digit_value c) in
        change (digit_value c) with v
    end;
    cbn iota; rewrite <- IH; f_equal; rewrite Nat.tail_mul_spec; lia.
Qed.

Lemma int_digits_uint_start (d : Decimal.uint) :
  d ≠ Decimal.Nil →
  int_digits 0 false (NilEmpty.string_of_uint d) = Some (Z.of_nat (Nat.of_uint d)).
Proof.
  intros Hd. unfold Nat.of_uint. rewrite <- (int_digits_uint d 0).
  by destruct d.
Qed.

(** [int(str(n)) = n]. *)
Lemma int_str_of_nat (n : nat) : int (Py.str_of_nat n) = Ok (Z.of_nat n).
Proof.
  unfold int. rewrite strip_id by (by apply str_forall_str_of_nat).
  pose proof (to_uint_nonnil n) as Hnil.
  pose proof (int_digits_uint_start _ Hnil) as Hdigits.
  rewrite DecimalNat.Unsigned.of_to in Hdigits.
  unfold Py.str_of_nat in *.
  destruct (Nat.to_uint n) as [|d|d|d|d|d|d|d|d|d|d]; [done|..];
    cbn [NilEmpty.string_of_uint] in *; cbn iota; rewrite Hdigits;
    f_equal; lia.
Qed.

End decimal_facts.

Lemma contains_startswith (sub s : string) :
  Py.startswith sub s = true → Py.contains sub s = true.
Proof. intros H. destruct s; cbn [Py.contains]; by rewrite H. Qed.

Lemma contains_app (sub pre rest : string) :
  Py.contains sub (pre +:+ sub +:+ rest) = true.
Proof.
  induction pre as [|c pre IH].
  - rewrite str_app_nil_l. apply contains_startswith, startswith_app.
  - rewrite str_app_cons. cbn [Py.contains]. rewrite IH. apply orb_true_r.
Qed.

Lemma str_forall_app (P : ascii → bool) (s t : string) :
  str_forall P (s +:+ t) = str_forall P s && str_forall P t.
Proof.
  induction s as [|c s IH]; [done|].
  rewrite str_app_cons. cbn [str_forall]. by rewrite IH, andb_assoc.
Qed.

Lemma part_title_split (title : string) (i : nat) :
  part_title title i
  = (title +:+ " ") +:+ "(Part " +:+ (Py.str_of_nat i +:+ ")").
Proof. unfold part_title. by rewrite str_app_assoc. Qed.

Lemma part_title_not_main (title : string) (i : nat) (p : page) :
  page_title p = part_title title i → is_main title p = false.
Proof.
  intros Hname. unfold is_main. apply String.eqb_neq. rewrite Hname. intros Heq.
  apply (f_equal String.length) in Heq. unfold part_title in Heq.
  rewrite !str_length_app in Heq. cbn in Heq. lia.
Qed.

Lemma part_title_is_part (title : string) (i : nat) (p : page) :
  page_title p = part_title title i → is_part title p = true.
Proof.
  intros Hname. unfold is_part.
  rewrite (part_title_not_main title i p Hname), Hname. cbn [negb andb].
  unfold part_title.
  change (" (Part ") with (" (Part" +:+ " ").
  rewrite (str_app_assoc " (Part" " ").
  rewrite <- (str_app_nil_l (title +:+ " (Part" +:+ _)).
  rewrite <- (str_app_assoc title). apply contains_app.
Qed.

Lemma part_number_of_part_title (title : string) (i : nat) (p : page) :
  Py.contains "(Part " (title +:+ " ") = false →
  page_title p = part_title title i →
  part_number p = Ok (Z.of_nat i).
Proof.
  intros Hno Hname.
  unfold part_number. rewrite Hname, part_title_split.
  rewrite split_first; [|done|].
  - rewrite (split_one_piece "Part " "(")
      by (rewrite str_forall_app, str_forall_str_of_nat; done).
    cbn [index lookup list_lookup result_bind].
    rewrite <- (str_app_nil_r (_ +:+ ")")), str_app_assoc.
    rewrite split_first; [|done|].
    + cbn [index lookup list_lookup result_bind]. apply int_str_of_nat.
    + intros n Hn. apply (startswith_first_char "" ")"); [|done].
      by apply str_forall_str_of_nat.
  - intros n Hn. rewrite str_length_app in Hn. cbn in Hn.
    rewrite (str_drop_app n title " ") by lia.
    rewrite part_marker_border, <- str_drop_app by lia.
    by apply contains_drop.
Qed.

(** X9. Round trip between the naming of the part pages and the sort key:
    for a title that does not itself hold ["(Part "] (taken with the space
    that follows it), the page named [f"{title} (Part {i})"] is not taken
    for the main page, is recognised as a part of that title, and its sort
    key is [i]. *)
Theorem part_number_part_title (title : string) (i : nat) (p : page) :
  Py.contains "(Part " (title +:+ " ") = false →
  page_title p = part_title title i →
  is_main title p = false
  ∧ is_part title p = true
  ∧ part_number p = Ok (Z.of_nat i).
Proof.
  intros Hno Hname.
  split; [by apply (part_title_not_main title i)|].
  split; [by apply (part_title_is_part title i)|].
  by apply (part_number_of_part_title title).
Qed.

Lemma part_number_part_title_witness :
  part_number (titled (part_title "Alan Turing" 10) []) = Ok 10%Z.
Proof.
  apply (part_number_part_title "Alan Turing" 10); by vm_compute.
Defined.

(** ** The store helpers *)

Lemma get_database_pages_state (database_id title : string) (w : notion) :
  ∃ pages,
    get_database_pages database_id title w
    = (Ok pages,
       {| db_pages := db_pages w;
          calls := calls w ++ [DatabasesQuery database_id title];
          faults := tail (faults w) |})
    ∧ pages
      = if default false (head (faults w)) then []
        else List.filter
               (λ p, negb (archived p) && Py.contains title (page_title p))
               (db_pages w).
Proof.
  unfold get_database_pages, try_except, Store.databases_query, Store.request.
  destruct (default false (head (faults w))); by eexists.
Qed.

Lemma get_page_blocks_state (i : string) (w : notion) :
  ∃ blocks,
    get_page_blocks i w
    = (Ok blocks,
       {| db_pages := db_pages w;
          calls := calls w ++ [BlocksChildrenList i];
          faults := tail (faults w) |})
    ∧ blocks
      = if default false (head (faults w)) then []
        else match Store.lookup_page i (db_pages w) with
             | Some p => children p
             | None => []
             end.
Proof.
  unfold get_page_blocks, try_except, Store.blocks_children_list, Store.request.
  destruct (default false (head (faults w))); [by eexists|].
  destruct (Store.lookup_page i (db_pages w)); by eexists.
Qed.

(** X10. [get_database_pages] never raises and never changes a page: it
    issues one query and returns its result, the pages not in the trash
    whose name contains the title, in store order, or the empty list when
    the query fails. *)
Theorem get_database_pages_never_raises (database_id title : string) (w : notion) :
  let run := get_database_pages database_id title w in
  db_pages run.2 = db_pages w
  ∧ calls run.2 = calls w ++ [DatabasesQuery database_id title]
  ∧ run.1
    = Ok (if default false (head (faults w)) then []
          else List.filter
                 (λ p, negb (archived p) && Py.contains title (page_title p))
                 (db_pages w)).
Proof.
  cbn zeta.
  destruct (get_database_pages_state database_id title w) as (pages & -> & ->).
  done.
Qed.

(** X11. [get_page_blocks] never raises and never changes a page: it issues
    one request and returns the children of the page, or the empty list
    when the request fails or the store has no page with that id, so that a
    failed read cannot be told from a page without blocks. *)
Theorem get_page_blocks_never_raises (i : string) (w : notion) :
  let run := get_page_blocks i w in
  db_pages run.2 = db_pages w
  ∧ calls run.2 = calls w ++ [BlocksChildrenList i]
  ∧ run.1
    = Ok (if default false (head (faults w)) then []
          else match Store.lookup_page i (db_pages w) with
               | Some p => children p
               | None => []
               end).
Proof.
  cbn zeta. destruct (get_page_blocks_state i w) as (blocks & -> & ->). done.
Qed.

Lemma collect_blocks_state (acc : list block) (parts : list page) (w : notion) :
  ∃ blocks,
    collect_blocks acc parts w
    = (Ok blocks,
       {| db_pages := db_pages w;
          calls := calls w ++ map (λ p, BlocksChildrenList (page_id p)) parts;
          faults := drop (length parts) (faults w) |}).
Proof.
  revert acc w. induction parts as [|part parts IH]; intros acc w.
  - exists acc. cbn. rewrite app_nil_r, drop_0. by destruct w.
  - cbn [collect_blocks]. rewrite run_bind.
    destruct (get_page_blocks_state (page_id part) w) as (bs & -> & _).
    destruct (IH (acc ++ bs)
                {| db_pages := db_pages w;
                   calls := calls w ++ [BlocksChildrenList (page_id part)];
                   faults := tail (faults w) |}) as (blocks & ->).
    exists blocks. cbn [db_pages calls faults map length].
    rewrite <- app_assoc. cbn [app].
    assert (drop (length parts) (tail (faults w)) = drop (S (length parts)) (faults w))
      as -> by (destruct (faults w); cbn [tail]; [by rewrite !drop_nil|done]).
    done.
Qed.

Lemma append_request_cases (i : string) (b : list block) (w : notion) :
  Store.blocks_children_append i b w
  = (Ok tt,
     {| db_pages := Store.update_page i (Store.extend_children b) (db_pages w);
        calls := calls w ++ [BlocksChildrenAppend i b];
        faults := tail (faults w) |})
  ∨ ∃ e,
      Store.blocks_children_append i b w
      = (Raise e,
         {| db_pages := db_pages w;
            calls := calls w ++ [BlocksChildrenAppend i b];
            faults := tail (faults w) |}).
Proof.
  unfold Store.blocks_children_append, Store.request.
  destruct (default false (head (faults w))); [right; by eexists|].
  destruct (Store.lookup_page i (db_pages w)); [by left|right; by eexists].
Qed.

(** The pages after the re-append loop: only the children of the target
    page grow, by the batches that were served. *)
Lemma append_loop_pages (i : string) (batches : list (list block)) (w : notion) :
  ∃ n,
    n ≤ length batches
    ∧ db_pages (for_each batches (Store.blocks_children_append i) w).2
      = Store.update_page i (Store.extend_children (concat (take n batches)))
          (db_pages w)
    ∧ calls (for_each batches (Store.blocks_children_append i) w).2
      = calls w ++ map (BlocksChildrenAppend i) (take (S n `min` length batches) batches)
    ∧ ((for_each batches (Store.blocks_children_append i) w).1 = Ok tt →
       n = length batches)
    ∧ (∀ e, (for_each batches (Store.blocks_children_append i) w).1 = Raise e →
            n < length batches).
Proof.
  revert w. induction batches as [|b bs IH]; intros w.
  - exists 0. cbn. by rewrite update_page_id, app_nil_r.
  - cbn [for_each]. rewrite run_bind.
    destruct (append_request_cases i b w) as [->|[e ->]].
    + match goal with
      | |- context [for_each bs _ ?w1] =>
          destruct (IH w1) as (n & Hn & Hdb & Hcalls & Hok & Hfail)
      end.
      exists (S n). cbn [length take concat map]. split; [lia|].
      rewrite Hdb, Hcalls. cbn [db_pages calls].
      rewrite update_page_extend_twice. split; [done|].
      split; [|split; [intros Hrun; by rewrite Hok|]].
      * rewrite <- app_assoc. cbn [app].
        replace (S (S n) `min` S (length bs)) with (S (S n `min` length bs)) by lia.
        done.
      * intros e Hrun. specialize (Hfail e Hrun). lia.
    + exists 0. cbn [snd fst db_pages calls take concat length].
      rewrite update_page_id. split; [lia|]. split; [done|].
      split; [|split; [done|intros; lia]].
      replace (1 `min` S (length bs)) with 1 by lia.
      cbn [take map]. by rewrite ?take_0.
Qed.

(** ** Reassembly: the whole run *)

Section run_facts.
Implicit Types (ps : list page) (w : notion) (p q m : page).

Lemma combine_run_full database_id title infobox_data w (m : page) (sorted : list page) :
  (classify title (discovered database_id title w)).1 = Some m →
  sort_by_key part_number (classify title (discovered database_id title w)).2
  = Ok sorted →
  combine_pages_into_single database_id title infobox_data w
  = merge_into_main m sorted
      (collection database_id title m sorted w).1
      (collection database_id title m sorted w).2.
Proof.
  unfold discovered, collection, combine_pages_into_single. rewrite run_bind.
  destruct (get_database_pages_run database_id title w) as (pages & w1 & -> & _).
  cbn [fst snd]. intros Hmain Hsort.
  destruct pages as [|p0 pages]; [done|].
  destruct (classify title (p0 :: pages)) as [main parts]. cbn [fst snd] in *.
  subst main. rewrite run_bind. unfold lift. rewrite Hsort.
  rewrite run_bind.
  destruct (get_page_blocks_run (page_id m) w1) as (bs & w2 & -> & _).
  rewrite run_bind. cbn [fst snd].
  by destruct (collect_blocks_run ([] ++ bs) sorted w2) as (all & w3 & -> & _).
Qed.

Lemma collection_state database_id title m (sorted : list page) w :
  (collection database_id title m sorted w).2
  = {| db_pages := db_pages w;
       calls := calls w
                ++ [DatabasesQuery database_id title; BlocksChildrenList (page_id m)]
                ++ map (λ p, BlocksChildrenList (page_id p)) sorted;
       faults := drop (length sorted) (tail (tail (faults w))) |}.
Proof.
  unfold collection.
  destruct (get_database_pages_state database_id title w) as (pages & -> & _).
  cbn [fst snd].
  match goal with
  | |- context [get_page_blocks _ ?w1] =>
      destruct (get_page_blocks_state (page_id m) w1) as (bs & -> & _)
  end.
  cbn [fst snd db_pages calls faults].
  match goal with
  | |- context [collect_blocks ?acc sorted ?w2] =>
      destruct (collect_blocks_state acc sorted w2) as (all & ->)
  end.
  cbn [fst snd db_pages calls faults]. by rewrite <- !app_assoc.
Qed.

Lemma collection_blocks database_id title m (sorted : list page) w :
  faults w = [] →
  NoDup (map page_id (db_pages w)) →
  m ∈ db_pages w →
  (∀ p, p ∈ sorted → p ∈ db_pages w) →
  (collection database_id title m sorted w).1
  = children m ++ concat (map children sorted).
Proof.
  intros Hf Hnd Hm Hsorted. unfold collection.
  destruct (get_database_pages_served database_id title w Hf) as (w1 & -> & Hdb1 & Hf1).
  cbn [fst snd].
  destruct (get_page_blocks_served m w1 Hf1) as (w2 & -> & Hdb2 & Hf2).
  { rewrite Hdb1. by apply lookup_page_NoDup. }
  cbn [fst snd].
  destruct (collect_blocks_served ([] ++ children m) sorted w2 Hf2)
    as (w3 & -> & _).
  { intros p Hp. rewrite Hdb2, Hdb1. apply lookup_page_NoDup; [done|]. by apply Hsorted. }
  done.
Qed.

Lemma lookup_page_update_other i j ps (f : page → page) :
  (∀ p, page_id (f p) = page_id p) →
  is_Some (Store.lookup_page i ps) →
  is_Some (Store.lookup_page i (Store.update_page j f ps)).
Proof.
  intros Hf. unfold Store.lookup_page, Store.update_page.
  induction ps as [|p ps IH]; [done|]. cbn [List.filter map].
  assert (Store.has_id i (if Store.has_id j p then f p else p) = Store.has_id i p)
    as ->.
  { destruct (Store.has_id j p); [|done]. unfold Store.has_id. by rewrite Hf. }
  destruct (Store.has_id i p); [by eexists|apply IH].
Qed.

Lemma has_id_eq i p : Store.has_id i p = bool_decide (page_id p = i).
Proof.
  unfold Store.has_id. destruct (String.eqb_spec (page_id p) i).
  - by rewrite bool_decide_eq_true_2.
  - by rewrite bool_decide_eq_false_2.
Qed.

Lemma archive_fold_map (parts : list page) ps :
  fold_left (λ ps p, Store.update_page (page_id p) Store.set_archived ps) parts ps
  = map (λ q, if bool_decide (page_id q ∈ map page_id parts)
              then Store.set_archived q else q) ps.
Proof.
  revert ps. induction parts as [|p parts IH]; intros ps.
  - cbn. rewrite <- (map_id ps) at 1. apply map_ext. intros q.
    rewrite bool_decide_eq_false_2; [done|]. apply not_elem_of_nil.
  - cbn [fold_left]. rewrite IH. unfold Store.update_page. rewrite map_map.
    apply map_ext. intros q. cbn [map]. rewrite has_id_eq.
    destruct (decide (page_id q = page_id p)) as [Heq|Hne].
    + rewrite (bool_decide_eq_true_2 (page_id q = page_id p)) by done.
      rewrite (bool_decide_eq_true_2 (page_id q ∈ _ :: _)) by (rewrite Heq; by left).
      change (page_id (Store.set_archived q)) with (page_id q).
      by case_bool_decide.
    + rewrite (bool_decide_eq_false_2 (page_id q = page_id p)) by done.
      case_bool_decide as Hin.
      * rewrite bool_decide_eq_true_2; [done|by right].
      * rewrite bool_decide_eq_false_2; [done|].
        intros [?|?]%elem_of_cons; done.
Qed.

Lemma archive_request_served i w :
  faults w = [] →
  is_Some (Store.lookup_page i (db_pages w)) →
  try_except (Store.pages_update_archived i) (λ _, mret ()) w
  = (Ok tt,
     {| db_pages := Store.update_page i Store.set_archived (db_pages w);
        calls := calls w ++ [PagesUpdateArchived i];
        faults := [] |}).
Proof.
  intros Hf [p Hp].
  unfold try_except, Store.pages_update_archived, Store.request.
  by rewrite Hf, Hp.
Qed.

Lemma archive_parts_served (parts : list page) w :
  faults w = [] →
  (∀ p, p ∈ parts → is_Some (Store.lookup_page (page_id p) (db_pages w))) →
  archive_parts parts w
  = (Ok tt,
     {| db_pages :=
          fold_left (λ ps p, Store.update_page (page_id p) Store.set_archived ps)
                    parts (db_pages w);
        calls := calls w ++ map (λ p, PagesUpdateArchived (page_id p)) parts;
        faults := [] |}).
Proof.
  unfold archive_parts. revert w.
  induction parts as [|part parts IH]; intros w Hf Hparts.
  - cbn. rewrite app_nil_r. destruct w; cbn in *. by subst.
  - cbn [for_each]. rewrite run_bind.
    rewrite archive_request_served; [|done|apply Hparts; by left].
    rewrite IH; cbn [db_pages calls faults]; [|done|].
    + cbn [fold_left map]. by rewrite <- app_assoc.
    + intros p Hp. apply lookup_page_update_other; [done|]. apply Hparts. by right.
Qed.

(** The run on a store that serves every request and has distinct ids. *)
Lemma combine_healthy_state database_id title infobox_data w m (sorted : list page) :
  faults w = [] →
  NoDup (map page_id (db_pages w)) →
  (classify title (discovered database_id title w)).1 = Some m →
  sort_by_key part_number (classify title (discovered database_id title w)).2
  = Ok sorted →
  let all_blocks := children m ++ concat (map children sorted) in
  combine_pages_into_single database_id title infobox_data w
  = (Ok (Some (page_id m)),
     {| db_pages := map (merged_page m sorted all_blocks) (db_pages w);
        calls := calls w ++ merge_requests database_id title m sorted all_blocks;
        faults := [] |}).
Proof.
  intros Hf Hnd Hmain Hsort all_blocks.
  pose proof (classify_main _ _ _ Hmain) as [Hm _].
  apply discovered_elem in Hm.
  assert (∀ p, p ∈ sorted → p ∈ db_pages w) as Hsorted.
  { intros p Hp. apply (discovered_elem database_id title).
    apply (classify_parts title). by rewrite <- (sort_by_key_perm _ _ _ Hsort). }
  rewrite (combine_run_full _ _ _ _ m sorted Hmain Hsort).
  rewrite collection_state, collection_blocks by done. fold all_blocks.
  rewrite Hf. cbn [tail]. rewrite drop_nil.
  unfold merge_into_main, try_except. rewrite run_bind.
  rewrite append_batches_chunks, append_loop_served; cbn [db_pages calls faults];
    [|done|by eapply lookup_page_elem].
  rewrite run_bind, archive_parts_served; cbn [db_pages calls faults]; [|done|].
  - rewrite chunks_concat by (unfold batch_size; lia).
    rewrite archive_fold_map. unfold mret, M_ret, ret. f_equal. f_equal.
    + unfold Store.update_page. rewrite map_map. apply map_ext. intros q.
      unfold merged_page.
      assert (page_id (if Store.has_id (page_id m) q
                       then Store.extend_children all_blocks q else q) = page_id q)
        as -> by (by destruct (Store.has_id (page_id m) q)).
      done.
    + unfold merge_requests. by rewrite <- !app_assoc.
  - intros p Hp. apply lookup_page_update_other; [done|].
    eapply lookup_page_elem; [|done]. by apply Hsorted.
Qed.

End run_facts.

(** X12. The pages after a run on a healthy store.  When every request is
    served, the page ids are distinct, a main page is found and the part
    numbers parse, [combine_pages_into_single] returns the id of the main
    page and leaves the store as follows: the main page holds its former
    children followed by the collected sequence (its own children again,
    then the children of the part pages in sorted order); every sorted
    part page is archived and keeps its children; every other page is
    untouched; no page is added, removed, renamed or given a new id. *)
Theorem combine_healthy_pages database_id title infobox_data w
    (m : page) (sorted : list page) :
  faults w = [] →
  NoDup (map page_id (db_pages w)) →
  (classify title (discovered database_id title w)).1 = Some m →
  sort_by_key part_number (classify title (discovered database_id title w)).2
  = Ok sorted →
  let all_blocks := children m ++ concat (map children sorted) in
  let run := combine_pages_into_single database_id title infobox_data w in
  run.1 = Ok (Some (page_id m))
  ∧ db_pages run.2 = map (merged_page m sorted all_blocks) (db_pages w)
  ∧ map page_id (db_pages run.2) = map page_id (db_pages w)
  ∧ map page_title (db_pages run.2) = map page_title (db_pages w)
  ∧ (∀ q, q ∈ db_pages w → page_id q ≠ page_id m →
          page_id q ∉ map page_id sorted →
          merged_page m sorted all_blocks q = q).
Proof.
  intros Hf Hnd Hmain Hsort all_blocks run. subst run.
  rewrite (combine_healthy_state _ _ infobox_data _ m sorted Hf Hnd Hmain Hsort).
  cbn [fst snd db_pages]. fold all_blocks.
  assert (∀ q, page_id (merged_page m sorted all_blocks q) = page_id q
               ∧ page_title (merged_page m sorted all_blocks q) = page_title q)
    as Hsame.
  { intros q. unfold merged_page.
    by destruct (Store.has_id (page_id m) q), (bool_decide _). }
  split; [done|]. split; [done|].
  split; [rewrite map_map; apply map_ext; intros q; apply Hsame|].
  split; [rewrite map_map; apply map_ext; intros q; apply Hsame|].
  intros q _ Hq Hnot. unfold merged_page. rewrite has_id_eq.
  rewrite bool_decide_eq_false_2 by done.
  by rewrite bool_decide_eq_false_2.
Qed.

Lemma combine_healthy_pages_witness :
  db_pages (combine_pages_into_single "db" "T" ∅ two_page_store).2
  = [ {| page_id := "p1"; page_title := "T";
         children := [block_zero; block_zero; block_one]; archived := false |};
      {| page_id := "p2"; page_title := "T (Part 2)";
         children := [block_one]; archived := true |} ].
Proof.
  destruct (combine_healthy_pages "db" "T" ∅ two_page_store
              {| page_id := "p1"; page_title := "T";
                 children := [block_zero]; archived := false |}
              [ {| page_id := "p2"; page_title := "T (Part 2)";
                   children := [block_one]; archived := false |} ])
    as (_ & Hpages & _); [done| |by vm_compute|by vm_compute|].
  - apply (bool_decide_unpack _). by vm_compute.
  - rewrite Hpages. by vm_compute.
Defined.

(** X13. The requests of a run on a healthy store, in order: the discovery
    query, the read of the main page, the reads of the part pages in
    sorted order, the appends to the main page batch by batch, and last the
    archival of the part pages in sorted order; nothing else is sent. *)
Theorem combine_healthy_requests database_id title infobox_data w
    (m : page) (sorted : list page) :
  faults w = [] →
  NoDup (map page_id (db_pages w)) →
  (classify title (discovered database_id title w)).1 = Some m →
  sort_by_key part_number (classify title (discovered database_id title w)).2
  = Ok sorted →
  let all_blocks := children m ++ concat (map children sorted) in
  let run := combine_pages_into_single database_id title infobox_data w in
  calls run.2
  = calls w
    ++ [DatabasesQuery database_id title; BlocksChildrenList (page_id m)]
    ++ map (λ p, BlocksChildrenList (page_id p)) sorted
    ++ map (BlocksChildrenAppend (page_id m)) (chunks all_blocks batch_size)
    ++ map (λ p, PagesUpdateArchived (page_id p)) sorted
  ∧ length (calls run.2)
    = length (calls w) + 2 + 2 * length sorted + (length all_blocks + 49) / 50.
Proof.
  intros Hf Hnd Hmain Hsort all_blocks run. subst run.
  rewrite (combine_healthy_state _ _ infobox_data _ m sorted Hf Hnd Hmain Hsort).
  cbn [snd calls]. fold all_blocks. split; [done|].
  unfold merge_requests. rewrite !length_app, !length_map.
  rewrite chunks_length by (unfold batch_size; lia). unfold batch_size.
  cbn [length].
  replace (length all_blocks + 50 - 1) with (length all_blocks + 49) by lia. lia.
Qed.

Lemma combine_healthy_requests_witness :
  calls (combine_pages_into_single "db" "T" ∅ two_page_store).2
  = [DatabasesQuery "db" "T"; BlocksChildrenList "p1"; BlocksChildrenList "p2";
     BlocksChildrenAppend "p1" [block_zero; block_one];
     PagesUpdateArchived "p2"].
Proof.
  destruct (combine_healthy_requests "db" "T" ∅ two_page_store
              {| page_id := "p1"; page_title := "T";
                 children := [block_zero]; archived := false |}
              [ {| page_id := "p2"; page_title := "T (Part 2)";
                   children := [block_one]; archived := false |} ])
    as [Hcalls _]; [done| |by vm_compute|by vm_compute|].
  - apply (bool_decide_unpack _). by vm_compute.
  - rewrite Hcalls. by vm_compute.
Defined.

Lemma archived_update_extend i (blocks : list block) (ps : list page) :
  map archived (Store.update_page i (Store.extend_children blocks) ps)
  = map archived ps.
Proof.
  unfold Store.update_page. rewrite map_map. apply map_ext. intros q.
  by destruct (Store.has_id i q).
Qed.

Lemma filter_archive_appends i (batches : list (list block)) :
  List.filter is_archive_call (map (BlocksChildrenAppend i) batches) = [].
Proof. induction batches as [|b bs IH]; [done|]. cbn. exact IH. Qed.

Lemma filter_archive_lists (parts : list page) :
  List.filter is_archive_call (map (λ p, BlocksChildrenList (page_id p)) parts) = [].
Proof. induction parts as [|p ps IH]; [done|]. cbn. exact IH. Qed.

(** X14. Nothing is retired after a failed merge.  When a main page is
    found and the part numbers parse but the run returns [None], an append
    has failed: for some [n] smaller than the number of batches of 50 of
    the collected sequence, the first [n] batches were served and the next
    one failed.  The main page has then grown by exactly those [n]
    batches, in order, and nothing else in the store has changed; the
    requests sent are the discovery query, the reads, and the [n + 1] first
    appends; no archive request has been sent and no page has changed its
    archived flag. *)
Theorem combine_failed_append_archives_nothing database_id title infobox_data w
    (m : page) (sorted : list page) :
  (classify title (discovered database_id title w)).1 = Some m →
  sort_by_key part_number (classify title (discovered database_id title w)).2
  = Ok sorted →
  let run := combine_pages_into_single database_id title infobox_data w in
  let batches := chunks (collection database_id title m sorted w).1 batch_size in
  run.1 = Ok None →
  (∃ n,
     n < length batches
     ∧ db_pages run.2
       = Store.update_page (page_id m)
           (Store.extend_children (concat (take n batches))) (db_pages w)
     ∧ calls run.2
       = calls w
         ++ [DatabasesQuery database_id title; BlocksChildrenList (page_id m)]
         ++ map (λ p, BlocksChildrenList (page_id p)) sorted
         ++ map (BlocksChildrenAppend (page_id m)) (take (S n) batches))
  ∧ map archived (db_pages run.2) = map archived (db_pages w)
  ∧ List.filter is_archive_call (calls run.2)
    = List.filter is_archive_call (calls w).
Proof.
  intros Hmain Hsort run batches. subst run batches.
  rewrite (combine_run_full _ _ infobox_data _ m sorted Hmain Hsort).
  rewrite collection_state.
  set (blocks := (collection database_id title m sorted w).1).
  unfold merge_into_main, try_except. rewrite run_bind.
  rewrite append_batches_chunks.
  match goal with
  | |- context [for_each ?bs _ ?w3] =>
      destruct (append_loop_pages (page_id m) bs w3)
        as (n & Hn & Hdb & Hcalls & _ & Hfail);
      destruct (for_each bs (Store.blocks_children_append (page_id m)) w3)
        as [[[]|e] w4]
  end.
  - rewrite run_bind. destruct (archive_parts_run sorted w4) as (w5 & ->). done.
  - intros _. cbn [fst snd] in *. unfold mret, M_ret, ret. cbn [snd].
    specialize (Hfail e eq_refl).
    replace (S n `min` length (chunks blocks batch_size)) with (S n) in Hcalls
      by lia.
    rewrite Hdb, Hcalls. cbn [db_pages calls].
    split; [exists n; split; [done|split; [done|]]|].
    { rewrite <- !app_assoc. done. }
    split; [apply archived_update_extend|].
    rewrite !List.filter_app, filter_archive_appends, filter_archive_lists.
    cbn [List.filter is_archive_call]. by rewrite !app_nil_r.
Qed.

Lemma combine_failed_append_archives_nothing_witness :
  map archived
      (db_pages (combine_pages_into_single "db" "T" ∅ two_page_store_append_fails).2)
  = [false; false].
Proof.
  destruct (combine_failed_append_archives_nothing "db" "T" ∅
              two_page_store_append_fails
              {| page_id := "p1"; page_title := "T";
                 children := [block_zero]; archived := false |}
              [ {| page_id := "p2"; page_title := "T (Part 2)";
                   children := [block_one]; archived := false |} ])
    as (_ & Harchived & _); [by vm_compute..|].
  rewrite Harchived. by vm_compute.
Defined.

(** X15. A run that does not reach the merge writes nothing.  When no page
    has the title as its display name (in particular when the query finds
    no page or fails), or when a part number does not parse, the only
    request sent is the discovery query and every page is left as it was. *)
Theorem combine_early_exit_writes_nothing database_id title infobox_data w :
  (classify title (discovered database_id title w)).1 = None
  ∨ (∃ e, sort_by_key part_number
            (classify title (discovered database_id title w)).2 = Raise e) →
  let run := combine_pages_into_single database_id title infobox_data w in
  db_pages run.2 = db_pages w
  ∧ calls run.2 = calls w ++ [DatabasesQuery database_id title].
Proof.
  unfold discovered, combine_pages_into_single. rewrite run_bind.
  destruct (get_database_pages_state database_id title w) as (pages & -> & _).
  cbn [fst snd]. intros Hexit.
  destruct pages as [|p0 pages]; [done|].
  destruct (classify title (p0 :: pages)) as [main parts]. cbn [fst snd] in *.
  rewrite run_bind. unfold lift.
  destruct (sort_by_key part_number parts) as [sorted|e]; [|done].
  destruct Hexit as [->|[e [=]]]. done.
Qed.

Lemma combine_early_exit_writes_nothing_witness :
  let w := {| db_pages := [titled "T (Partial)" []]; calls := []; faults := [] |} in
  db_pages (combine_pages_into_single "db" "T" ∅ w).2 = db_pages w.
Proof.
  intros w.
  apply (combine_early_exit_writes_nothing "db" "T" ∅ w).
  left. by vm_compute.
Defined.

(** ** The database schema *)

Lemma fold_insert_const_lookup {V} (v : V) (keys : list string)
    (acc : gmap string V) (k : string) :
  fold_left (λ m col, <[col := v]> m) keys acc !! k
  = if decide (k ∈ keys) then Some v else acc !! k.
Proof.
  revert acc. induction keys as [|col keys IH]; intros acc.
  - cbn. by rewrite decide_False by apply not_elem_of_nil.
  - cbn [fold_left]. rewrite IH.
    destruct (decide (k ∈ keys)) as [Hin|Hnot].
    + by rewrite decide_True by (by right).
    + destruct (decide (k = col)) as [->|Hne].
      * rewrite lookup_insert_eq. by rewrite decide_True by (by left).
      * rewrite lookup_insert_ne by done.
        rewrite decide_False; [done|]. by intros [?|?]%elem_of_cons.
Qed.

(** X16. The schema [create_database] sends has one text column per given
    column name and, besides, the title column [Name]; a column that is
    itself called [Name] replaces the title column, so that the schema then
    has no title column at all. *)
Theorem database_properties_lookup (columns : list string) (k : string) :
  database_properties columns !! k
  = if decide (k ∈ columns) then Some rich_text_schema
    else if decide (k = "Name") then Some title_schema
    else None.
Proof.
  unfold database_properties. rewrite fold_insert_const_lookup.
  destruct (decide (k ∈ columns)); [done|].
  destruct (decide (k = "Name")) as [->|Hne].
  - apply lookup_singleton_eq.
  - by apply lookup_singleton_ne.
Qed.

(** ** Fetching *)

Lemma split_go_nonempty (sep cur s : string) (skip : nat) :
  Py.split_go sep skip cur s ≠ [].
Proof.
  revert skip cur. induction s as [|c s IH]; intros skip cur; [done|].
  cbn [Py.split_go]. destruct skip; [|apply IH].
  destruct (Py.startswith sep (String c s)); [done|apply IH].
Qed.

Lemma split_last_is_Some (sep s : string) : is_Some (last (Py.split sep s)).
Proof.
  destruct (last (Py.split sep s)) eqn:Hlast; [by eexists|].
  apply last_None in Hlast. by apply split_go_nonempty in Hlast.
Qed.

Lemma fetch_raise_cases (url : string) (get : string → result node) (e : exn) :
  fetch_wikipedia_html url get = Raise e →
  (Py.contains "wikipedia.org/wiki/" url = false ∧ e = ValueError)
  ∨ (Py.contains "wikipedia.org/wiki/" url = true
     ∧ ∃ endpoint, get endpoint = Raise e).
Proof.
  unfold fetch_wikipedia_html.
  destruct (Py.contains "wikipedia.org/wiki/" url); cbn [negb].
  - destruct (split_last_is_Some "/wiki/" url) as [title ->]. cbn [result_bind].
    destruct (get _) as [html|e'] eqn:Hget; [done|].
    cbn. intros [= ->]. right. split; [done|]. by eexists.
  - intros [= <-]. by left.
Qed.

(** X17. [fetch_wikipedia_html] raises [ValueError], whatever the network
    would answer, exactly for the URLs that do not contain
    ["wikipedia.org/wiki/"]; any other exception it raises is the one
    raised by the request. *)
Theorem fetch_wikipedia_html_errors (url : string) (get : string → result node) :
  (Py.contains "wikipedia.org/wiki/" url = false →
   fetch_wikipedia_html url get = Raise ValueError)
  ∧ (∀ e, fetch_wikipedia_html url get = Raise e →
          (Py.contains "wikipedia.org/wiki/" url = false ∧ e = ValueError)
          ∨ (Py.contains "wikipedia.org/wiki/" url = true
             ∧ ∃ endpoint, get endpoint = Raise e)).
Proof.
  split.
  - unfold fetch_wikipedia_html. by intros ->.
  - intros e. apply fetch_raise_cases.
Qed.

Lemma fetch_wikipedia_html_errors_witness :
  fetch_wikipedia_html "https://example.org/Alan_Turing" (λ _, Ok bare_document)
  = Raise ValueError.
Proof.
  apply (fetch_wikipedia_html_errors "https://example.org/Alan_Turing").
  by vm_compute.
Defined.

Lemma str_forall_rev_app (P : ascii → bool) (s t : string) :
  str_forall P s = true → str_forall P t = true →
  str_forall P (String.rev_app s t) = true.
Proof.
  revert t. induction s as [|c s IH]; intros t Hs Ht; [done|].
  cbn [str_forall] in Hs. apply andb_true_iff in Hs as [Hc Hs].
  cbn [String.rev_app]. apply IH; [done|]. cbn [str_forall]. by rewrite Hc, Ht.
Qed.

(** The pieces of a split at a one-character separator are free of it. *)
Lemma split_go_char_free (c : ascii) (cur s : string) :
  without_char c cur = true →
  Forall (λ piece, without_char c piece = true)
         (Py.split_go (String c "") 0 cur s).
Proof.
  revert cur. induction s as [|a s IH]; intros cur Hcur.
  - cbn. constructor; [|constructor]. by apply str_forall_rev_app.
  - cbn [Py.split_go Py.startswith String.length].
    destruct (Ascii.eqb c a) eqn:Hca.
    + constructor; [by apply str_forall_rev_app|]. by apply IH.
    + apply IH. unfold without_char. cbn [str_forall]. by rewrite Hca.
Qed.

Lemma str_forall_join (P : ascii → bool) (sep : string) (parts : list string) :
  str_forall P sep = true →
  Forall (λ piece, str_forall P piece = true) parts →
  str_forall P (Py.join sep parts) = true.
Proof.
  intros Hsep. induction 1 as [|p parts Hp Hparts IH]; [done|].
  destruct parts as [|q parts]; [done|].
  change (Py.join sep (p :: q :: parts)) with (p +:+ sep +:+ Py.join sep (q :: parts)).
  by rewrite !str_forall_app, Hp, Hsep, IH.
Qed.

Lemma replace_char_free (c : ascii) (new s : string) :
  without_char c new = true →
  without_char c (Py.replace (String c "") new s) = true.
Proof.
  intros Hnew. unfold Py.replace, without_char.
  apply str_forall_join; [done|]. by apply split_go_char_free.
Qed.

(** X18. The title returned by [fetch_wikipedia_html] never holds an
    underscore. *)
Theorem fetch_wikipedia_html_title (url : string) (get : string → result node)
    (title : string) (html : node) :
  fetch_wikipedia_html url get = Ok (title, html) →
  without_char "_" title = true.
Proof.
  unfold fetch_wikipedia_html.
  destruct (negb _); [done|].
  destruct (last (Py.split "/wiki/" url)) as [raw|]; [|done]. cbn [result_bind].
  destruct (get _) as [body|e]; [|done]. cbn. intros [= <- _].
  by apply replace_char_free.
Qed.

Lemma fetch_wikipedia_html_title_witness :
  without_char "_" "Alan Turing" = true.
Proof.
  apply (fetch_wikipedia_html_title "https://en.wikipedia.org/wiki/Alan_Turing"
           (λ _, Ok bare_document) "Alan Turing" bare_document).
  by vm_compute.
Defined.

Lemma split_no_occurrence (sep s : string) :
  Py.contains sep s = false → Py.split sep s = [s].
Proof.
  intros Hno. unfold Py.split. rewrite <- (str_app_nil_r s) at 1.
  rewrite split_go_prefix.
  - cbn [Py.split_go]. by rewrite rev_rev_app.
  - intros n Hn. rewrite str_app_nil_r. by apply contains_drop.
Qed.

Lemma wiki_prefix_no_start (name : string) (n : nat) :
  n < String.length "https://en.wikipedia.org" →
  Py.startswith "/wiki/"
    (Py.str_drop n "https://en.wikipedia.org" +:+ "/wiki/" +:+ name) = false.
Proof.
  intros Hn.
  do 24 (destruct n as [|n]; [reflexivity|]).
  cbn in Hn. lia.
Qed.

(** X19. For a URL of the form [https://en.wikipedia.org/wiki/<name>] whose
    name does not itself contain ["/wiki/"], [fetch_wikipedia_html]
    requests the REST endpoint of exactly that name and, when the request
    succeeds, returns the name with its underscores replaced by spaces
    together with the document received. *)
Theorem fetch_wikipedia_html_canonical (name : string) (get : string → result node) :
  Py.contains "/wiki/" name = false →
  fetch_wikipedia_html ("https://en.wikipedia.org/wiki/" +:+ name) get
  = match get ("https://en.wikipedia.org/api/rest_v1/page/html/" +:+ name) with
    | Ok html => Ok (Py.replace "_" " " name, html)
    | Raise e => Raise e
    end.
Proof.
  intros Hname. unfold fetch_wikipedia_html.
  assert (Py.contains "wikipedia.org/wiki/"
            ("https://en.wikipedia.org/wiki/" +:+ name) = true) as ->.
  { change ("https://en.wikipedia.org/wiki/" +:+ name)
      with ("https://en." +:+ "wikipedia.org/wiki/" +:+ name).
    apply contains_app. }
  cbn [negb].
  change ("https://en.wikipedia.org/wiki/" +:+ name)
    with ("https://en.wikipedia.org" +:+ "/wiki/" +:+ name).
  rewrite split_first; [|done|intros n Hn; by apply wiki_prefix_no_start].
  rewrite split_no_occurrence by done. cbn [last result_bind].
  by destruct (get _).
Qed.

Lemma fetch_wikipedia_html_canonical_witness :
  fetch_wikipedia_html "https://en.wikipedia.org/wiki/Alan_Turing"
    (λ _, Ok bare_document)
  = Ok ("Alan Turing", bare_document).
Proof.
  assert (Py.contains "/wiki/" "Alan_Turing" = false) as Hname by (by vm_compute).
  exact (fetch_wikipedia_html_canonical "Alan_Turing" (λ _, Ok bare_document) Hname).
Defined.

(** ** The input check of the GUI *)

Lemma startswith_split (p s : string) :
  Py.startswith p s = true → ∃ rest, s = p +:+ rest.
Proof.
  revert s. induction p as [|a p IH]; intros s Hs; [by exists s|].
  destruct s as [|b s]; [done|]. cbn [Py.startswith] in Hs.
  destruct (Ascii.eqb_spec a b) as [->|]; [|done].
  destruct (IH s Hs) as [rest ->]. by exists rest.
Qed.

(** X20. Every URL the GUI accepts passes the check of
    [fetch_wikipedia_html]: when [validate_inputs] returns [True], the
    stripped URL starts with [https://en.wikipedia.org/wiki/], the token
    and the page id are not blank, and fetching that URL raises
    [ValueError] only if the request itself does. *)
Theorem validate_inputs_valid (url_var token_var page_id_var : string)
    (get : string → result node) :
  validate_inputs url_var token_var page_id_var = Valid →
  (∃ name, Py.strip url_var = "https://en.wikipedia.org/wiki/" +:+ name)
  ∧ Py.strip token_var ≠ ""
  ∧ Py.strip page_id_var ≠ ""
  ∧ Py.contains "wikipedia.org/wiki/" (Py.strip url_var) = true
  ∧ ((∀ endpoint, get endpoint ≠ Raise ValueError) →
     fetch_wikipedia_html (Py.strip url_var) get ≠ Raise ValueError).
Proof.
  unfold validate_inputs.
  destruct (Py.truthy (Py.strip url_var)) eqn:Hurl; [|done]. cbn [negb].
  destruct (Py.startswith _ (Py.strip url_var)) eqn:Hstart; [|done]. cbn [negb].
  destruct (Py.truthy (Py.strip token_var)) eqn:Htoken; [|done]. cbn [negb].
  destruct (Py.truthy (Py.strip page_id_var)) eqn:Hpage; [|done]. cbn [negb].
  intros _.
  apply startswith_split in Hstart as [name Hname].
  assert (Py.contains "wikipedia.org/wiki/" (Py.strip url_var) = true) as Hmarker.
  { rewrite Hname.
    change ("https://en.wikipedia.org/wiki/" +:+ name)
      with ("https://en." +:+ "wikipedia.org/wiki/" +:+ name).
    apply contains_app. }
  split; [by exists name|]. split; [by apply truthy_nonempty|].
  split; [by apply truthy_nonempty|]. split; [done|].
  intros Hget Hfetch.
  destruct (fetch_raise_cases _ _ _ Hfetch) as [[Hno _]|[_ [endpoint Hraise]]].
  - congruence.
  - by apply (Hget endpoint).
Qed.

Lemma validate_inputs_valid_witness :
  Py.contains "wikipedia.org/wiki/"
    (Py.strip " https://en.wikipedia.org/wiki/Alan_Turing ") = true.
Proof.
  apply (validate_inputs_valid " https://en.wikipedia.org/wiki/Alan_Turing "
           "secret_token" "page" (λ _, Ok bare_document)).
  by vm_compute.
Defined.

(** ** Uploading *)

Section upload_facts.
Implicit Types (w : workspace) (ps : list page)
  (items : list (gmap string property_value * list block)).

Lemma run_bindW {A B} (m : W A) (k : A → W B) w :
  bindW m k w
  = match m w with
    | (Ok a, w') => k a w'
    | (Raise e, w') => (Raise e, w')
    end.
Proof. done. Qed.

Lemma pages_create_cases database_id (item : gmap string property_value * list block) w :
  Upload.pages_create database_id item.1 item.2 w
  = if default false (head (faults (store w)))
    then (Raise APIError,
          {| store := {| db_pages := db_pages (store w);
                         calls := calls (store w);
                         faults := tail (faults (store w)) |};
             NOTION_PARENT_PAGE := NOTION_PARENT_PAGE w;
             NOTION_DATABASE_ID := NOTION_DATABASE_ID w;
             uploads := uploads w ++ [create_call database_id item] |})
    else (Ok tt,
          {| store := {| db_pages := db_pages (store w)
                                     ++ [created_page (db_pages (store w)) item];
                         calls := calls (store w);
                         faults := tail (faults (store w)) |};
             NOTION_PARENT_PAGE := NOTION_PARENT_PAGE w;
             NOTION_DATABASE_ID := NOTION_DATABASE_ID w;
             uploads := uploads w ++ [create_call database_id item] |}).
Proof.
  unfold Upload.pages_create, Upload.request.
  by destruct (default false (head (faults (store w)))).
Qed.

(** The creation loop on any store: the pages created are those of the
    requests served before the first failure. *)
Lemma create_loop_prefix database_id items w :
  let run := for_eachW items
               (λ item, Upload.pages_create database_id item.1 item.2) w in
  ∃ n,
    n ≤ length items
    ∧ db_pages (store run.2) = add_pages (db_pages (store w)) (take n items)
    ∧ uploads run.2
      = uploads w
        ++ map (create_call database_id) (take (S n `min` length items) items)
    ∧ calls (store run.2) = calls (store w)
    ∧ NOTION_DATABASE_ID run.2 = NOTION_DATABASE_ID w
    ∧ NOTION_PARENT_PAGE run.2 = NOTION_PARENT_PAGE w
    ∧ (run.1 = Ok tt ↔ n = length items)
    ∧ (faults (store w) = [] → n = length items ∧ faults (store run.2) = []).
Proof.
  cbn zeta. revert w. induction items as [|item items IH]; intros w.
  - exists 0. cbn. rewrite app_nil_r. by repeat split.
  - cbn [for_eachW]. rewrite run_bindW, pages_create_cases.
    destruct (default false (head (faults (store w)))) eqn:Hfault.
    + exists 0. cbn [fst snd store db_pages uploads calls take add_pages length
                     NOTION_DATABASE_ID NOTION_PARENT_PAGE].
      replace (1 `min` S (length items)) with 1 by lia.
      cbn [take map]. rewrite take_0. split; [lia|].
      do 5 (split; [done|]). split; [split; [done|lia]|].
      intros Hf. by rewrite Hf in Hfault.
    + match goal with
      | |- context [for_eachW items _ ?w1] =>
          destruct (IH w1) as (n & Hn & Hdb & Hup & Hcalls & Hid & Hpar & Hok & Hhealthy)
      end.
      exists (S n). cbn [length take add_pages].
      rewrite Hdb, Hup, Hcalls, Hid, Hpar.
      cbn [store db_pages uploads calls NOTION_DATABASE_ID NOTION_PARENT_PAGE faults].
      split; [lia|]. split; [done|]. split.
      { rewrite <- app_assoc. cbn [app].
        replace (S (S n) `min` S (length items)) with (S (S n `min` length items))
          by lia.
        done. }
      split; [done|]. split; [done|]. split; [done|]. split.
      * rewrite Hok. split; [by intros ->|by intros [= ->]].
      * intros Hf. destruct Hhealthy as [-> Hf']; [by rewrite Hf|]. done.
Qed.

Lemma create_pages_loop database_id title page_properties
    (page_chunks : list (list block)) w :
  create_pages database_id title page_properties page_chunks w
  = for_eachW (page_items title page_properties page_chunks)
      (λ item, Upload.pages_create database_id item.1 item.2) w.
Proof.
  unfold create_pages, page_items. cbn [for_eachW fst snd].
  rewrite !run_bindW.
  destruct (Upload.pages_create _ _ _ w) as [[[]|e] w1]; [|done].
  generalize (enumerate (tail page_chunks) 2). intros l. revert w1.
  induction l as [|[i chunk] l IH]; intros w1; [done|].
  cbn [map for_eachW fst snd]. rewrite !run_bindW.
  destruct (Upload.pages_create _ _ _ w1) as [[[]|e] w2]; [|done]. apply IH.
Qed.

Lemma fresh_page_id_fresh ps : Upload.fresh_page_id ps ∉ map page_id ps.
Proof.
  intros Hin. apply list_elem_of_fmap in Hin as (p & Hid & Hp).
  apply (f_equal String.length) in Hid. unfold Upload.fresh_page_id in Hid.
  assert (∀ n, String.length (str_repeat "p" n) = n) as Hlen.
  { induction n as [|n IHn]; [done|]. cbn [str_repeat].
    rewrite str_length_app, IHn. done. }
  rewrite Hlen in Hid.
  assert (String.length (page_id p)
          ≤ list_max (map (λ p, String.length (page_id p)) ps)) as Hmax.
  { pose proof (proj1 (list_max_le (map (λ p, String.length (page_id p)) ps) _)
                       (Nat.le_refl _)) as Hall.
    rewrite List.Forall_forall in Hall. apply Hall.
    apply (in_map (λ p, String.length (page_id p))). by apply list_elem_of_In. }
  lia.
Qed.

Lemma add_pages_app ps items :
  ∃ new_pages,
    add_pages ps items = ps ++ new_pages
    ∧ map page_title new_pages = map (λ item, Upload.title_of item.1) items
    ∧ map children new_pages = map snd items
    ∧ map archived new_pages = map (λ _, false) items
    ∧ (NoDup (map page_id ps) → NoDup (map page_id (ps ++ new_pages))).
Proof.
  revert ps. induction items as [|item items IH]; intros ps.
  - exists []. cbn. rewrite app_nil_r. by repeat split.
  - cbn [add_pages].
    destruct (IH (ps ++ [created_page ps item]))
      as (new & -> & Htitles & Hchildren & Harch & Hnd).
    exists (created_page ps item :: new). rewrite <- app_assoc. cbn [app map].
    rewrite Htitles, Hchildren, Harch. repeat split; try done.
    intros Hps. rewrite <- app_assoc in Hnd. cbn [app] in Hnd. apply Hnd.
    rewrite map_app. cbn [map]. apply NoDup_app. split; [done|]. split.
    + intros i Hi [->|[]%elem_of_nil]%elem_of_cons.
      by apply (fresh_page_id_fresh ps).
    + apply NoDup_singleton.
Qed.

End upload_facts.

Section create_pages_facts.
Implicit Types (w : workspace) (page_chunks : list (list block)).

Lemma enumerate_fst {A} (l : list A) (start : nat) :
  map fst (enumerate l start) = seq start (length l).
Proof. unfold enumerate. apply fst_zip. by rewrite length_seq. Qed.

Lemma enumerate_snd {A} (l : list A) (start : nat) :
  map snd (enumerate l start) = l.
Proof. unfold enumerate. apply snd_zip. by rewrite length_seq. Qed.

Lemma title_of_name (x : string) :
  Upload.title_of {[ "Name" := title_value x ]} = x.
Proof. unfold Upload.title_of. by rewrite lookup_singleton_eq. Qed.

Lemma page_items_titles title page_properties page_chunks :
  map (λ item, Upload.title_of item.1) (page_items title page_properties page_chunks)
  = Upload.title_of page_properties
    :: map (part_title title) (seq 2 (length page_chunks - 1)).
Proof.
  unfold page_items. cbn [map fst]. f_equal.
  replace (length page_chunks - 1) with (length (tail page_chunks))
    by (destruct page_chunks; cbn; lia).
  rewrite <- (enumerate_fst (tail page_chunks) 2), !map_map.
  apply map_ext. intros [i chunk]. apply title_of_name.
Qed.

Lemma page_items_children title page_properties page_chunks :
  map snd (page_items title page_properties page_chunks)
  = match page_chunks with
    | [] => [[]]
    | _ => map (λ chunk, (validate_blocks chunk).1) page_chunks
    end.
Proof.
  unfold page_items. cbn [map snd].
  assert (map snd
            (map (λ '(i, chunk),
                    ({[ "Name" := title_value (part_title title i) ]},
                     (validate_blocks chunk).1))
                 (enumerate (tail page_chunks) 2))
          = map (λ chunk, (validate_blocks chunk).1) (tail page_chunks)) as ->.
  { rewrite <- (enumerate_snd (tail page_chunks) 2) at 2. rewrite !map_map.
    apply map_ext. by intros [i chunk]. }
  by destruct page_chunks.
Qed.

Lemma page_items_length title page_properties page_chunks :
  length (page_items title page_properties page_chunks)
  = S (length page_chunks - 1).
Proof.
  unfold page_items, enumerate. cbn [length].
  rewrite length_map, length_zip, length_seq.
  destruct page_chunks; cbn; lia.
Qed.

(** The creation of the pages on a store that serves every request. *)
Lemma create_pages_served database_id title page_properties page_chunks w :
  faults (store w) = [] →
  let run := create_pages database_id title page_properties page_chunks w in
  ∃ new_pages,
    run.1 = Ok tt
    ∧ db_pages (store run.2) = db_pages (store w) ++ new_pages
    ∧ map page_title new_pages
      = Upload.title_of page_properties
        :: map (part_title title) (seq 2 (length page_chunks - 1))
    ∧ map children new_pages
      = match page_chunks with
        | [] => [[]]
        | _ => map (λ chunk, (validate_blocks chunk).1) page_chunks
        end
    ∧ Forall (λ p, archived p = false) new_pages
    ∧ (NoDup (map page_id (db_pages (store w))) →
       NoDup (map page_id (db_pages (store run.2))))
    ∧ uploads run.2
      = uploads w
        ++ map (create_call database_id)
               (page_items title page_properties page_chunks)
    ∧ calls (store run.2) = calls (store w)
    ∧ faults (store run.2) = []
    ∧ NOTION_DATABASE_ID run.2 = NOTION_DATABASE_ID w
    ∧ NOTION_PARENT_PAGE run.2 = NOTION_PARENT_PAGE w.
Proof.
  intros Hf. cbn zeta. rewrite create_pages_loop.
  destruct (create_loop_prefix database_id
              (page_items title page_properties page_chunks) w)
    as (n & _ & Hdb & Hup & Hcalls & Hid & Hpar & Hok & Hhealthy).
  destruct (Hhealthy Hf) as [-> Hf'].
  rewrite take_ge in Hdb by done.
  replace (S (length (page_items title page_properties page_chunks))
           `min` length (page_items title page_properties page_chunks))
    with (length (page_items title page_properties page_chunks)) in Hup by lia.
  rewrite take_ge in Hup by done.
  destruct (add_pages_app (db_pages (store w))
              (page_items title page_properties page_chunks))
    as (new & Hnew & Htitles & Hchildren & Harch & Hnd).
  exists new. split; [by apply Hok|]. rewrite Hdb, Hnew.
  split; [done|]. split; [by rewrite Htitles, page_items_titles|].
  split; [by rewrite Hchildren, page_items_children|].
  split; [|done].
  apply Forall_forall. intros p Hp.
  assert (archived p ∈ map archived new) as Hin by (apply list_elem_of_fmap; eauto).
  rewrite Harch in Hin. by apply list_elem_of_fmap in Hin as (? & ? & _).
Qed.

(** X21. Creation of the pages on a store that serves every request: one
    page per chunk is added after the pages the database has, in order, or
    a single page without blocks when there is no chunk; the first carries
    the title of its properties, the i-th ([i >= 2]) is named
    [f"{title} (Part {i})"]; each page holds its chunk as returned by
    [validate_blocks]; none is archived; the ids stay distinct; the
    requests sent are the creations, in that order, and nothing else. *)
Theorem create_pages_healthy database_id title page_properties page_chunks w :
  faults (store w) = [] →
  let run := create_pages database_id title page_properties page_chunks w in
  ∃ new_pages,
    run.1 = Ok tt
    ∧ db_pages (store run.2) = db_pages (store w) ++ new_pages
    ∧ map page_title new_pages
      = Upload.title_of page_properties
        :: map (part_title title) (seq 2 (length page_chunks - 1))
    ∧ map children new_pages
      = match page_chunks with
        | [] => [[]]
        | _ => map (λ chunk, (validate_blocks chunk).1) page_chunks
        end
    ∧ Forall (λ p, archived p = false) new_pages
    ∧ (NoDup (map page_id (db_pages (store w))) →
       NoDup (map page_id (db_pages (store run.2))))
    ∧ uploads run.2
      = uploads w
        ++ map (create_call database_id)
               (page_items title page_properties page_chunks)
    ∧ calls (store run.2) = calls (store w).
Proof.
  intros Hf. cbn zeta.
  destruct (create_pages_served database_id title page_properties page_chunks w Hf)
    as (new & Hok & Hdb & Htitles & Hchildren & Harch & Hnd & Hup & Hcalls & _).
  by exists new.
Qed.

Lemma create_pages_healthy_witness :
  map page_title
    (db_pages (store
       (create_pages "db" "T" {[ "Name" := title_value "T" ]}
          [[block_zero]; [block_one]; [block_two]]
          {| store := {| db_pages := []; calls := []; faults := [] |};
             NOTION_PARENT_PAGE := "parent";
             NOTION_DATABASE_ID := Some "db";
             uploads := [] |}).2))
  = ["T"; "T (Part 2)"; "T (Part 3)"].
Proof.
  destruct (create_pages_healthy "db" "T" {[ "Name" := title_value "T" ]}
              [[block_zero]; [block_one]; [block_two]]
              {| store := {| db_pages := []; calls := []; faults := [] |};
                 NOTION_PARENT_PAGE := "parent";
                 NOTION_DATABASE_ID := Some "db";
                 uploads := [] |} eq_refl)
    as (new & _ & Hdb & Htitles & _).
  rewrite Hdb. cbn [store db_pages app]. rewrite Htitles. by vm_compute.
Defined.

(** X22. Creation of the pages on any store: the pages are requested one
    after the other and the first request that fails ends the upload; the
    pages added are those of the requests served before it, no request is
    sent after it, and the function returns normally exactly when all the
    requests were served.  No request of the reassembly is sent and the
    globals are left as they are. *)
Theorem create_pages_stops_at_failure database_id title page_properties page_chunks w :
  let run := create_pages database_id title page_properties page_chunks w in
  let items := page_items title page_properties page_chunks in
  ∃ n,
    n ≤ length items
    ∧ db_pages (store run.2) = add_pages (db_pages (store w)) (take n items)
    ∧ uploads run.2
      = uploads w ++ map (create_call database_id) (take (S n `min` length items) items)
    ∧ calls (store run.2) = calls (store w)
    ∧ NOTION_DATABASE_ID run.2 = NOTION_DATABASE_ID w
    ∧ (run.1 = Ok tt ↔ n = length items).
Proof.
  cbn zeta. rewrite create_pages_loop.
  destruct (create_loop_prefix database_id
              (page_items title page_properties page_chunks) w)
    as (n & Hn & Hdb & Hup & Hcalls & Hid & _ & Hok & _).
  by exists n.
Qed.

End create_pages_facts.

(** ** The import of an article *)

Section import_facts.
Implicit Types (w : workspace) (s : notion).

Lemma parse_html_to_blocks_default (html : node) :
  parse_html_to_blocks html 90 = Ok (chunks (all_blocks html) 90).
Proof. unfold parse_html_to_blocks. by rewrite page_chunks_chunks. Qed.

Lemma import_pages_result database_id title html infobox_data w :
  (import_pages database_id title html infobox_data w).1 = Ok tt.
Proof.
  unfold import_pages. rewrite parse_html_to_blocks_default.
  unfold try_exceptW. rewrite run_bindW.
  destruct (create_pages _ _ _ _ w) as [[[]|e] w1]; [|done].
  rewrite run_bindW. by destruct (lift_store _ w1) as [[r|e] w2].
Qed.

(** X23. [add_article_to_database] raises only what fetching the article
    raises, and then it has changed nothing; once the article is fetched
    it returns normally whatever the store answers: a failure to create the
    database or a page, and whatever the reassembly raises, are caught
    inside the function. *)
Theorem add_article_to_database_result (url : string)
    (get : string → result node) (w : workspace) :
  (add_article_to_database url get w).1
  = match fetch_wikipedia_html url get with
    | Ok _ => Ok tt
    | Raise e => Raise e
    end
  ∧ (∀ e, fetch_wikipedia_html url get = Raise e →
          (add_article_to_database url get w).2 = w).
Proof.
  unfold add_article_to_database.
  destruct (fetch_wikipedia_html url get) as [[title html]|e]; [|done].
  split; [|done].
  destruct (NOTION_DATABASE_ID w); [apply import_pages_result|].
  destruct (create_database _ _ w) as [[database_id|e] w1]; [|done].
  rewrite run_bindW. cbn. apply import_pages_result.
Qed.

Lemma add_article_to_database_result_witness :
  (add_article_to_database "https://example.org/x" (λ _, Ok bare_document)
     {| store := two_page_store; NOTION_PARENT_PAGE := "parent";
        NOTION_DATABASE_ID := None; uploads := [] |}).2
  = {| store := two_page_store; NOTION_PARENT_PAGE := "parent";
       NOTION_DATABASE_ID := None; uploads := [] |}.
Proof.
  apply (add_article_to_database_result "https://example.org/x"
           (λ _, Ok bare_document) _) with (e := ValueError).
  by vm_compute.
Defined.

(** X24. When the database cannot be created the import stops there: the
    only request sent is the creation of the database, with the schema
    made of the infobox keys, no page is created or changed, and the global
    [NOTION_DATABASE_ID] stays unset. *)
Theorem add_article_to_database_no_database (url : string)
    (get : string → result node) (w : workspace) (title : string) (html : node) :
  fetch_wikipedia_html url get = Ok (title, html) →
  NOTION_DATABASE_ID w = None →
  head (faults (store w)) = Some true →
  let run := add_article_to_database url get w in
  run.1 = Ok tt
  ∧ NOTION_DATABASE_ID run.2 = None
  ∧ db_pages (store run.2) = db_pages (store w)
  ∧ calls (store run.2) = calls (store w)
  ∧ uploads run.2
    = uploads w
      ++ [DatabasesCreate (NOTION_PARENT_PAGE w) ("Wikipedia: " +:+ title)
            (database_properties (map_to_list (extract_infobox html)).*1)].
Proof.
  intros Hfetch Hid Hfault. cbn zeta.
  unfold add_article_to_database. rewrite Hfetch, Hid.
  unfold create_database, Upload.databases_create, Upload.request.
  rewrite Hfault. cbn [default from_option id].
  unfold Upload.with_store.
  cbn [fst snd store db_pages calls uploads NOTION_DATABASE_ID].
  by rewrite Hid.
Qed.

Lemma add_article_to_database_no_database_witness :
  NOTION_DATABASE_ID
    (add_article_to_database "https://en.wikipedia.org/wiki/Alan_Turing"
       (λ _, Ok born_died_document)
       {| store := {| db_pages := []; calls := []; faults := [true] |};
          NOTION_PARENT_PAGE := "parent";
          NOTION_DATABASE_ID := None; uploads := [] |}).2
  = None.
Proof.
  apply (add_article_to_database_no_database
           "https://en.wikipedia.org/wiki/Alan_Turing"
           (λ _, Ok born_died_document) _ "Alan Turing" born_died_document);
    by vm_compute.
Defined.

End import_facts.

(** ** The import into a new database, end to end *)

Section fresh_import_facts.
Implicit Types (w : workspace) (s : notion) (p m : page) (parts : list page).

Lemma fold_insert_other_lookup {V U} (f : V → U) (l : list (string * V))
    (properties : gmap string U) (k : string) :
  k ∉ l.*1 →
  fold_left (λ properties kv, <[kv.1 := f kv.2]> properties) l properties !! k
  = properties !! k.
Proof.
  revert properties. induction l as [|[k' v] l IH]; intros properties Hk; [done|].
  cbn [fmap list_fmap fst] in Hk. apply not_elem_of_cons in Hk as [Hne Hk].
  cbn [fold_left fst snd]. rewrite IH by done. by apply lookup_insert_ne.
Qed.

Lemma main_page_properties_name title (infobox_data : gmap string string) :
  infobox_data !! "Name" = None →
  Upload.title_of (main_page_properties title infobox_data) = title.
Proof.
  intros Hname. unfold Upload.title_of, main_page_properties.
  rewrite (fold_insert_other_lookup rich_text_value).
  - by rewrite lookup_singleton_eq.
  - intros Hin. apply list_elem_of_fmap in Hin as ([k v] & Hk & Hkv).
    cbn [fst] in Hk. subst k. apply elem_of_map_to_list in Hkv. congruence.
Qed.

Lemma contains_self title : Py.contains title title = true.
Proof.
  apply contains_startswith. rewrite <- (str_app_nil_r title) at 2.
  apply startswith_app.
Qed.

Lemma contains_part_title title i : Py.contains title (part_title title i) = true.
Proof. apply contains_startswith. unfold part_title. apply startswith_app. Qed.

Lemma filter_all_true {A} (f : A → bool) (l : list A) :
  Forall (λ x, f x = true) l → List.filter f l = l.
Proof.
  induction 1 as [|x l Hx _ IH]; [done|]. cbn [List.filter]. by rewrite Hx, IH.
Qed.

Lemma filter_all_false {A} (f : A → bool) (l : list A) :
  Forall (λ x, f x = false) l → List.filter f l = [].
Proof.
  induction 1 as [|x l Hx _ IH]; [done|]. cbn [List.filter]. by rewrite Hx, IH.
Qed.

Lemma part_titles_Forall title parts a :
  map page_title parts = map (part_title title) (seq a (length parts)) →
  Forall (λ p, ∃ i, page_title p = part_title title i) parts.
Proof.
  revert a. induction parts as [|p parts IH]; intros a Htitles; [done|].
  cbn [length seq map] in Htitles. injection Htitles as Hp Hrest.
  constructor; [by exists a|by apply (IH (S a))].
Qed.

Lemma keys_of_parts title parts a :
  Py.contains "(Part " (title +:+ " ") = false →
  map page_title parts = map (part_title title) (seq a (length parts)) →
  keys_of part_number parts
  = Ok (zip (map Z.of_nat (seq a (length parts))) parts).
Proof.
  intros Hc. revert a. induction parts as [|p parts IH]; intros a Htitles; [done|].
  cbn [length seq map] in Htitles. injection Htitles as Hp Hrest.
  cbn [keys_of]. rewrite (part_number_of_part_title title a p Hc Hp).
  cbn [result_bind]. by rewrite (IH (S a) Hrest).
Qed.

Lemma sort_keyed_ascending {A} (l : list A) a :
  sort_keyed (zip (map Z.of_nat (seq a (length l))) l)
  = zip (map Z.of_nat (seq a (length l))) l.
Proof.
  revert a. induction l as [|x l IH]; intros a; [done|].
  cbn [length seq map zip zip_with sort_keyed foldr].
  fold (sort_keyed (zip (map Z.of_nat (seq (S a) (length l))) l)).
  rewrite IH. destruct l as [|y l]; [done|].
  cbn [length seq map zip zip_with insert_keyed fst].
  by rewrite (proj2 (Z.leb_le _ _)) by lia.
Qed.

Lemma sort_by_key_parts title parts a :
  Py.contains "(Part " (title +:+ " ") = false →
  map page_title parts = map (part_title title) (seq a (length parts)) →
  sort_by_key part_number parts = Ok parts.
Proof.
  intros Hc Htitles. unfold sort_by_key.
  rewrite (keys_of_parts title parts a Hc Htitles). cbn [result_bind].
  rewrite sort_keyed_ascending. f_equal. apply snd_zip.
  by rewrite length_map, length_seq.
Qed.

(** The reassembly of a group just created: the main page first, then its
    part pages in ascending order, nothing else in the database. *)
Lemma combine_fresh_group database_id title infobox_data s m parts :
  faults s = [] →
  db_pages s = m :: parts →
  NoDup (map page_id (m :: parts)) →
  Forall (λ p, archived p = false) (m :: parts) →
  Py.contains "(Part " (title +:+ " ") = false →
  page_title m = title →
  map page_title parts = map (part_title title) (seq 2 (length parts)) →
  let all_blocks := children m ++ concat (map children parts) in
  combine_pages_into_single database_id title infobox_data s
  = (Ok (Some (page_id m)),
     {| db_pages := Store.extend_children all_blocks m
                    :: map Store.set_archived parts;
        calls := calls s ++ merge_requests database_id title m parts all_blocks;
        faults := [] |}).
Proof.
  intros Hf Hdb Hnd Harch Hc Hm Htitles all_blocks.
  pose proof (part_titles_Forall title parts 2 Htitles) as Hparts.
  assert (discovered database_id title s = m :: parts) as Hdisc.
  { unfold discovered.
    destruct (get_database_pages_served database_id title s Hf) as (s' & -> & _).
    cbn [fst]. rewrite Hdb. apply filter_all_true.
    apply Forall_cons in Harch as [Hma Hpa]. constructor.
    - by rewrite Hma, Hm, contains_self.
    - apply Forall_forall. intros p Hp.
      rewrite Forall_forall in Hpa. rewrite Forall_forall in Hparts.
      destruct (Hparts p Hp) as [i Ht].
      by rewrite (Hpa p Hp), Ht, contains_part_title. }
  destruct (classify_spec title (m :: parts)) as [Hmain Hrest].
  assert (is_main title m = true) as Hism.
  { unfold is_main. rewrite Hm. apply String.eqb_refl. }
  assert (List.filter (is_main title) parts = []) as Hnomain.
  { apply filter_all_false. eapply Forall_impl; [exact Hparts|].
    intros p [i Hp]. by apply (part_title_not_main title i). }
  assert (List.filter (is_part title) parts = parts) as Hallparts.
  { apply filter_all_true. eapply Forall_impl; [exact Hparts|].
    intros p [i Hp]. by apply (part_title_is_part title i). }
  cbn [List.filter] in Hmain, Hrest. rewrite Hism, Hnomain in Hmain.
  unfold is_part at 1 in Hrest. rewrite Hism in Hrest.
  cbn [negb andb] in Hrest. rewrite Hallparts in Hrest. cbn [last] in Hmain.
  rewrite (combine_healthy_state database_id title infobox_data s m parts);
    [|done|by rewrite Hdb|by rewrite Hdisc|].
  - fold all_blocks. rewrite Hdb. cbn [map]. f_equal. f_equal.
    cbn [map] in Hnd. apply NoDup_cons in Hnd as [Hnotin _]. f_equal.
    + unfold merged_page. rewrite has_id_eq.
      rewrite (bool_decide_eq_false_2 (page_id m ∈ map page_id parts)) by done.
      by rewrite bool_decide_eq_true_2.
    + apply map_ext_in. intros p Hp%list_elem_of_In. unfold merged_page.
      assert (page_id p ∈ map page_id parts) as Hin
        by (apply list_elem_of_fmap; eauto).
      rewrite has_id_eq.
      rewrite (bool_decide_eq_true_2 (page_id p ∈ map page_id parts)) by done.
      rewrite bool_decide_eq_false_2; [done|].
      intros Heq. apply Hnotin. by rewrite <- Heq.
  - rewrite Hdisc, Hrest. by apply (sort_by_key_parts title parts 2).
Qed.

Lemma validate_chunks_id (html : node) (step : nat) :
  map (λ chunk, (validate_blocks chunk).1) (chunks (all_blocks html) step)
  = chunks (all_blocks html) step.
Proof.
  pose proof (Forall_chunks text_len_ok (all_blocks html) step (all_blocks_ok html))
    as Hok.
  induction Hok as [|chunk l Hchunk _ IH]; [done|].
  cbn [map]. by rewrite IH, (validate_blocks_ok_id chunk Hchunk).
Qed.

(** The pages of the encoder, created and reassembled in an empty database
    on a store that serves every request. *)
Lemma import_pages_fresh database_id title html infobox_data w :
  faults (store w) = [] →
  db_pages (store w) = [] →
  Py.contains "(Part " (title +:+ " ") = false →
  infobox_data !! "Name" = None →
  let pages := chunks (all_blocks html) 90 in
  let run := import_pages database_id title html infobox_data w in
  run.1 = Ok tt
  ∧ NOTION_DATABASE_ID run.2 = NOTION_DATABASE_ID w
  ∧ map page_title (db_pages (store run.2))
    = title :: map (part_title title) (seq 2 (length pages - 1))
  ∧ map children (db_pages (store run.2))
    = (hd [] pages ++ all_blocks html) :: tail pages
  ∧ map archived (db_pages (store run.2))
    = false :: replicate (length pages - 1) true.
Proof.
  intros Hf Hempty Hc Hname pages run. subst run.
  unfold import_pages. rewrite parse_html_to_blocks_default. fold pages.
  unfold try_exceptW. rewrite run_bindW.
  pose proof (create_pages_served database_id title
                (main_page_properties title infobox_data) pages w Hf) as Hcreate.
  cbn zeta in Hcreate.
  destruct (create_pages _ _ _ _ w) as [r w1]. cbn [fst snd] in Hcreate.
  destruct Hcreate as (new & -> & Hdb & Htitles & Hchildren & Harch & Hnd & _
                       & _ & Hf1 & Hid & _).
  rewrite Hempty in Hdb, Hnd. cbn [app] in Hdb.
  rewrite main_page_properties_name in Htitles by done.
  destruct new as [|m parts]; [done|].
  cbn [map] in Htitles.
  assert (page_title m = title
          ∧ map page_title parts
            = map (part_title title) (seq 2 (length pages - 1)))
    as [Hm Hparts] by (split; congruence).
  clear Htitles.
  assert (length parts = length pages - 1) as Hlen.
  { rewrite <- (length_map page_title parts), Hparts.
    by rewrite length_map, length_seq. }
  rewrite <- Hlen in Hparts.
  rewrite run_bindW. unfold lift_store.
  rewrite (combine_fresh_group database_id title infobox_data (store w1) m parts);
    [|done|done|rewrite <- Hdb; apply Hnd; constructor|done|done|done|done].
  cbn [fst snd store db_pages NOTION_DATABASE_ID retW map].
  assert (children m = hd [] pages ∧ map children parts = tail pages
          ∧ children m ++ concat (map children parts) = all_blocks html)
    as (Hfirst & Hrest & Hall).
  { cbn [map] in Hchildren.
    pose proof (chunks_concat (all_blocks html) 90 ltac:(lia)) as Hconcat.
    fold pages in Hconcat.
    pose proof (validate_chunks_id html 90) as Hvalid. fold pages in Hvalid.
    rewrite Hvalid in Hchildren.
    destruct pages as [|chunk pages'].
    - injection Hchildren as -> ->. by rewrite <- Hconcat.
    - injection Hchildren as -> ->. by rewrite <- Hconcat. }
  split; [done|]. split; [done|]. split; [|split].
  - rewrite map_map. cbn [Store.extend_children Store.set_archived page_title].
    by rewrite Hm, <- Hlen, <- Hparts.
  - rewrite map_map. cbn [Store.extend_children Store.set_archived children].
    by rewrite Hall, Hfirst, <- Hrest.
  - rewrite map_map. cbn [Store.extend_children Store.set_archived archived].
    apply Forall_cons in Harch as [-> _]. f_equal. rewrite <- Hlen.
    clear. induction parts as [|p parts IH]; [done|]. cbn. by rewrite IH.
Qed.

(** X25. The import of an article into a new database, end to end, on a
    store that serves every request.  When no database is known, the title
    holds no part marker and the infobox has no [Name] field,
    [add_article_to_database] returns normally, records the id of the
    database it created, and leaves in that database one page per chunk of
    90 blocks: the first is named after the article, the i-th ([i >= 2]) [f"{title} (Part {i})"];
    every page but the first is archived and holds its chunk; the first
    page holds its own chunk followed by the blocks of the whole article,
    so the first chunk is there twice. *)
Theorem add_article_to_database_fresh (url : string)
    (get : string → result node) (w : workspace) (title : string) (html : node) :
  fetch_wikipedia_html url get = Ok (title, html) →
  NOTION_DATABASE_ID w = None →
  faults (store w) = [] →
  Py.contains "(Part " (title +:+ " ") = false →
  extract_infobox html !! "Name" = None →
  let pages := chunks (all_blocks html) 90 in
  let run := add_article_to_database url get w in
  run.1 = Ok tt
  ∧ NOTION_DATABASE_ID run.2
    = Some ("database-" +:+ Py.str_of_nat (length (uploads w)))
  ∧ map page_title (db_pages (store run.2))
    = title :: map (part_title title) (seq 2 (length pages - 1))
  ∧ map children (db_pages (store run.2))
    = (hd [] pages ++ all_blocks html) :: tail pages
  ∧ map archived (db_pages (store run.2))
    = false :: replicate (length pages - 1) true.
Proof.
  intros Hfetch Hid Hf Hc Hname pages run. subst run.
  unfold add_article_to_database. rewrite Hfetch, Hid.
  unfold create_database, Upload.databases_create, Upload.request.
  rewrite Hf. cbn [head default from_option id tail].
  rewrite run_bindW. unfold set_database_id, Upload.with_store.
  cbn [store NOTION_PARENT_PAGE NOTION_DATABASE_ID uploads].
  match goal with
  | |- context [import_pages ?d title html ?data ?w1] =>
      destruct (import_pages_fresh d title html data w1)
        as (Hok & Hid1 & Htitles & Hchildren & Harch); try done
  end.
Qed.

End fresh_import_facts.

Lemma add_article_to_database_fresh_witness :
  let run :=
    add_article_to_database "https://en.wikipedia.org/wiki/Alan_Turing"
      (λ _, Ok hundred_headings)
      {| store := {| db_pages := []; calls := []; faults := [] |};
         NOTION_PARENT_PAGE := "parent";
         NOTION_DATABASE_ID := None; uploads := [] |} in
  map page_title (db_pages (store run.2)) = ["Alan Turing"; "Alan Turing (Part 2)"]
  ∧ map archived (db_pages (store run.2)) = [false; true].
Proof.
  destruct (add_article_to_database_fresh
              "https://en.wikipedia.org/wiki/Alan_Turing"
              (λ _, Ok hundred_headings)
              {| store := {| db_pages := []; calls := []; faults := [] |};
                 NOTION_PARENT_PAGE := "parent";
                 NOTION_DATABASE_ID := None; uploads := [] |}
              "Alan Turing" hundred_headings)
    as (_ & _ & Htitles & _ & Harch); [by vm_compute..|].
  cbn zeta. rewrite Htitles, Harch. clear. by vm_compute.
Defined.

Section known_database_facts.
Implicit Types (w : workspace).

Lemma lift_store_frame {A} (m : M A) w :
  let run := lift_store m w in
  NOTION_DATABASE_ID run.2 = NOTION_DATABASE_ID w
  ∧ NOTION_PARENT_PAGE run.2 = NOTION_PARENT_PAGE w
  ∧ uploads run.2 = uploads w.
Proof. cbn zeta. unfold lift_store. by destruct (m (store w)). Qed.

Lemma import_pages_uploads database_id title html infobox_data w :
  let items := page_items title (main_page_properties title infobox_data)
                 (chunks (all_blocks html) 90) in
  let run := import_pages database_id title html infobox_data w in
  NOTION_DATABASE_ID run.2 = NOTION_DATABASE_ID w
  ∧ ∃ n,
      n ≤ length items
      ∧ uploads run.2
        = uploads w
          ++ map (create_call database_id) (take (S n `min` length items) items)
      ∧ (n < length items →
         calls (store run.2) = calls (store w)
         ∧ db_pages (store run.2) = add_pages (db_pages (store w)) (take n items)).
Proof.
  intros items run. subst run.
  unfold import_pages. rewrite parse_html_to_blocks_default.
  unfold try_exceptW. rewrite run_bindW, create_pages_loop. fold items.
  pose proof (create_loop_prefix database_id items w) as Hloop.
  cbn zeta in Hloop.
  destruct (for_eachW items _ w) as [r w1]. cbn [fst snd] in Hloop.
  destruct Hloop as (n & Hn & Hdb & Hup & Hcalls & Hid & _ & Hok & _).
  destruct r as [[]|e].
  - rewrite run_bindW.
    pose proof (lift_store_frame
                  (combine_pages_into_single database_id title infobox_data) w1)
      as Hframe.
    cbn zeta in Hframe.
    destruct (lift_store _ w1) as [[r|e] w2]; cbn [fst snd retW] in *;
      destruct Hframe as (Hid2 & _ & Hup2);
      (split; [congruence|]); exists n;
      (split; [done|]); (split; [congruence|]);
      intros Hlt; destruct Hok as [Hok _]; specialize (Hok eq_refl); lia.
  - cbn [fst snd retW]. split; [done|]. by exists n.
Qed.

End known_database_facts.

(** X26. The import into a known database.  When [NOTION_DATABASE_ID] is
    set and the article is fetched, [add_article_to_database] returns
    normally whatever the store answers, creates no database and leaves the
    global as it is; the requests of the upload are creations of pages in
    that database, those of the encoder's pages in order, up to the first
    one that fails; and when a creation fails the pages created before it
    stay as created and no request of the reassembly is sent. *)
Theorem add_article_to_database_known_database (url : string)
    (get : string → result node) (w : workspace) (database_id title : string)
    (html : node) :
  fetch_wikipedia_html url get = Ok (title, html) →
  NOTION_DATABASE_ID w = Some database_id →
  let items := page_items title (main_page_properties title (extract_infobox html))
                 (chunks (all_blocks html) 90) in
  let run := add_article_to_database url get w in
  run.1 = Ok tt
  ∧ NOTION_DATABASE_ID run.2 = Some database_id
  ∧ ∃ n,
      n ≤ length items
      ∧ uploads run.2
        = uploads w
          ++ map (create_call database_id) (take (S n `min` length items) items)
      ∧ (n < length items →
         calls (store run.2) = calls (store w)
         ∧ db_pages (store run.2) = add_pages (db_pages (store w)) (take n items)).
Proof.
  intros Hfetch Hid items run. subst run.
  unfold add_article_to_database. rewrite Hfetch, Hid.
  split; [apply import_pages_result|].
  destruct (import_pages_uploads database_id title html (extract_infobox html) w)
    as (Hid' & n & Hn & Hup & Hfail).
  split; [by rewrite Hid'|]. by exists n.
Qed.

Lemma add_article_to_database_known_database_witness :
  NOTION_DATABASE_ID
    (add_article_to_database "https://en.wikipedia.org/wiki/Alan_Turing"
       (λ _, Ok born_died_document)
       {| store := {| db_pages := []; calls := []; faults := [true] |};
          NOTION_PARENT_PAGE := "parent";
          NOTION_DATABASE_ID := Some "db"; uploads := [] |}).2
  = Some "db".
Proof.
  apply (add_article_to_database_known_database
           "https://en.wikipedia.org/wiki/Alan_Turing"
           (λ _, Ok born_died_document) _ "db" "Alan Turing" born_died_document);
    by vm_compute.
Defined.

(** X27. The properties of the main page fit the schema of the database
    [add_article_to_database] creates for the same infobox: both have the
    same keys, and a key holds a title value exactly when its column is the
    title column and a text value exactly when it is a text column (an
    infobox field called [Name] replaces the title on both sides). *)
Theorem main_page_properties_schema (title : string)
    (infobox_data : gmap string string) :
  schema_of <$> main_page_properties title infobox_data
  = database_properties (map_to_list infobox_data).*1.
Proof.
  unfold main_page_properties, database_properties.
  assert (schema_of <$> ({[ "Name" := title_value title ]} : gmap string property_value)
          = {[ "Name" := title_schema ]}) as Hbase
    by apply map_fmap_singleton.
  revert Hbase.
  generalize ({[ "Name" := title_value title ]} : gmap string property_value).
  generalize ({[ "Name" := title_schema ]} : gmap string property_schema).
  induction (map_to_list infobox_data) as [|[k v] l IH]; intros schema properties Hm;
    [done|].
  cbn [fold_left fmap list_fmap fst snd]. apply IH.
  by rewrite fmap_insert, Hm.
Qed.
